(** * Webcamoid: hardware video encoder session and recording orchestrator

    A shallow embedding of
    [libAvKys/Plugins/Codecs/Video/Encoders/ndkmedia/src/videoencoderndkmediaelement.cpp]
    (the Android NDK MediaCodec encoder element) and of the recording
    orchestrator ([Recording], [RecordingPrivate]), followed by the
    properties of the design document that were checked against them.

    Layout: the definitions come first, one module per source class; the
    lemmas and theorems follow in the second half of the file. *)

From Stdlib Require Import String Ascii NArith ZArith List Bool Lia Floats QArith Qround.
From Stdlib Require Reals Lra Psatz Qreals.
Import ListNotations.

#[local] Open Scope string_scope.
#[local] Open Scope list_scope.
#[local] Open Scope Z_scope.

(* ===================================================================== *)
(** * Machine integers and Qt helpers *)
(* ===================================================================== *)

Module Int.

(** Conversion to [size_t] (64 bits, unsigned): value modulo 2^64. *)
Definition to_size_t (z : Z) : Z := z mod 2 ^ 64.

(** Conversion to [int] / [int32_t]: two's complement wrap-around. *)
Definition to_int32 (z : Z) : Z := (z + 2 ^ 31) mod 2 ^ 32 - 2 ^ 31.

(** Conversion to [qint64]: two's complement wrap-around. *)
Definition to_int64 (z : Z) : Z := (z + 2 ^ 63) mod 2 ^ 64 - 2 ^ 63.

(** [qMin<size_t>(a, b)] where [a] is a [size_t] already and [b] is an
    [int]: [b] is converted to [size_t] before the comparison. *)
Definition qMin_size_t (a b : Z) : Z := Z.min a (to_size_t b).

(** [qMax] on integers. *)
Definition qMax (a b : Z) : Z := if a <? b then b else a.

(** [for (int i = 0; i < n; ++i) body(i)] threaded through a state. *)
Definition for_int {S : Type} (n : Z) (body : Z -> S -> S) (s : S) : S :=
  fold_left (fun acc i => body (Z.of_nat i) acc) (seq 0 (Z.to_nat n)) s.

End Int.

(* ===================================================================== *)
(** * Methods as state transformers *)
(* ===================================================================== *)

Module State.

(** A method of an object whose members (and surroundings) are [S]: it
    returns a value and the members as it leaves them. *)
Definition State (S A : Type) : Type := S -> A * S.

Definition ret {S A : Type} (a : A) : State S A := fun s => (a, s).

Definition bind {S A B : Type} (m : State S A) (k : A -> State S B)
    : State S B :=
  fun s => let (a, s') := m s in k a s'.

Definition when {S : Type} (b : bool) (m : State S unit) : State S unit :=
  if b then m else ret tt.

Declare Scope state_scope.
Delimit Scope state_scope with state.

Notation "x <- m ;; k" := (bind m (fun x => k))
  (at level 61, m at next level, right associativity) : state_scope.
Notation "m ;; k" := (bind m (fun _ => k))
  (at level 61, right associativity) : state_scope.

End State.

(* ===================================================================== *)
(** * The Ak value types the two classes exchange *)
(* ===================================================================== *)

Module Ak.

(** [AkElement::ElementState]. *)
Inductive ElementState : Type :=
| ElementStateNull
| ElementStatePaused
| ElementStatePlaying.

Definition ElementState_eqb (a b : ElementState) : bool :=
  match a, b with
  | ElementStateNull, ElementStateNull => true
  | ElementStatePaused, ElementStatePaused => true
  | ElementStatePlaying, ElementStatePlaying => true
  | _, _ => false
  end.

(** [AkCaps::CapsType], restricted to the two stream kinds that are recorded
    plus the remaining cases of the [switch] statements. *)
Inductive CapsType : Type :=
| CapsAudio
| CapsVideo
| CapsUnknown.

(** [AkFrac]: a pair of [qint64]. *)
Record AkFrac : Type := mkFrac { num : Z; den : Z }.

(** [AkFrac::operator bool]: a fraction with a zero term is not valid. *)
Definition AkFrac_valid (f : AkFrac) : bool :=
  negb (num f =? 0) && negb (den f =? 0).

(** [AkFrac::invert]. *)
Definition invert (f : AkFrac) : AkFrac := mkFrac (den f) (num f).

(** [AkVideoCaps::PixelFormat]: the formats of the encoder's table, the
    sentinel, and every other format by its fourcc. *)
Inductive PixelFormat : Type :=
| Format_none
| Format_yuv420p
| Format_yuv422p
| Format_yuv444p
| Format_other (fourcc : Z).

Definition PixelFormat_eqb (a b : PixelFormat) : bool :=
  match a, b with
  | Format_none, Format_none => true
  | Format_yuv420p, Format_yuv420p => true
  | Format_yuv422p, Format_yuv422p => true
  | Format_yuv444p, Format_yuv444p => true
  | Format_other x, Format_other y => x =? y
  | _, _ => false
  end.

(** [AkVideoCaps]. *)
Record AkVideoCaps : Type := mkVideoCaps {
  format : PixelFormat;
  width : Z;
  height : Z;
  fps : AkFrac
}.

(** One plane of an [AkVideoPacket], as the accessors of the packet give it:
    [lineSize(plane)], [widthDiv(plane)], [heightDiv(plane)] (both [size_t])
    and [constLine(plane, y)], the bytes of the line that holds row [y]. *)
Record Plane : Type := mkPlane {
  lineSize : Z;
  widthDiv : N;
  heightDiv : N;
  constLine : Z -> list Byte.byte
}.

(** [AkVideoPacket]. *)
Record AkVideoPacket : Type := mkVideoPacket {
  caps : AkVideoCaps;
  plane_data : list Plane;
  pts : Z;
  duration : Z;
  timeBase : AkFrac;
  id : Z;
  index : Z
}.

(** [packet.planes()]. *)
Definition planes (packet : AkVideoPacket) : Z :=
  Z.of_nat (List.length (plane_data packet)).

Definition empty_plane : Plane := mkPlane 0 0 0 (fun _ => []).

Definition plane_at (packet : AkVideoPacket) (plane : Z) : Plane :=
  nth (Z.to_nat plane) (plane_data packet) empty_plane.

End Ak.

(* ===================================================================== *)
(** * The hardware format object *)
(* ===================================================================== *)

Module MediaFormat.

(** The keys [init] stores in the [AMediaFormat] it hands to the codec.
    The frame rate is kept as the fraction whose value is stored. *)
Record AMediaFormat : Type := mkFormat {
  KEY_MIME : string;
  KEY_BIT_RATE : Z;
  KEY_LANGUAGE : string;
  KEY_COLOR_FORMAT : Z;
  KEY_WIDTH : Z;
  KEY_HEIGHT : Z;
  KEY_FRAME_RATE : Ak.AkFrac;
  KEY_STRIDE : Z;
  KEY_SLICE_HEIGHT : Z;
  KEY_I_FRAME_INTERVAL : Z;
  KEY_BITRATE_MODE : Z
}.

(** [AMediaFormat_getInt32(format, key, &out)] with [out] preset to 0: a
    missing format object leaves the preset value. *)
Definition getInt32 (fmt : option AMediaFormat) (key : AMediaFormat -> Z) : Z :=
  match fmt with
  | Some f => key f
  | None => 0
  end.

End MediaFormat.

(* ===================================================================== *)
(** * FrameWriter: [VideoEncoderNDKMediaElementPrivate::writeFrame] *)
(* ===================================================================== *)

Module FrameWriter.

Import Ak.

(** One [memcpy(oData + ys * oLineSize, packet.constLine(plane, y), lineSize)]:
    the destination as an offset from the start of the input buffer, the
    source line by plane and row, and the byte count. *)
Record Memcpy : Type := mkMemcpy {
  dest : Z;
  src_plane : Z;
  src_row : Z;
  count : Z
}.

(** The writer's variables: the cursor [oData] (offset from [buffer]) and
    the copies done so far, oldest first. *)
Record Writer : Type := mkWriter {
  oData : Z;
  copies : list Memcpy
}.

(** The body of the [for (int y ...)] loop; the row offset
    [ys * oLineSize] is a product of two [int]. *)
Definition copy_row (packet : AkVideoPacket) (plane : Z)
    (oLineSize lineSize : Z) (heightDiv : N) (y : Z) (w : Writer) : Writer :=
  let ys := Z.shiftr y (Z.of_N heightDiv) in
  mkWriter (oData w)
           (copies w
            ++ [mkMemcpy (oData w + Int.to_int32 (ys * oLineSize)) plane y
                  lineSize]).

(** The body of the [for (int plane ...)] loop; the advance of the
    cursor, [oLineSize * (sliceHeight >> heightDiv)], is a product of two
    [int] as well. *)
Definition write_plane (packet : AkVideoPacket) (stride sliceHeight : Z)
    (plane : Z) (w : Writer) : Writer :=
  let iLineSize := lineSize (plane_at packet plane) in
  let oLineSize :=
    if 1 <? planes packet
    then Z.shiftr stride (Z.of_N (widthDiv (plane_at packet plane)))
    else stride in
  let lineSize := Int.qMin_size_t iLineSize oLineSize in
  let heightDiv := heightDiv (plane_at packet plane) in
  let w' :=
    Int.for_int (height (caps packet))
      (copy_row packet plane oLineSize lineSize heightDiv) w in
  mkWriter (oData w'
            + Int.to_int32 (oLineSize * Z.shiftr sliceHeight (Z.of_N heightDiv)))
           (copies w').

(** [writeFrame(packet, buffer, bufferSize)]; [bufferSize] is unused by the
    source. The result holds the final cursor and every copy, in order. *)
Definition writeFrame (mediaFormat : option MediaFormat.AMediaFormat)
    (packet : AkVideoPacket) : Writer :=
  let stride := MediaFormat.getInt32 mediaFormat MediaFormat.KEY_STRIDE in
  let sliceHeight :=
    MediaFormat.getInt32 mediaFormat MediaFormat.KEY_SLICE_HEIGHT in
  let sliceHeight :=
    if sliceHeight <? height (caps packet)
    then height (caps packet)
    else sliceHeight in
  Int.for_int (planes packet) (write_plane packet stride sliceHeight)
    (mkWriter 0 []).

(** The input buffer as a flat memory indexed from [buffer]. *)
Definition Buffer : Type := Z -> Byte.byte.

(** The effect of one [memcpy] on the buffer. *)
Definition memcpy (packet : AkVideoPacket) (c : Memcpy) (b : Buffer) : Buffer :=
  fun a =>
    if (dest c <=? a) && (a <? dest c + count c)
    then nth (Z.to_nat (a - dest c))
             (constLine (plane_at packet (src_plane c)) (src_row c)) (b a)
    else b a.

(** The buffer after [writeFrame]. *)
Definition written (mediaFormat : option MediaFormat.AMediaFormat)
    (packet : AkVideoPacket) (b : Buffer) : Buffer :=
  fold_left (fun acc c => memcpy packet c acc)
            (copies (writeFrame mediaFormat packet)) b.

(** ** The layout rule in closed form *)

(** Destination line size of a plane. *)
Definition oLineSize_of (packet : AkVideoPacket) (stride : Z) (pl : Plane) : Z :=
  if 1 <? planes packet then Z.shiftr stride (Z.of_N (widthDiv pl)) else stride.

(** Slice height after the clamp. *)
Definition clamped_sliceHeight (sliceHeight frameHeight : Z) : Z :=
  Z.max sliceHeight frameHeight.

(** Bytes a plane occupies in the destination, padding rows included. *)
Definition plane_extent (oLine : Plane -> Z) (sliceHeight : Z) (pl : Plane) : Z :=
  oLine pl * Z.shiftr sliceHeight (Z.of_N (heightDiv pl)).

(** Offset at which plane number [k] starts. *)
Definition plane_base (oLine : Plane -> Z) (sliceHeight : Z)
    (pls : list Plane) (k : nat) : Z :=
  fold_right Z.add 0 (map (plane_extent oLine sliceHeight) (firstn k pls)).

(** The rows [0, frameHeight). *)
Definition rows (frameHeight : Z) : list Z :=
  map Z.of_nat (seq 0 (Z.to_nat frameHeight)).

(** The copies of plane number [k] that starts at [base]. *)
Definition plane_copies (oLine : Plane -> Z) (frameHeight base : Z)
    (k : nat) (pl : Plane) : list Memcpy :=
  map (fun y =>
         mkMemcpy (base + Z.shiftr y (Z.of_N (heightDiv pl)) * oLine pl)
                  (Z.of_nat k) y
                  (Z.min (lineSize pl) (oLine pl)))
      (rows frameHeight).

(** All copies of a frame, plane after plane, for a given rule [oLine] for
    the destination line size. *)
Definition layout_copies (oLine : Plane -> Z) (sliceHeight frameHeight : Z)
    (pls : list Plane) : list Memcpy :=
  concat (map (fun k =>
                 plane_copies oLine frameHeight
                   (plane_base oLine sliceHeight pls k) k
                   (nth k pls empty_plane))
              (seq 0 (List.length pls))).

(** The rule as the design document words it: the destination line size
    is always the stride shifted by the plane's width subsampling. *)
Definition documented_oLineSize (stride : Z) (pl : Plane) : Z :=
  Z.shiftr stride (Z.of_N (widthDiv pl)).

End FrameWriter.

(* ===================================================================== *)
(** * IEEE doubles as the code uses them *)
(* ===================================================================== *)

Module Double.

(** [double(z)] for an integer: rounded to nearest, ties to even. *)
Definition of_Z (z : Z) : float :=
  SF2Prim (binary_normalize prec emax z 0 false).

(** [qint64(d)]: truncation toward zero; the conversion saturates and maps
    a NaN to 0, as the ARM64 instruction the NDK targets does. *)
Definition to_int64 (d : float) : Z :=
  match Prim2SF d with
  | S754_zero _ => 0
  | S754_nan => 0
  | S754_infinity s => if s then - 2 ^ 63 else 2 ^ 63 - 1
  | S754_finite s m e =>
      let v := match e with
               | Zneg p => Z.shiftr (Zpos m) (Zpos p)
               | _ => Z.shiftl (Zpos m) e
               end in
      let v := if s then - v else v in
      Z.max (- 2 ^ 63) (Z.min (2 ^ 63 - 1) v)
  end.

(** [qRound64(d)] of QtGlobal:
    [d >= 0.0 ? qint64(d + 0.5) : qint64(d - 0.5)]. *)
Definition qRound64 (d : float) : Z :=
  if PrimFloat.leb 0%float d
  then to_int64 (d + 0.5)%float
  else to_int64 (d - 0.5)%float.

(** [AkFrac::value]: the quotient of the two terms as doubles. *)
Definition value (f : Ak.AkFrac) : float :=
  (of_Z (Ak.num f) / of_Z (Ak.den f))%float.

End Double.

(* ===================================================================== *)
(** * The static catalogs *)
(* ===================================================================== *)

Module NDKMediaCodecs.

(** [AkVideoEncoderCodecID]: the ids of the table, the id of the
    terminating entry, and every other codec id by its fourcc. *)
Inductive AkVideoEncoderCodecID : Type :=
| VideoCodecID_amvp8
| VideoCodecID_amvp9
| VideoCodecID_amav1
| VideoCodecID_amh264
| VideoCodecID_amhevc
| VideoCodecID_unknown
| VideoCodecID_other (fourcc : Z).

Definition codecID_eqb (a b : AkVideoEncoderCodecID) : bool :=
  match a, b with
  | VideoCodecID_amvp8, VideoCodecID_amvp8 => true
  | VideoCodecID_amvp9, VideoCodecID_amvp9 => true
  | VideoCodecID_amav1, VideoCodecID_amav1 => true
  | VideoCodecID_amh264, VideoCodecID_amh264 => true
  | VideoCodecID_amhevc, VideoCodecID_amhevc => true
  | VideoCodecID_unknown, VideoCodecID_unknown => true
  | VideoCodecID_other x, VideoCodecID_other y => x =? y
  | _, _ => false
  end.

Record NDKMediaCodec : Type := mkCodec {
  codecID : AkVideoEncoderCodecID;
  mimeType : string;
  name : string;
  description : string
}.

(** The table without its terminating entry, and the terminating entry. *)
Definition table : list NDKMediaCodec :=
  [ mkCodec VideoCodecID_amvp8 "video/x-vnd.on2.vp8" "vp8" "VP8";
    mkCodec VideoCodecID_amvp9 "video/x-vnd.on2.vp9" "vp9" "VP9";
    mkCodec VideoCodecID_amav1 "video/av01" "av1" "AV1";
    mkCodec VideoCodecID_amh264 "video/avc" "h264" "H264";
    mkCodec VideoCodecID_amhevc "video/hevc" "hevc" "HEVC" ].

Definition sentinel : NDKMediaCodec := mkCodec VideoCodecID_unknown "" "" "".

(** [NDKMediaCodecs::codecs]. *)
Definition codecs : list string := map name table.

(** [NDKMediaCodecs::byCodecID]: first entry with that id, else the
    terminating entry. *)
Definition byCodecID (id : AkVideoEncoderCodecID) : NDKMediaCodec :=
  match find (fun c => codecID_eqb (codecID c) id) table with
  | Some c => c
  | None => sentinel
  end.

(** [NDKMediaCodecs::byName]. *)
Definition byName (n : string) : NDKMediaCodec :=
  match find (fun c => String.eqb (name c) n) table with
  | Some c => c
  | None => sentinel
  end.

End NDKMediaCodecs.

Module PixelFormatsTable.

Import Ak.

Definition COLOR_FormatYUV420Flexible : Z := 0x7f420888.
Definition COLOR_FormatYUV422Flexible : Z := 0x7f422888.
Definition COLOR_FormatYUV444Flexible : Z := 0x7f444888.

Record Entry : Type := mkEntry { ndkFormat : Z; format : PixelFormat }.

Definition table : list Entry :=
  [ mkEntry COLOR_FormatYUV420Flexible Format_yuv420p;
    mkEntry COLOR_FormatYUV422Flexible Format_yuv422p;
    mkEntry COLOR_FormatYUV444Flexible Format_yuv444p ].

Definition sentinel : Entry := mkEntry 0 Format_none.

(** [PixelFormatsTable::byFormat]. *)
Definition byFormat (f : PixelFormat) : Entry :=
  match find (fun e => PixelFormat_eqb (format e) f) table with
  | Some e => e
  | None => sentinel
  end.

(** [PixelFormatsTable::byNdkFormat]. *)
Definition byNdkFormat (n : Z) : Entry :=
  match find (fun e => ndkFormat e =? n) table with
  | Some e => e
  | None => sentinel
  end.

(** [PixelFormatsTable::formats]. *)
Definition formats : list PixelFormat := map format table.

(** [AkVideoCaps::formatSpecs(format).plane(0).bitsSize()] for the formats
    of the table (8 bits per luma sample); the specification table of the
    other formats is not part of this file. *)
Definition plane0_bitsSize (f : PixelFormat) : Z :=
  match f with
  | Format_yuv420p | Format_yuv422p | Format_yuv444p => 8
  | _ => 0
  end.

End PixelFormatsTable.

(* ===================================================================== *)
(** * The hardware codec provider and the other collaborators *)
(* ===================================================================== *)

Module Hw.

Import Ak.

Definition AMEDIA_OK : Z := 0.
Definition AMEDIA_ERROR_UNKNOWN : Z := -10000.
Definition AMEDIACODEC_INFO_TRY_AGAIN_LATER : Z := -1.
Definition AMEDIACODEC_BUFFER_FLAG_CODEC_CONFIG : Z := 2.
Definition AMEDIACODEC_BUFFER_FLAG_END_OF_STREAM : Z := 4.
Definition AMEDIACODEC_CONFIGURE_FLAG_ENCODE : Z := 1.
Definition BITRATE_MODE_CBR : Z := 2.
Definition PROCESSING_TIMEOUT : Z := 3000.

(** [AMediaCodecBufferInfo]. *)
Record AMediaCodecBufferInfo : Type := mkInfo {
  offset : Z;
  size : Z;
  presentationTimeUs : Z;
  flags : Z
}.

(** [AkCompressedVideoCaps]; the default-constructed value is [no_caps]. *)
Record AkCompressedVideoCaps : Type := mkCompressedCaps {
  codec : NDKMediaCodecs.AkVideoEncoderCodecID;
  rawCaps : AkVideoCaps;
  bitrate : Z
}.

Definition no_video_caps : AkVideoCaps := mkVideoCaps Format_none 0 0 (mkFrac 0 0).

Definition no_caps : AkCompressedVideoCaps :=
  mkCompressedCaps NDKMediaCodecs.VideoCodecID_unknown no_video_caps 0.

(** [AkVideoCaps::operator bool]. *)
Definition AkVideoCaps_valid (c : AkVideoCaps) : bool :=
  negb (PixelFormat_eqb (format c) Format_none)
  && (0 <? width c) && (0 <? height c).

Definition AkFrac_eqb (a b : AkFrac) : bool :=
  (num a =? num b) && (den a =? den b).

Definition AkVideoCaps_eqb (a b : AkVideoCaps) : bool :=
  PixelFormat_eqb (format a) (format b)
  && (width a =? width b) && (height a =? height b)
  && AkFrac_eqb (fps a) (fps b).

(** [AkCompressedVideoCaps::operator bool]. *)
Definition AkCompressedVideoCaps_valid (c : AkCompressedVideoCaps) : bool :=
  negb (NDKMediaCodecs.codecID_eqb (codec c) NDKMediaCodecs.VideoCodecID_unknown)
  && AkVideoCaps_valid (rawCaps c).

Definition AkCompressedVideoCaps_eqb (a b : AkCompressedVideoCaps) : bool :=
  NDKMediaCodecs.codecID_eqb (codec a) (codec b)
  && AkVideoCaps_eqb (rawCaps a) (rawCaps b)
  && (bitrate a =? bitrate b).

Inductive VideoPacketTypeFlag : Type :=
| VideoPacketTypeFlag_None
| VideoPacketTypeFlag_KeyFrame.

(** [AkCompressedVideoPacket]. *)
Record AkCompressedVideoPacket : Type := mkCompressedPacket {
  p_caps : AkCompressedVideoCaps;
  p_data : list Byte.byte;
  p_flags : VideoPacketTypeFlag;
  p_pts : Z;
  p_dts : Z;
  p_duration : Z;
  p_timeBase : AkFrac;
  p_id : Z;
  p_index : Z;
  p_extraData : AMediaCodecBufferInfo
}.

(** The calls made to the codec provider, as a trace. A codec handle is
    [None] for a null pointer. *)
Inductive Call : Type :=
| createEncoderByType (mime : string)
| delete (codec : option nat)
| configure (codec : option nat) (fmt : MediaFormat.AMediaFormat) (flags : Z)
| start (codec : option nat)
| stop (codec : option nat)
| dequeueInputBuffer (codec : option nat) (timeout : Z)
| getInputBuffer (codec : option nat) (idx : Z)
| fillInputBuffer (idx : Z) (writes : list FrameWriter.Memcpy)
| queueInputBuffer (codec : option nat) (idx offset size time flags : Z)
| dequeueOutputBuffer (codec : option nat) (timeout : Z)
| getOutputBuffer (codec : option nat) (idx : Z)
| releaseOutputBuffer (codec : option nat) (idx : Z) (render : bool).

(** The signals of the element. Headers are the address of the format
    object; [None] is the empty byte array. *)
Inductive Signal : Type :=
| oStream (packet : AkCompressedVideoPacket)
| headersChanged (headers : option nat)
| outputCapsChanged (caps : AkCompressedVideoCaps)
| encodedTimePtsChanged (pts : Z)
| stateChanged (state : ElementState).

(** What the collaborators will answer, call after call. An exhausted list
    stands for a provider that no longer answers: no encoder, an error
    status, no buffer; the frame-rate control and the converter then pass
    packets through unchanged. *)
Record Script : Type := mkScript {
  will_create : list bool;
  will_configure : list Z;
  will_start : list Z;
  will_dequeue_input : list (Z * Z);
  will_dequeue_output : list (Z * AMediaCodecBufferInfo * list Byte.byte);
  will_discard : list bool;
  will_convert : list (option Ak.AkVideoPacket);
  will_forward : list (list Ak.AkVideoPacket)
}.

Definition set_will_create (v : list bool) (r : Script) : Script :=
  mkScript v (will_configure r) (will_start r) (will_dequeue_input r)
    (will_dequeue_output r) (will_discard r) (will_convert r) (will_forward
    r).

Definition set_will_configure (v : list Z) (r : Script) : Script :=
  mkScript (will_create r) v (will_start r) (will_dequeue_input r)
    (will_dequeue_output r) (will_discard r) (will_convert r) (will_forward
    r).

Definition set_will_start (v : list Z) (r : Script) : Script :=
  mkScript (will_create r) (will_configure r) v (will_dequeue_input r)
    (will_dequeue_output r) (will_discard r) (will_convert r) (will_forward
    r).

Definition set_will_dequeue_input (v : list (Z * Z)) (r : Script) : Script :=
  mkScript (will_create r) (will_configure r) (will_start r) v
    (will_dequeue_output r) (will_discard r) (will_convert r) (will_forward
    r).

Definition set_will_dequeue_output (v : list (Z * AMediaCodecBufferInfo * list Byte.byte)) (r : Script) : Script :=
  mkScript (will_create r) (will_configure r) (will_start r)
    (will_dequeue_input r) v (will_discard r) (will_convert r) (will_forward
    r).

Definition set_will_discard (v : list bool) (r : Script) : Script :=
  mkScript (will_create r) (will_configure r) (will_start r)
    (will_dequeue_input r) (will_dequeue_output r) v (will_convert r)
    (will_forward r).

Definition set_will_convert (v : list (option Ak.AkVideoPacket)) (r : Script) : Script :=
  mkScript (will_create r) (will_configure r) (will_start r)
    (will_dequeue_input r) (will_dequeue_output r) (will_discard r) v
    (will_forward r).

Definition set_will_forward (v : list (list Ak.AkVideoPacket)) (r : Script) : Script :=
  mkScript (will_create r) (will_configure r) (will_start r)
    (will_dequeue_input r) (will_dequeue_output r) (will_discard r)
    (will_convert r) v.

(** Everything outside the element: the script, the codec handles that
    exist ([live]) and that were started and not stopped ([running]), the
    trace of calls and of signals, and the function-local static cache of
    [isAvailable] with the flag that records a write past its 32 slots. *)
Record World : Type := mkWorld {
  script : Script;
  next_handle : nat;
  live : list nat;
  running : list nat;
  calls : list Call;
  signals : list Signal;
  availableCodecs : list (string * bool);
  overrun : bool
}.

Definition set_script (v : Script) (r : World) : World :=
  mkWorld v (next_handle r) (live r) (running r) (calls r) (signals r)
    (availableCodecs r) (overrun r).

Definition set_next_handle (v : nat) (r : World) : World :=
  mkWorld (script r) v (live r) (running r) (calls r) (signals r)
    (availableCodecs r) (overrun r).

Definition set_live (v : list nat) (r : World) : World :=
  mkWorld (script r) (next_handle r) v (running r) (calls r) (signals r)
    (availableCodecs r) (overrun r).

Definition set_running (v : list nat) (r : World) : World :=
  mkWorld (script r) (next_handle r) (live r) v (calls r) (signals r)
    (availableCodecs r) (overrun r).

Definition set_calls (v : list Call) (r : World) : World :=
  mkWorld (script r) (next_handle r) (live r) (running r) v (signals r)
    (availableCodecs r) (overrun r).

Definition set_signals (v : list Signal) (r : World) : World :=
  mkWorld (script r) (next_handle r) (live r) (running r) (calls r) v
    (availableCodecs r) (overrun r).

Definition set_availableCodecs (v : list (string * bool)) (r : World) : World :=
  mkWorld (script r) (next_handle r) (live r) (running r) (calls r) (signals
    r) v (overrun r).

Definition set_overrun (v : bool) (r : World) : World :=
  mkWorld (script r) (next_handle r) (live r) (running r) (calls r) (signals
    r) (availableCodecs r) v.

Definition remove_handle (h : option nat) (l : list nat) : list nat :=
  match h with
  | Some n => filter (fun x => negb (Nat.eqb x n)) l
  | None => l
  end.

Definition add_handle (h : option nat) (l : list nat) : list nat :=
  match h with
  | Some n => n :: l
  | None => l
  end.

Definition log (c : Call) (w : World) : World := set_calls (calls w ++ [c]) w.

Definition emit_signal (sg : Signal) (w : World) : World :=
  set_signals (signals w ++ [sg]) w.

(** A world in which nothing happened yet. *)
Definition boot (sc : Script) : World := mkWorld sc 0 [] [] [] [] [] false.

End Hw.

(* ===================================================================== *)
(** * EncoderSession: [VideoEncoderNDKMediaElement] *)
(* ===================================================================== *)

Module Encoder.

Import Ak Hw State.

(** [CodecInfo] of the encoder element. *)
Record CodecInfo : Type := mkCodecInfo {
  ci_name : string;
  ci_description : string;
  ci_codecID : NDKMediaCodecs.AkVideoEncoderCodecID;
  ci_mimeType : string;
  ci_formats : list PixelFormat
}.

(** The element: the properties of its base classes that the code reads
    ([state], [inputCaps], [codec], [bitrate], [gop], [fillGaps]) and the
    members of [VideoEncoderNDKMediaElementPrivate]. [converter_outputCaps]
    is [m_videoConverter.outputCaps()]; [m_codec] is [None] for [nullptr];
    [m_mediaFormat] holds the address of the format object with its keys;
    [m_fpsControl] tells whether the frame-rate control plug-in exists. *)
Record Element : Type := mkElement {
  state : ElementState;
  inputCaps : AkVideoCaps;
  codec : string;
  bitrate : Z;
  gop : Z;
  fillGaps : bool;
  converter_outputCaps : AkVideoCaps;
  m_outputCaps : AkCompressedVideoCaps;
  m_headers : option nat;
  m_codecs : list CodecInfo;
  m_codec : option nat;
  m_mediaFormat : option (nat * MediaFormat.AMediaFormat);
  m_id : Z;
  m_index : Z;
  m_initialized : bool;
  m_paused : bool;
  m_encodedTimePts : Z;
  m_fpsControl : bool
}.

Definition set_state (v : ElementState) (r : Element) : Element :=
  mkElement v (inputCaps r) (codec r) (bitrate r) (gop r) (fillGaps r)
    (converter_outputCaps r) (m_outputCaps r) (m_headers r) (m_codecs r)
    (m_codec r) (m_mediaFormat r) (m_id r) (m_index r) (m_initialized r)
    (m_paused r) (m_encodedTimePts r) (m_fpsControl r).

Definition set_inputCaps (v : AkVideoCaps) (r : Element) : Element :=
  mkElement (state r) v (codec r) (bitrate r) (gop r) (fillGaps r)
    (converter_outputCaps r) (m_outputCaps r) (m_headers r) (m_codecs r)
    (m_codec r) (m_mediaFormat r) (m_id r) (m_index r) (m_initialized r)
    (m_paused r) (m_encodedTimePts r) (m_fpsControl r).

Definition set_codec (v : string) (r : Element) : Element :=
  mkElement (state r) (inputCaps r) v (bitrate r) (gop r) (fillGaps r)
    (converter_outputCaps r) (m_outputCaps r) (m_headers r) (m_codecs r)
    (m_codec r) (m_mediaFormat r) (m_id r) (m_index r) (m_initialized r)
    (m_paused r) (m_encodedTimePts r) (m_fpsControl r).

Definition set_bitrate (v : Z) (r : Element) : Element :=
  mkElement (state r) (inputCaps r) (codec r) v (gop r) (fillGaps r)
    (converter_outputCaps r) (m_outputCaps r) (m_headers r) (m_codecs r)
    (m_codec r) (m_mediaFormat r) (m_id r) (m_index r) (m_initialized r)
    (m_paused r) (m_encodedTimePts r) (m_fpsControl r).

Definition set_gop (v : Z) (r : Element) : Element :=
  mkElement (state r) (inputCaps r) (codec r) (bitrate r) v (fillGaps r)
    (converter_outputCaps r) (m_outputCaps r) (m_headers r) (m_codecs r)
    (m_codec r) (m_mediaFormat r) (m_id r) (m_index r) (m_initialized r)
    (m_paused r) (m_encodedTimePts r) (m_fpsControl r).

Definition set_fillGaps (v : bool) (r : Element) : Element :=
  mkElement (state r) (inputCaps r) (codec r) (bitrate r) (gop r) v
    (converter_outputCaps r) (m_outputCaps r) (m_headers r) (m_codecs r)
    (m_codec r) (m_mediaFormat r) (m_id r) (m_index r) (m_initialized r)
    (m_paused r) (m_encodedTimePts r) (m_fpsControl r).

Definition set_converter_outputCaps (v : AkVideoCaps) (r : Element) : Element :=
  mkElement (state r) (inputCaps r) (codec r) (bitrate r) (gop r) (fillGaps
    r) v (m_outputCaps r) (m_headers r) (m_codecs r) (m_codec r)
    (m_mediaFormat r) (m_id r) (m_index r) (m_initialized r) (m_paused r)
    (m_encodedTimePts r) (m_fpsControl r).

Definition set_m_outputCaps (v : AkCompressedVideoCaps) (r : Element) : Element :=
  mkElement (state r) (inputCaps r) (codec r) (bitrate r) (gop r) (fillGaps
    r) (converter_outputCaps r) v (m_headers r) (m_codecs r) (m_codec r)
    (m_mediaFormat r) (m_id r) (m_index r) (m_initialized r) (m_paused r)
    (m_encodedTimePts r) (m_fpsControl r).

Definition set_m_headers (v : option nat) (r : Element) : Element :=
  mkElement (state r) (inputCaps r) (codec r) (bitrate r) (gop r) (fillGaps
    r) (converter_outputCaps r) (m_outputCaps r) v (m_codecs r) (m_codec r)
    (m_mediaFormat r) (m_id r) (m_index r) (m_initialized r) (m_paused r)
    (m_encodedTimePts r) (m_fpsControl r).

Definition set_m_codecs (v : list CodecInfo) (r : Element) : Element :=
  mkElement (state r) (inputCaps r) (codec r) (bitrate r) (gop r) (fillGaps
    r) (converter_outputCaps r) (m_outputCaps r) (m_headers r) v (m_codec r)
    (m_mediaFormat r) (m_id r) (m_index r) (m_initialized r) (m_paused r)
    (m_encodedTimePts r) (m_fpsControl r).

Definition set_m_codec (v : option nat) (r : Element) : Element :=
  mkElement (state r) (inputCaps r) (codec r) (bitrate r) (gop r) (fillGaps
    r) (converter_outputCaps r) (m_outputCaps r) (m_headers r) (m_codecs r)
    v (m_mediaFormat r) (m_id r) (m_index r) (m_initialized r) (m_paused r)
    (m_encodedTimePts r) (m_fpsControl r).

Definition set_m_mediaFormat (v : option (nat * MediaFormat.AMediaFormat)) (r : Element) : Element :=
  mkElement (state r) (inputCaps r) (codec r) (bitrate r) (gop r) (fillGaps
    r) (converter_outputCaps r) (m_outputCaps r) (m_headers r) (m_codecs r)
    (m_codec r) v (m_id r) (m_index r) (m_initialized r) (m_paused r)
    (m_encodedTimePts r) (m_fpsControl r).

Definition set_m_id (v : Z) (r : Element) : Element :=
  mkElement (state r) (inputCaps r) (codec r) (bitrate r) (gop r) (fillGaps
    r) (converter_outputCaps r) (m_outputCaps r) (m_headers r) (m_codecs r)
    (m_codec r) (m_mediaFormat r) v (m_index r) (m_initialized r) (m_paused
    r) (m_encodedTimePts r) (m_fpsControl r).

Definition set_m_index (v : Z) (r : Element) : Element :=
  mkElement (state r) (inputCaps r) (codec r) (bitrate r) (gop r) (fillGaps
    r) (converter_outputCaps r) (m_outputCaps r) (m_headers r) (m_codecs r)
    (m_codec r) (m_mediaFormat r) (m_id r) v (m_initialized r) (m_paused r)
    (m_encodedTimePts r) (m_fpsControl r).

Definition set_m_initialized (v : bool) (r : Element) : Element :=
  mkElement (state r) (inputCaps r) (codec r) (bitrate r) (gop r) (fillGaps
    r) (converter_outputCaps r) (m_outputCaps r) (m_headers r) (m_codecs r)
    (m_codec r) (m_mediaFormat r) (m_id r) (m_index r) v (m_paused r)
    (m_encodedTimePts r) (m_fpsControl r).

Definition set_m_paused (v : bool) (r : Element) : Element :=
  mkElement (state r) (inputCaps r) (codec r) (bitrate r) (gop r) (fillGaps
    r) (converter_outputCaps r) (m_outputCaps r) (m_headers r) (m_codecs r)
    (m_codec r) (m_mediaFormat r) (m_id r) (m_index r) (m_initialized r) v
    (m_encodedTimePts r) (m_fpsControl r).

Definition set_m_encodedTimePts (v : Z) (r : Element) : Element :=
  mkElement (state r) (inputCaps r) (codec r) (bitrate r) (gop r) (fillGaps
    r) (converter_outputCaps r) (m_outputCaps r) (m_headers r) (m_codecs r)
    (m_codec r) (m_mediaFormat r) (m_id r) (m_index r) (m_initialized r)
    (m_paused r) v (m_fpsControl r).

Definition set_m_fpsControl (v : bool) (r : Element) : Element :=
  mkElement (state r) (inputCaps r) (codec r) (bitrate r) (gop r) (fillGaps
    r) (converter_outputCaps r) (m_outputCaps r) (m_headers r) (m_codecs r)
    (m_codec r) (m_mediaFormat r) (m_id r) (m_index r) (m_initialized r)
    (m_paused r) (m_encodedTimePts r) v.

(** ** The state monad of the element's methods *)

Record Sys : Type := mkSys { elem : Element; world : World }.

Definition M (A : Type) : Type := State.State Sys A.

#[local] Open Scope state_scope.

Definition this {A : Type} (f : Element -> A) : M A := fun s => (f (elem s), s).

Definition assign (f : Element -> Element) : M unit :=
  fun s => (tt, mkSys (f (elem s)) (world s)).

Definition outside {A : Type} (f : World -> A) : M A := fun s => (f (world s), s).

Definition effect (f : World -> World) : M unit :=
  fun s => (tt, mkSys (elem s) (f (world s))).

Definition emit (sg : Signal) : M unit := effect (emit_signal sg).

(** Next answer of a scripted collaborator. *)
Definition answer {A : Type} (field : Script -> list A)
    (rest : list A -> Script -> Script) (default : A) : M A :=
  fun s =>
    match field (script (world s)) with
    | [] => (default, s)
    | a :: l =>
        (a, mkSys (elem s) (set_script (rest l (script (world s))) (world s)))
    end.

(** ** The codec provider *)

Definition AMediaCodec_createEncoderByType (mime : string) : M (option nat) :=
  effect (log (createEncoderByType mime)) ;;
  found <- answer will_create set_will_create false ;;
  if found
  then h <- outside next_handle ;;
       effect (fun w => set_live (h :: live w) (set_next_handle (S h) w)) ;;
       ret (Some h)
  else ret None.

Definition AMediaCodec_delete (c : option nat) : M unit :=
  effect (log (delete c)) ;;
  effect (fun w => set_running (remove_handle c (running w))
                     (set_live (remove_handle c (live w)) w)).

(** [AMediaFormat_new]: the address of the new object. *)
Definition AMediaFormat_new : M nat :=
  h <- outside next_handle ;;
  effect (set_next_handle (S h)) ;;
  ret h.

Definition AMediaCodec_configure (c : option nat)
    (fmt : MediaFormat.AMediaFormat) (fl : Z) : M Z :=
  effect (log (configure c fmt fl)) ;;
  answer will_configure set_will_configure AMEDIA_ERROR_UNKNOWN.

Definition AMediaCodec_start (c : option nat) : M Z :=
  effect (log (start c)) ;;
  result <- answer will_start set_will_start AMEDIA_ERROR_UNKNOWN ;;
  when (result =? AMEDIA_OK)
       (effect (fun w => set_running (add_handle c (running w)) w)) ;;
  ret result.

Definition AMediaCodec_stop (c : option nat) : M unit :=
  effect (log (stop c)) ;;
  effect (fun w => set_running (remove_handle c (running w)) w).

(** The index of the buffer, negative for none, with the size that
    [AMediaCodec_getInputBuffer] reports for it. *)
Definition AMediaCodec_dequeueInputBuffer (c : option nat) (timeout : Z)
    : M (Z * Z) :=
  effect (log (dequeueInputBuffer c timeout)) ;;
  answer will_dequeue_input set_will_dequeue_input
         (AMEDIACODEC_INFO_TRY_AGAIN_LATER, 0).

Definition AMediaCodec_getInputBuffer (c : option nat) (idx : Z) : M unit :=
  effect (log (getInputBuffer c idx)).

Definition AMediaCodec_queueInputBuffer (c : option nat)
    (idx offset size time fl : Z) : M unit :=
  effect (log (queueInputBuffer c idx offset size time fl)).

(** The index, negative for none, the buffer information and the bytes
    that [AMediaCodec_getOutputBuffer] gives for that index. *)
Definition AMediaCodec_dequeueOutputBuffer (c : option nat) (timeout : Z)
    : M (Z * AMediaCodecBufferInfo * list Byte.byte) :=
  effect (log (dequeueOutputBuffer c timeout)) ;;
  answer will_dequeue_output set_will_dequeue_output
         (AMEDIACODEC_INFO_TRY_AGAIN_LATER, mkInfo 0 0 0 0, []).

Definition AMediaCodec_getOutputBuffer (c : option nat) (idx : Z) : M unit :=
  effect (log (getOutputBuffer c idx)).

Definition AMediaCodec_releaseOutputBuffer (c : option nat) (idx : Z)
    (render : bool) : M unit :=
  effect (log (releaseOutputBuffer c idx render)).

(** Number of answers the provider still holds for the output queue. *)
Definition pending_outputs : M nat :=
  outside (fun w => List.length (will_dequeue_output (script w))).

(** ** [isAvailable] and its function-local static cache *)

(** [toStdString().c_str()]: the bytes before the first NUL. *)
Fixpoint c_str (s : string) : string :=
  match s with
  | EmptyString => EmptyString
  | String c r =>
      if Ascii.eqb c Ascii.zero then EmptyString else String c (c_str r)
  end.

Fixpoint take (n : nat) (s : string) : string :=
  match n, s with
  | S n', String c r => String c (take n' r)
  | _, _ => EmptyString
  end.

(** [qstrncpy(dst, src, len)]: at most [len - 1] bytes, then a terminator. *)
Definition qstrncpy (src : string) (len : nat) : string :=
  take (len - 1) (c_str src).

(** The scan [for (i = 0; i < size; ++i) if (cache[i].mimeType == mimeType)]. *)
Fixpoint cached (mimeType : string) (cache : list (string * bool))
    : option bool :=
  match cache with
  | [] => None
  | (key, isAvailable) :: rest =>
      if String.eqb key mimeType then Some isAvailable
      else cached mimeType rest
  end.

Definition CACHE_SLOTS : nat := 32.
Definition CACHE_KEY_BYTES : nat := 1024.

(** The write to slot [size++]; a write past the last slot is recorded in
    [overrun] and stores nothing. *)
Definition remember (mimeType : string) (isAvailable : bool) : M unit :=
  effect (fun w =>
    if (List.length (availableCodecs w) <? CACHE_SLOTS)%nat
    then set_availableCodecs
           (availableCodecs w ++ [(qstrncpy mimeType CACHE_KEY_BYTES, isAvailable)])
           w
    else set_overrun true w).

Definition isAvailable (mimeType : string) : M bool :=
  cache <- outside availableCodecs ;;
  match cached mimeType cache with
  | Some isAvailable => ret isAvailable
  | None =>
      c <- AMediaCodec_createEncoderByType (c_str mimeType) ;;
      isAvailable <-
        match c with
        | Some _ => AMediaCodec_delete c ;; ret true
        | None => ret false
        end ;;
      remember mimeType isAvailable ;;
      ret isAvailable
  end.

Fixpoint listCodecs_from (table : list NDKMediaCodecs.NDKMediaCodec) : M unit :=
  match table with
  | [] => ret tt
  | c :: rest =>
      ok <- isAvailable (NDKMediaCodecs.mimeType c) ;;
      when ok
        (assign (fun d =>
           set_m_codecs
             (m_codecs d ++
              [mkCodecInfo (NDKMediaCodecs.name c)
                           (NDKMediaCodecs.description c)
                           (NDKMediaCodecs.codecID c)
                           (NDKMediaCodecs.mimeType c)
                           PixelFormatsTable.formats]) d)) ;;
      listCodecs_from rest
  end.

Definition listCodecs : M unit := listCodecs_from NDKMediaCodecs.table.

(** ** Output capabilities and headers *)

Definition find_codec (d : Element) : option CodecInfo :=
  find (fun ci => String.eqb (ci_name ci) (codec d)) (m_codecs d).

(** [VideoEncoderNDKMediaElement::codecID]. *)
Definition codecID (d : Element) : NDKMediaCodecs.AkVideoEncoderCodecID :=
  match find_codec d with
  | Some ci => ci_codecID ci
  | None => NDKMediaCodecs.VideoCodecID_unknown
  end.

Definition clear_outputCaps : M unit :=
  cur <- this m_outputCaps ;;
  if negb (AkCompressedVideoCaps_valid cur) then ret tt
  else assign (set_m_outputCaps no_caps) ;; emit (outputCapsChanged no_caps).

Definition updateOutputCaps : M unit :=
  d <- this (fun d => d) ;;
  if negb (AkVideoCaps_valid (inputCaps d)) then clear_outputCaps
  else if NDKMediaCodecs.codecID_eqb (codecID d)
            NDKMediaCodecs.VideoCodecID_unknown then clear_outputCaps
  else
    match find_codec d with
    | None => clear_outputCaps
    | Some it =>
        let fmt :=
          if existsb (PixelFormat_eqb (format (inputCaps d))) (ci_formats it)
          then format (inputCaps d)
          else hd Format_none (ci_formats it) in
        let rate :=
          if AkFrac_valid (fps (inputCaps d)) then fps (inputCaps d)
          else mkFrac 30 1 in
        let raw :=
          mkVideoCaps fmt (width (inputCaps d)) (height (inputCaps d)) rate in
        assign (set_converter_outputCaps raw) ;;
        let outputCaps := mkCompressedCaps (codecID d) raw (bitrate d) in
        if AkCompressedVideoCaps_eqb (m_outputCaps d) outputCaps then ret tt
        else assign (set_m_outputCaps outputCaps) ;;
             emit (outputCapsChanged outputCaps)
    end.

Definition updateHeaders : M unit :=
  fmt <- this m_mediaFormat ;;
  let headers := option_map fst fmt in
  cur <- this m_headers ;;
  let same :=
    match cur, headers with
    | Some a, Some b => Nat.eqb a b
    | None, None => true
    | _, _ => false
    end in
  if same then ret tt
  else assign (set_m_headers headers) ;; emit (headersChanged headers).

(** ** [sendFrame] *)

Definition sendFrame (data : list Byte.byte) (info : AMediaCodecBufferInfo)
    : M unit :=
  d <- this (fun d => d) ;;
  let rate := fps (rawCaps (m_outputCaps d)) in
  let pts :=
    Double.qRound64
      (Double.of_Z (presentationTimeUs info) * Double.value rate / 1e6)%float in
  emit (oStream
          (mkCompressedPacket
             (m_outputCaps d)
             (firstn (Z.to_nat (size info)) data)
             (if Z.land (flags info) 1 =? 0
              then VideoPacketTypeFlag_None
              else VideoPacketTypeFlag_KeyFrame)
             pts pts 1 (invert rate) (m_id d) (m_index d) info)).

(** ** [uninit] *)

(** The loop [while (!eos)]. Each turn takes one answer from the output
    queue, so one turn more than the number of answers left is enough. *)
Fixpoint uninit_drain (turns : nat) (c : option nat) : M unit :=
  match turns with
  | O => ret tt
  | S turns' =>
      out <- AMediaCodec_dequeueOutputBuffer c PROCESSING_TIMEOUT ;;
      let '(bufferIndex, info, data) := out in
      if bufferIndex <? 0 then ret tt
      else if negb (Z.land (flags info) AMEDIACODEC_BUFFER_FLAG_CODEC_CONFIG =? 0)
      then uninit_drain turns' c
      else
        AMediaCodec_getOutputBuffer c bufferIndex ;;
        sendFrame data info ;;
        AMediaCodec_releaseOutputBuffer c bufferIndex (0 <? size info) ;;
        if negb (Z.land (flags info) AMEDIACODEC_BUFFER_FLAG_END_OF_STREAM =? 0)
        then ret tt
        else uninit_drain turns' c
  end.

Definition uninit : M unit :=
  initialized <- this m_initialized ;;
  if negb initialized then ret tt
  else
    assign (set_m_initialized false) ;;
    c <- this m_codec ;;
    match c with
    | Some _ =>
        slot <- AMediaCodec_dequeueInputBuffer c PROCESSING_TIMEOUT ;;
        when (0 <=? fst slot)
          (AMediaCodec_queueInputBuffer c (fst slot) 0 0 0
             AMEDIACODEC_BUFFER_FLAG_END_OF_STREAM) ;;
        n <- pending_outputs ;;
        uninit_drain (S n) c ;;
        AMediaCodec_stop c
    | None => ret tt
    end ;;
    assign (set_m_mediaFormat None) ;;
    match c with
    | Some _ => AMediaCodec_delete c ;; assign (set_m_codec None)
    | None => ret tt
    end ;;
    assign (set_m_paused false).

(** ** [init] *)

(** The row stride stored under [AMEDIAFORMAT_KEY_STRIDE]; the product is
    computed in [size_t]. *)
Definition stride_of (c : AkVideoCaps) : Z :=
  let bits := PixelFormatsTable.plane0_bitsSize (format c) in
  if negb (Z.land (width c) 1 =? 0)
  then Int.to_size_t (bits * Int.to_size_t (width c + 1)) / 8
  else Int.to_size_t (bits * Int.to_size_t (width c)) / 8.

(** The value stored under [AMEDIAFORMAT_KEY_I_FRAME_INTERVAL]:
    [int gop = qMax(self->gop() * fps.num() / (1000 * fps.den()), 1)]. The
    two products and the quotient are computed in [qint64], the quotient
    truncated toward zero; the result is narrowed to [int]. *)
Definition keyFrameInterval (gopMillis : Z) (rate : AkFrac) : Z :=
  Int.to_int32
    (Int.qMax
       (Z.quot (Int.to_int64 (gopMillis * num rate))
               (Int.to_int64 (1000 * den rate)))
       1).

Definition init : M bool :=
  uninit ;;
  caps <- this inputCaps ;;
  if negb (AkVideoCaps_valid caps) then ret false
  else
    name <- this codec ;;
    let mimeType := NDKMediaCodecs.mimeType (NDKMediaCodecs.byName name) in
    if String.eqb mimeType "" then ret false
    else
      c <- AMediaCodec_createEncoderByType mimeType ;;
      assign (set_m_codec c) ;;
      match c with
      | None => ret false
      | Some _ =>
          address <- AMediaFormat_new ;;
          d <- this (fun d => d) ;;
          let oc := converter_outputCaps d in
          let fmt :=
            MediaFormat.mkFormat
              mimeType
              (bitrate d)
              "und"
              (PixelFormatsTable.ndkFormat
                 (PixelFormatsTable.byFormat (format oc)))
              (width oc)
              (height oc)
              (fps oc)
              (Int.to_int32 (stride_of oc))
              (height oc)
              (keyFrameInterval (gop d) (fps oc))
              BITRATE_MODE_CBR in
          assign (set_m_mediaFormat (Some (address, fmt))) ;;
          result <- AMediaCodec_configure c fmt AMEDIACODEC_CONFIGURE_FLAG_ENCODE ;;
          if negb (result =? AMEDIA_OK) then ret false
          else
            result <- AMediaCodec_start c ;;
            if negb (result =? AMEDIA_OK) then ret false
            else
              updateHeaders ;;
              assign (set_m_encodedTimePts 0) ;;
              assign (set_m_initialized true) ;;
              ret true
      end.

(** ** [encodeFrame] *)

(** The loop [forever]; see [uninit_drain] for the bound on the turns. *)
Fixpoint encode_drain (turns : nat) (c : option nat) : M unit :=
  match turns with
  | O => ret tt
  | S turns' =>
      out <- AMediaCodec_dequeueOutputBuffer c PROCESSING_TIMEOUT ;;
      let '(bufferIndex, info, data) := out in
      if bufferIndex <? 0 then ret tt
      else if negb (Z.land (flags info) AMEDIACODEC_BUFFER_FLAG_CODEC_CONFIG =? 0)
      then encode_drain turns' c
      else
        AMediaCodec_getOutputBuffer c bufferIndex ;;
        sendFrame data info ;;
        AMediaCodec_releaseOutputBuffer c bufferIndex (0 <? size info) ;;
        encode_drain turns' c
  end.

(** [uint64_t presentationTimeUs = qRound64(1e6 * src.pts() * timeBase.value())]. *)
Definition presentationTimeUs_of (src : AkVideoPacket) : Z :=
  Int.to_size_t
    (Double.qRound64
       (1e6 * Double.of_Z (pts src) * Double.value (timeBase src))%float).

Definition encodeFrame (src : AkVideoPacket) : M unit :=
  assign (set_m_id (id src)) ;;
  assign (set_m_index (index src)) ;;
  c <- this m_codec ;;
  slot <- AMediaCodec_dequeueInputBuffer c PROCESSING_TIMEOUT ;;
  let '(bufferIndex, bufferSize) := slot in
  when (0 <=? bufferIndex)
    (AMediaCodec_getInputBuffer c bufferIndex ;;
     fmt <- this m_mediaFormat ;;
     effect (log (fillInputBuffer bufferIndex
                    (FrameWriter.copies
                       (FrameWriter.writeFrame (option_map snd fmt) src)))) ;;
     AMediaCodec_queueInputBuffer c bufferIndex 0 bufferSize
       (presentationTimeUs_of src) 0) ;;
  n <- pending_outputs ;;
  encode_drain (S n) c ;;
  assign (set_m_encodedTimePts (pts src + duration src)) ;;
  t <- this m_encodedTimePts ;;
  emit (encodedTimePtsChanged t).

(** ** [iVideoStream] *)

Fixpoint encodeFrames (out : list AkVideoPacket) : M unit :=
  match out with
  | [] => ret tt
  | packet :: rest => encodeFrame packet ;; encodeFrames rest
  end.

(** [m_fpsControl->iStream(src)]: every packet the frame-rate control
    sends on its [oStream] goes to [encodeFrame]. *)
Definition fpsControl_iStream (src : AkVideoPacket) : M unit :=
  out <- answer will_forward set_will_forward [src] ;;
  encodeFrames out.

Definition iVideoStream (packet : AkVideoPacket) : M unit :=
  d <- this (fun d => d) ;;
  if m_paused d || negb (m_initialized d) || negb (m_fpsControl d) then ret tt
  else
    discard <- answer will_discard set_will_discard false ;;
    if discard then ret tt
    else
      src <- answer will_convert set_will_convert (Some packet) ;;
      match src with
      | None => ret tt
      | Some src => fpsControl_iStream src
      end.

(** ** [setState] *)

(** [AkElement::setState] of the base class. *)
Definition AkElement_setState (st : ElementState) : M bool :=
  cur <- this state ;;
  if ElementState_eqb cur st then ret false
  else assign (set_state st) ;; emit (stateChanged st) ;; ret true.

Definition start_or_fail (st : ElementState) : M bool :=
  ok <- init ;;
  if negb ok then assign (set_m_paused false) ;; ret false
  else AkElement_setState st.

Definition setState (st : ElementState) : M bool :=
  curState <- this state ;;
  match curState, st with
  | ElementStateNull, ElementStatePaused =>
      assign (set_m_paused true) ;; start_or_fail st
  | ElementStateNull, ElementStatePlaying => start_or_fail st
  | ElementStatePaused, ElementStateNull => uninit ;; AkElement_setState st
  | ElementStatePaused, ElementStatePlaying =>
      assign (set_m_paused false) ;; AkElement_setState st
  | ElementStatePlaying, ElementStateNull => uninit ;; AkElement_setState st
  | ElementStatePlaying, ElementStatePaused =>
      assign (set_m_paused true) ;; AkElement_setState st
  | _, _ => ret false
  end.

(** ** The setters of the base class and the constructor *)

Definition setInputCaps (c : AkVideoCaps) : M unit :=
  cur <- this inputCaps ;;
  if AkVideoCaps_eqb cur c then ret tt
  else assign (set_inputCaps c) ;; updateOutputCaps.

Definition setCodec (name : string) : M unit := assign (set_codec name).
Definition setBitrate (b : Z) : M unit := assign (set_bitrate b).
Definition setGop (g : Z) : M unit := assign (set_gop g).
Definition setFillGaps (f : bool) : M unit := assign (set_fillGaps f).

(** The members as their initialisers leave them; the defaults of the
    base-class properties and the presence of the frame-rate control are
    arguments. *)
Definition members (bitrate gop : Z) (fillGaps fpsControl : bool) : Element :=
  mkElement ElementStateNull no_video_caps "" bitrate gop fillGaps
            no_video_caps no_caps None [] None None 0 0 false false 0 fpsControl.

(** [VideoEncoderNDKMediaElement::VideoEncoderNDKMediaElement]. *)
Definition construct : M unit :=
  listCodecs ;;
  setCodec (hd "" NDKMediaCodecs.codecs).

(** ** Sessions: what a client can do with the element *)

Inductive Op : Type :=
| OpSetState (st : ElementState)
| OpIVideoStream (packet : AkVideoPacket)
| OpSetInputCaps (c : AkVideoCaps)
| OpSetCodec (name : string)
| OpSetBitrate (b : Z)
| OpSetGop (g : Z)
| OpSetFillGaps (f : bool).

Definition step (op : Op) (s : Sys) : Sys :=
  match op with
  | OpSetState st => snd (setState st s)
  | OpIVideoStream packet => snd (iVideoStream packet s)
  | OpSetInputCaps c => snd (setInputCaps c s)
  | OpSetCodec name => snd (setCodec name s)
  | OpSetBitrate b => snd (setBitrate b s)
  | OpSetGop g => snd (setGop g s)
  | OpSetFillGaps f => snd (setFillGaps f s)
  end.

Definition run (ops : list Op) (s : Sys) : Sys :=
  fold_left (fun acc op => step op acc) ops s.

(** A new element in a world where nothing happened yet. *)
Definition new_session (sc : Script) (bitrate gop : Z)
    (fillGaps fpsControl : bool) : Sys :=
  snd (construct (mkSys (members bitrate gop fillGaps fpsControl) (boot sc))).

End Encoder.

(* ===================================================================== *)
(** * RecordingOrchestrator: [Recording] and [RecordingPrivate] *)
(* ===================================================================== *)

Module Recording.

Import Ak State.

Definition DEFAULT_AUDIO_BITRATE : Z := 128000.
Definition DEFAULT_VIDEO_BITRATE : Z := 1500000.
Definition DEFAULT_VIDEO_GOP : Z := 1000.
Definition DEFAULT_RECORD_AUDIO : bool := true.

(** [AkAudioCaps] and the compressed capabilities the muxer is given. *)
Record AkAudioCaps : Type := mkAudioCaps {
  sample_format : Z;
  channels : Z;
  rate : Z
}.

Record AkCompressedAudioCaps : Type := mkCompressedAudioCaps {
  audio_codec : Z;
  audio_rawCaps : AkAudioCaps;
  audio_bitrate : Z
}.

Inductive AkCompressedCaps : Type :=
| CompressedVideo (c : Hw.AkCompressedVideoCaps)
| CompressedAudio (c : AkCompressedAudioCaps).

(** The plug-in interfaces the orchestrator drives. A method that changes
    the plug-in returns its new value. *)
Class AkVideoEncoder (VE : Type) : Type := {
  venc_setInputCaps : AkVideoCaps -> VE -> VE;
  venc_setBitrate : Z -> VE -> VE;
  venc_setGop : Z -> VE -> VE;
  venc_setFillGaps : bool -> VE -> VE;
  venc_link : VE -> VE;
  venc_setState : ElementState -> VE -> VE;
  venc_outputCaps : VE -> Hw.AkCompressedVideoCaps;
  venc_bitrate : VE -> Z;
  venc_headers : VE -> list Byte.byte;
  venc_encodedTimePts : VE -> Z
}.

Class AkAudioEncoder (AE : Type) : Type := {
  aenc_setInputCaps : AkAudioCaps -> AE -> AE;
  aenc_setBitrate : Z -> AE -> AE;
  aenc_setFillGaps : bool -> AE -> AE;
  aenc_link : AE -> AE;
  aenc_setState : ElementState -> AE -> AE;
  aenc_outputCaps : AE -> AkCompressedAudioCaps;
  aenc_bitrate : AE -> Z;
  aenc_headers : AE -> list Byte.byte;
  aenc_encodedTimePts : AE -> Z
}.

Class AkVideoMuxer (Mx : Type) : Type := {
  mux_muxer : Mx -> string;
  mux_extension : string -> Mx -> string;
  mux_gapsAllowed : CapsType -> Mx -> bool;
  mux_location : Mx -> string;
  mux_setLocation : string -> Mx -> Mx;
  mux_setStreamCaps : AkCompressedCaps -> Mx -> Mx;
  mux_setStreamBitrate : CapsType -> Z -> Mx -> Mx;
  mux_setStreamHeaders : CapsType -> list Byte.byte -> Mx -> Mx;
  mux_setStreamDuration : CapsType -> Z -> Mx -> Mx;
  mux_setState : ElementState -> Mx -> Mx
}.

(** What the orchestrator does to the outside, in program order: the calls
    that change a plug-in, the signals, the writes to the settings store,
    the directory creation, the thumbnail request and the duration line of
    the log (total, audio and video time in seconds). *)
Inductive Event : Type :=
| VideoEncoder_setInputCaps (c : AkVideoCaps)
| VideoEncoder_setBitrate (b : Z)
| VideoEncoder_setGop (g : Z)
| VideoEncoder_setFillGaps (f : bool)
| VideoEncoder_link
| VideoEncoder_setState (st : ElementState)
| AudioEncoder_setInputCaps (c : AkAudioCaps)
| AudioEncoder_setBitrate (b : Z)
| AudioEncoder_setFillGaps (f : bool)
| AudioEncoder_link
| AudioEncoder_setState (st : ElementState)
| Muxer_setLocation (location : string)
| Muxer_setStreamCaps (c : AkCompressedCaps)
| Muxer_setStreamBitrate (t : CapsType) (b : Z)
| Muxer_setStreamHeaders (t : CapsType) (h : list Byte.byte)
| Muxer_setStreamDuration (t : CapsType) (d : Z)
| Muxer_setState (st : ElementState)
| QDir_mkpath (dir : string)
| stateChanged (st : ElementState)
| bitrateChanged (t : CapsType) (b : Z)
| lastVideoChanged (location : string)
| saveBitrate (t : CapsType) (b : Z)
| readThumbnail (location : string)
| qInfo_duration (total audioTime videoTime : float).

(** The process environment: whether [QDir().mkpath] succeeds, and the
    formatted current time. *)
Record Env : Type := mkEnv {
  mkpath : string -> bool;
  currentTime : string
}.

Section Orchestrator.

Context {Mx AE VE : Type}.
Context {MUX : AkVideoMuxer Mx} {AENC : AkAudioEncoder AE} {VENC : AkVideoEncoder VE}.

(** The members of [RecordingPrivate] that the life cycle and the bitrate
    setter read or write, with the trace of events; [fault] records a call
    through a null [m_muxer]. *)
Record RecordingPrivate : Type := mkRecording {
  m_audioCaps : AkAudioCaps;
  m_videoCaps : AkVideoCaps;
  m_audioBitrate : Z;
  m_videoBitrate : Z;
  m_videoGOP : Z;
  m_muxer : option Mx;
  m_audioEncoder : option AE;
  m_videoEncoder : option VE;
  m_videoDirectory : string;
  m_lastVideo : string;
  m_state : ElementState;
  m_recordAudio : bool;
  m_isRecording : bool;
  m_pause : bool;
  env : Env;
  events : list Event;
  fault : bool
}.

Definition set_m_audioCaps (v : AkAudioCaps) (r : RecordingPrivate) : RecordingPrivate :=
  mkRecording v (m_videoCaps r) (m_audioBitrate r) (m_videoBitrate r)
    (m_videoGOP r) (m_muxer r) (m_audioEncoder r) (m_videoEncoder r)
    (m_videoDirectory r) (m_lastVideo r) (m_state r) (m_recordAudio r)
    (m_isRecording r) (m_pause r) (env r) (events r) (fault r).

Definition set_m_videoCaps (v : AkVideoCaps) (r : RecordingPrivate) : RecordingPrivate :=
  mkRecording (m_audioCaps r) v (m_audioBitrate r) (m_videoBitrate r)
    (m_videoGOP r) (m_muxer r) (m_audioEncoder r) (m_videoEncoder r)
    (m_videoDirectory r) (m_lastVideo r) (m_state r) (m_recordAudio r)
    (m_isRecording r) (m_pause r) (env r) (events r) (fault r).

Definition set_m_audioBitrate (v : Z) (r : RecordingPrivate) : RecordingPrivate :=
  mkRecording (m_audioCaps r) (m_videoCaps r) v (m_videoBitrate r)
    (m_videoGOP r) (m_muxer r) (m_audioEncoder r) (m_videoEncoder r)
    (m_videoDirectory r) (m_lastVideo r) (m_state r) (m_recordAudio r)
    (m_isRecording r) (m_pause r) (env r) (events r) (fault r).

Definition set_m_videoBitrate (v : Z) (r : RecordingPrivate) : RecordingPrivate :=
  mkRecording (m_audioCaps r) (m_videoCaps r) (m_audioBitrate r) v
    (m_videoGOP r) (m_muxer r) (m_audioEncoder r) (m_videoEncoder r)
    (m_videoDirectory r) (m_lastVideo r) (m_state r) (m_recordAudio r)
    (m_isRecording r) (m_pause r) (env r) (events r) (fault r).

Definition set_m_videoGOP (v : Z) (r : RecordingPrivate) : RecordingPrivate :=
  mkRecording (m_audioCaps r) (m_videoCaps r) (m_audioBitrate r)
    (m_videoBitrate r) v (m_muxer r) (m_audioEncoder r) (m_videoEncoder r)
    (m_videoDirectory r) (m_lastVideo r) (m_state r) (m_recordAudio r)
    (m_isRecording r) (m_pause r) (env r) (events r) (fault r).

Definition set_m_muxer (v : option Mx) (r : RecordingPrivate) : RecordingPrivate :=
  mkRecording (m_audioCaps r) (m_videoCaps r) (m_audioBitrate r)
    (m_videoBitrate r) (m_videoGOP r) v (m_audioEncoder r) (m_videoEncoder
    r) (m_videoDirectory r) (m_lastVideo r) (m_state r) (m_recordAudio r)
    (m_isRecording r) (m_pause r) (env r) (events r) (fault r).

Definition set_m_audioEncoder (v : option AE) (r : RecordingPrivate) : RecordingPrivate :=
  mkRecording (m_audioCaps r) (m_videoCaps r) (m_audioBitrate r)
    (m_videoBitrate r) (m_videoGOP r) (m_muxer r) v (m_videoEncoder r)
    (m_videoDirectory r) (m_lastVideo r) (m_state r) (m_recordAudio r)
    (m_isRecording r) (m_pause r) (env r) (events r) (fault r).

Definition set_m_videoEncoder (v : option VE) (r : RecordingPrivate) : RecordingPrivate :=
  mkRecording (m_audioCaps r) (m_videoCaps r) (m_audioBitrate r)
    (m_videoBitrate r) (m_videoGOP r) (m_muxer r) (m_audioEncoder r) v
    (m_videoDirectory r) (m_lastVideo r) (m_state r) (m_recordAudio r)
    (m_isRecording r) (m_pause r) (env r) (events r) (fault r).

Definition set_m_videoDirectory (v : string) (r : RecordingPrivate) : RecordingPrivate :=
  mkRecording (m_audioCaps r) (m_videoCaps r) (m_audioBitrate r)
    (m_videoBitrate r) (m_videoGOP r) (m_muxer r) (m_audioEncoder r)
    (m_videoEncoder r) v (m_lastVideo r) (m_state r) (m_recordAudio r)
    (m_isRecording r) (m_pause r) (env r) (events r) (fault r).

Definition set_m_lastVideo (v : string) (r : RecordingPrivate) : RecordingPrivate :=
  mkRecording (m_audioCaps r) (m_videoCaps r) (m_audioBitrate r)
    (m_videoBitrate r) (m_videoGOP r) (m_muxer r) (m_audioEncoder r)
    (m_videoEncoder r) (m_videoDirectory r) v (m_state r) (m_recordAudio r)
    (m_isRecording r) (m_pause r) (env r) (events r) (fault r).

Definition set_m_state (v : ElementState) (r : RecordingPrivate) : RecordingPrivate :=
  mkRecording (m_audioCaps r) (m_videoCaps r) (m_audioBitrate r)
    (m_videoBitrate r) (m_videoGOP r) (m_muxer r) (m_audioEncoder r)
    (m_videoEncoder r) (m_videoDirectory r) (m_lastVideo r) v (m_recordAudio
    r) (m_isRecording r) (m_pause r) (env r) (events r) (fault r).

Definition set_m_recordAudio (v : bool) (r : RecordingPrivate) : RecordingPrivate :=
  mkRecording (m_audioCaps r) (m_videoCaps r) (m_audioBitrate r)
    (m_videoBitrate r) (m_videoGOP r) (m_muxer r) (m_audioEncoder r)
    (m_videoEncoder r) (m_videoDirectory r) (m_lastVideo r) (m_state r) v
    (m_isRecording r) (m_pause r) (env r) (events r) (fault r).

Definition set_m_isRecording (v : bool) (r : RecordingPrivate) : RecordingPrivate :=
  mkRecording (m_audioCaps r) (m_videoCaps r) (m_audioBitrate r)
    (m_videoBitrate r) (m_videoGOP r) (m_muxer r) (m_audioEncoder r)
    (m_videoEncoder r) (m_videoDirectory r) (m_lastVideo r) (m_state r)
    (m_recordAudio r) v (m_pause r) (env r) (events r) (fault r).

Definition set_m_pause (v : bool) (r : RecordingPrivate) : RecordingPrivate :=
  mkRecording (m_audioCaps r) (m_videoCaps r) (m_audioBitrate r)
    (m_videoBitrate r) (m_videoGOP r) (m_muxer r) (m_audioEncoder r)
    (m_videoEncoder r) (m_videoDirectory r) (m_lastVideo r) (m_state r)
    (m_recordAudio r) (m_isRecording r) v (env r) (events r) (fault r).

Definition set_env (v : Env) (r : RecordingPrivate) : RecordingPrivate :=
  mkRecording (m_audioCaps r) (m_videoCaps r) (m_audioBitrate r)
    (m_videoBitrate r) (m_videoGOP r) (m_muxer r) (m_audioEncoder r)
    (m_videoEncoder r) (m_videoDirectory r) (m_lastVideo r) (m_state r)
    (m_recordAudio r) (m_isRecording r) (m_pause r) v (events r) (fault r).

Definition set_events (v : list Event) (r : RecordingPrivate) : RecordingPrivate :=
  mkRecording (m_audioCaps r) (m_videoCaps r) (m_audioBitrate r)
    (m_videoBitrate r) (m_videoGOP r) (m_muxer r) (m_audioEncoder r)
    (m_videoEncoder r) (m_videoDirectory r) (m_lastVideo r) (m_state r)
    (m_recordAudio r) (m_isRecording r) (m_pause r) (env r) v (fault r).

Definition set_fault (v : bool) (r : RecordingPrivate) : RecordingPrivate :=
  mkRecording (m_audioCaps r) (m_videoCaps r) (m_audioBitrate r)
    (m_videoBitrate r) (m_videoGOP r) (m_muxer r) (m_audioEncoder r)
    (m_videoEncoder r) (m_videoDirectory r) (m_lastVideo r) (m_state r)
    (m_recordAudio r) (m_isRecording r) (m_pause r) (env r) (events r) v.

Definition R (A : Type) : Type := State.State RecordingPrivate A.

#[local] Open Scope state_scope.

Definition this {A : Type} (f : RecordingPrivate -> A) : R A :=
  fun r => (f r, r).

Definition assign (f : RecordingPrivate -> RecordingPrivate) : R unit :=
  fun r => (tt, f r).

Definition emit (e : Event) : R unit :=
  assign (fun r => set_events (events r ++ [e]) r).

(** A call that changes the muxer; nothing happens without a muxer. *)
Definition on_muxer (e : Event) (f : Mx -> Mx) : R unit :=
  emit e ;; assign (fun r => set_m_muxer (option_map f (m_muxer r)) r).

Definition on_video (e : Event) (f : VE -> VE) : R unit :=
  emit e ;;
  assign (fun r => set_m_videoEncoder (option_map f (m_videoEncoder r)) r).

Definition on_audio (e : Event) (f : AE -> AE) : R unit :=
  emit e ;;
  assign (fun r => set_m_audioEncoder (option_map f (m_audioEncoder r)) r).

(** Reading a property of a plug-in; the default stands for a null
    pointer and is not reached where the source has tested the pointer. *)
Definition ask_muxer {A : Type} (f : Mx -> A) (default : A) : R A :=
  this (fun r => match m_muxer r with Some m => f m | None => default end).

Definition ask_video {A : Type} (f : VE -> A) (default : A) : R A :=
  this (fun r => match m_videoEncoder r with Some e => f e | None => default end).

Definition ask_audio {A : Type} (f : AE -> A) (default : A) : R A :=
  this (fun r => match m_audioEncoder r with Some e => f e | None => default end).

(** ** [RecordingPrivate::init] *)

(** The block [if (this->m_audioEncoder) { ... }] of [init]. *)
Definition init_audio : R unit :=
  audioCaps <- this m_audioCaps ;;
  on_audio (AudioEncoder_setInputCaps audioCaps) (aenc_setInputCaps audioCaps) ;;
  audioBitrate <- this m_audioBitrate ;;
  on_audio (AudioEncoder_setBitrate audioBitrate) (aenc_setBitrate audioBitrate) ;;
  gaps <- ask_muxer (mux_gapsAllowed CapsAudio) false ;;
  on_audio (AudioEncoder_setFillGaps (negb gaps)) (aenc_setFillGaps (negb gaps)) ;;
  caps <- ask_audio aenc_outputCaps
            (mkCompressedAudioCaps 0 (mkAudioCaps 0 0 0) 0) ;;
  on_muxer (Muxer_setStreamCaps (CompressedAudio caps))
           (mux_setStreamCaps (CompressedAudio caps)) ;;
  b <- ask_audio aenc_bitrate 0 ;;
  on_muxer (Muxer_setStreamBitrate CapsAudio b)
           (mux_setStreamBitrate CapsAudio b) ;;
  on_audio AudioEncoder_link aenc_link ;;
  on_audio (AudioEncoder_setState ElementStatePaused)
           (aenc_setState ElementStatePaused) ;;
  h <- ask_audio aenc_headers [] ;;
  on_muxer (Muxer_setStreamHeaders CapsAudio h)
           (mux_setStreamHeaders CapsAudio h).

(** The part of [init] that runs once the muxer and the video encoder are
    known to exist. *)
Definition init_pipeline : R unit :=
  dir <- this m_videoDirectory ;;
  now <- this (fun r => currentTime (env r)) ;;
  ext <- ask_muxer (fun m => mux_extension (mux_muxer m) m) "" ;;
  let location := (dir ++ "/Video " ++ now ++ "." ++ ext)%string in
  on_muxer (Muxer_setLocation location) (mux_setLocation location) ;;
  videoCaps <- this m_videoCaps ;;
  on_video (VideoEncoder_setInputCaps videoCaps) (venc_setInputCaps videoCaps) ;;
  videoBitrate <- this m_videoBitrate ;;
  on_video (VideoEncoder_setBitrate videoBitrate) (venc_setBitrate videoBitrate) ;;
  videoGOP <- this m_videoGOP ;;
  on_video (VideoEncoder_setGop videoGOP) (venc_setGop videoGOP) ;;
  gaps <- ask_muxer (mux_gapsAllowed CapsVideo) false ;;
  on_video (VideoEncoder_setFillGaps (negb gaps)) (venc_setFillGaps (negb gaps)) ;;
  caps <- ask_video venc_outputCaps Hw.no_caps ;;
  on_muxer (Muxer_setStreamCaps (CompressedVideo caps))
           (mux_setStreamCaps (CompressedVideo caps)) ;;
  b <- ask_video venc_bitrate 0 ;;
  on_muxer (Muxer_setStreamBitrate CapsVideo b)
           (mux_setStreamBitrate CapsVideo b) ;;
  on_video VideoEncoder_link venc_link ;;
  ae <- this m_audioEncoder ;;
  when (match ae with Some _ => true | None => false end) init_audio ;;
  on_video (VideoEncoder_setState ElementStatePaused)
           (venc_setState ElementStatePaused) ;;
  h <- ask_video venc_headers [] ;;
  on_muxer (Muxer_setStreamHeaders CapsVideo h)
           (mux_setStreamHeaders CapsVideo h) ;;
  on_muxer (Muxer_setState ElementStatePlaying) (mux_setState ElementStatePlaying) ;;
  ae <- this m_audioEncoder ;;
  when (match ae with Some _ => true | None => false end)
    (on_audio (AudioEncoder_setState ElementStatePlaying)
              (aenc_setState ElementStatePlaying)) ;;
  on_video (VideoEncoder_setState ElementStatePlaying)
           (venc_setState ElementStatePlaying) ;;
  assign (set_m_isRecording true).

Definition init : R bool :=
  dir <- this m_videoDirectory ;;
  emit (QDir_mkpath dir) ;;
  made <- this (fun r => mkpath (env r) dir) ;;
  if negb made then ret false
  else
    muxer <- this m_muxer ;;
    match muxer with
    | None => ret false
    | Some _ =>
        ve <- this m_videoEncoder ;;
        match ve with
        | None => ret false
        | Some _ => init_pipeline ;; ret true
        end
    end.

(** ** [RecordingPrivate::uninit] *)

(** [qMax] on doubles. *)
Definition qMax_double (a b : float) : float :=
  if PrimFloat.ltb a b then b else a.

Definition uninit : R unit :=
  recording <- this m_isRecording ;;
  if negb recording then ret tt
  else
    assign (set_m_isRecording false) ;;
    ve <- this m_videoEncoder ;;
    when (match ve with Some _ => true | None => false end)
      (on_video (VideoEncoder_setState ElementStateNull)
                (venc_setState ElementStateNull)) ;;
    videoDuration <- ask_video venc_encodedTimePts 0 ;;
    videoTime <-
      ask_video
        (fun e => (Double.of_Z (venc_encodedTimePts e)
                   / Double.value (fps (Hw.rawCaps (venc_outputCaps e))))%float)
        0%float ;;
    ae <- this m_audioEncoder ;;
    when (match ae with Some _ => true | None => false end)
      (on_audio (AudioEncoder_setState ElementStateNull)
                (aenc_setState ElementStateNull)) ;;
    audioDuration <- ask_audio aenc_encodedTimePts 0 ;;
    audioTime <-
      ask_audio
        (fun e => (Double.of_Z (aenc_encodedTimePts e)
                   / Double.of_Z (rate (audio_rawCaps (aenc_outputCaps e))))%float)
        0%float ;;
    muxer <- this m_muxer ;;
    when (match muxer with Some _ => true | None => false end)
      (when (0 <? audioDuration)
         (on_muxer (Muxer_setStreamDuration CapsAudio audioDuration)
                   (mux_setStreamDuration CapsAudio audioDuration)) ;;
       when (0 <? videoDuration)
         (on_muxer (Muxer_setStreamDuration CapsVideo videoDuration)
                   (mux_setStreamDuration CapsVideo videoDuration)) ;;
       on_muxer (Muxer_setState ElementStateNull) (mux_setState ElementStateNull)) ;;
    emit (qInfo_duration (qMax_double audioTime videoTime) audioTime videoTime) ;;
    muxer <- this m_muxer ;;
    match muxer with
    | None => assign (set_fault true)
    | Some muxer =>
        let location := mux_location muxer in
        lastVideo <- this m_lastVideo ;;
        if String.eqb lastVideo location then ret tt
        else
          emit (readThumbnail location) ;;
          assign (set_m_lastVideo location) ;;
          emit (lastVideoChanged location)
    end.

(** ** [Recording::setState] *)

Definition enter (st : ElementState) : R bool :=
  assign (set_m_state st) ;; emit (stateChanged st) ;; ret true.

Definition setState (st : ElementState) : R bool :=
  cur <- this m_state ;;
  match cur, st with
  | ElementStateNull, ElementStatePaused =>
      assign (set_m_pause true) ;; enter st
  | ElementStateNull, ElementStatePlaying =>
      ok <- init ;;
      if negb ok then ret false else enter st
  | ElementStatePaused, ElementStateNull =>
      uninit ;; assign (set_m_pause false) ;; enter st
  | ElementStatePaused, ElementStatePlaying =>
      assign (set_m_pause false) ;; enter st
  | ElementStatePlaying, ElementStateNull =>
      uninit ;; assign (set_m_pause false) ;; enter st
  | ElementStatePlaying, ElementStatePaused =>
      assign (set_m_pause true) ;; enter st
  | _, _ => ret false
  end.

(** ** [Recording::setBitrate] and [Recording::bitrate] *)

Definition setBitrate (t : CapsType) (bitrate : Z) : R unit :=
  match t with
  | CapsAudio =>
      cur <- this m_audioBitrate ;;
      if cur =? bitrate then ret tt
      else
        assign (set_m_audioBitrate bitrate) ;;
        emit (bitrateChanged t bitrate) ;;
        emit (saveBitrate t bitrate)
  | CapsVideo =>
      ve <- this m_videoEncoder ;;
      match ve with
      | None => ret tt
      | Some _ =>
          cur <- this m_videoBitrate ;;
          if cur =? bitrate then ret tt
          else
            assign (set_m_videoBitrate bitrate) ;;
            emit (bitrateChanged t bitrate) ;;
            emit (saveBitrate t bitrate)
      end
  | CapsUnknown => ret tt
  end.

Definition bitrate (t : CapsType) (r : RecordingPrivate) : Z :=
  match t with
  | CapsAudio => m_audioBitrate r
  | CapsVideo => m_videoBitrate r
  | CapsUnknown => 0
  end.

End Orchestrator.

Arguments RecordingPrivate : clear implicits.
Arguments R : clear implicits.

(** ** Plug-ins that only record what they are told

    A stand-in for a codec or muxer plug-in: it keeps its properties and
    the last state, capabilities and durations it was given. *)

Record StubEncoder : Type := mkStubEncoder {
  se_state : ElementState;
  se_bitrate : Z;
  se_rate : AkFrac;
  se_sampleRate : Z;
  se_encodedTimePts : Z
}.

#[export] Instance StubVideoEncoder : AkVideoEncoder StubEncoder := {
  venc_setInputCaps c e :=
    mkStubEncoder (se_state e) (se_bitrate e) (fps c) (se_sampleRate e)
                  (se_encodedTimePts e);
  venc_setBitrate b e :=
    mkStubEncoder (se_state e) b (se_rate e) (se_sampleRate e)
                  (se_encodedTimePts e);
  venc_setGop _ e := e;
  venc_setFillGaps _ e := e;
  venc_link e := e;
  venc_setState st e :=
    mkStubEncoder st (se_bitrate e) (se_rate e) (se_sampleRate e)
                  (se_encodedTimePts e);
  venc_outputCaps e :=
    Hw.mkCompressedCaps NDKMediaCodecs.VideoCodecID_amh264
      (mkVideoCaps Format_yuv420p 640 480 (se_rate e)) (se_bitrate e);
  venc_bitrate := se_bitrate;
  venc_headers _ := [];
  venc_encodedTimePts := se_encodedTimePts
}.

#[export] Instance StubAudioEncoder : AkAudioEncoder StubEncoder := {
  aenc_setInputCaps c e :=
    mkStubEncoder (se_state e) (se_bitrate e) (se_rate e) (rate c)
                  (se_encodedTimePts e);
  aenc_setBitrate b e :=
    mkStubEncoder (se_state e) b (se_rate e) (se_sampleRate e)
                  (se_encodedTimePts e);
  aenc_setFillGaps _ e := e;
  aenc_link e := e;
  aenc_setState st e :=
    mkStubEncoder st (se_bitrate e) (se_rate e) (se_sampleRate e)
                  (se_encodedTimePts e);
  aenc_outputCaps e :=
    mkCompressedAudioCaps 0 (mkAudioCaps 0 2 (se_sampleRate e)) (se_bitrate e);
  aenc_bitrate := se_bitrate;
  aenc_headers _ := [];
  aenc_encodedTimePts := se_encodedTimePts
}.

Record StubMuxer : Type := mkStubMuxer {
  sm_state : ElementState;
  sm_location : string;
  sm_durations : list (CapsType * Z)
}.

#[export] Instance StubVideoMuxer : AkVideoMuxer StubMuxer := {
  mux_muxer _ := "mp4";
  mux_extension _ _ := "mp4";
  mux_gapsAllowed _ _ := true;
  mux_location := sm_location;
  mux_setLocation l m := mkStubMuxer (sm_state m) l (sm_durations m);
  mux_setStreamCaps _ m := m;
  mux_setStreamBitrate _ _ m := m;
  mux_setStreamHeaders _ _ m := m;
  mux_setStreamDuration t d m :=
    mkStubMuxer (sm_state m) (sm_location m) (sm_durations m ++ [(t, d)]);
  mux_setState st m := mkStubMuxer st (sm_location m) (sm_durations m)
}.

End Recording.


(* ===================================================================== *)
(** * Vocabulary of the properties *)
(* ===================================================================== *)

Module EncoderSpec.

Import State Ak Hw Encoder.

#[local] Open Scope state_scope.

(** What the life-cycle state of the element says about its members and
    about the provider: a session in [ElementStateNull] is not initialized
    and has no started codec; a paused or playing session is initialized
    and owns the one started codec. *)
Definition lifecycle (s : Sys) : Prop :=
  match state (elem s) with
  | ElementStateNull =>
      m_initialized (elem s) = false /\ m_paused (elem s) = false
      /\ running (world s) = []
  | ElementStatePaused =>
      m_initialized (elem s) = true /\ m_paused (elem s) = true
      /\ exists h, m_codec (elem s) = Some h /\ running (world s) = [h]
  | ElementStatePlaying =>
      m_initialized (elem s) = true /\ m_paused (elem s) = false
      /\ exists h, m_codec (elem s) = Some h /\ running (world s) = [h]
  end.

(** What the provider will answer to the next call of each kind. *)
Definition next_create (s : Sys) : bool :=
  hd false (will_create (script (world s))).



Definition next_input_slot (s : Sys) : Z :=
  fst (hd (AMEDIACODEC_INFO_TRY_AGAIN_LATER, 0)
          (will_dequeue_input (script (world s)))).


(** The packets sent on [oStream], oldest first. *)
Definition packets (sgs : list Signal) : list AkCompressedVideoPacket :=
  flat_map (fun sg => match sg with oStream p => [p] | _ => [] end) sgs.






(** The calls that hand frame data to the hardware. *)
Definition is_submission (c : Call) : bool :=
  match c with
  | fillInputBuffer _ _ => true
  | queueInputBuffer _ _ _ _ _ _ => true
  | _ => false
  end.

Definition submissions (s : Sys) : list Call :=
  filter is_submission (calls (world s)).

(** A series of availability queries. *)
Fixpoint queries (mimeTypes : list string) : M unit :=
  match mimeTypes with
  | [] => ret tt
  | m :: rest => isAvailable m ;; queries rest
  end.

(** The key-frame interval as the design document words it:
    [round(gopMillis * fps / 1000)], at least 1, in exact arithmetic with
    halves rounded up. *)
Definition documented_keyFrameInterval (gopMillis : Z) (rate : AkFrac) : Z :=
  Z.max
    (Qfloor (inject_Z gopMillis * (num rate # Z.to_pos (den rate)) / 1000
             + (1 # 2))%Q)
    1.

End EncoderSpec.

Module RecordingSpec.

Import Ak Recording.

Section Vocabulary.

Context {Mx AE VE : Type}.
Context {MUX : AkVideoMuxer Mx} {AENC : AkAudioEncoder AE} {VENC : AkVideoEncoder VE}.

(** The calls that reach a plug-in, as opposed to signals, settings,
    file-system requests and log lines. *)
Definition is_plugin_call (e : Event) : bool :=
  match e with
  | QDir_mkpath _ | stateChanged _ | bitrateChanged _ _ | lastVideoChanged _
  | saveBitrate _ _ | readThumbnail _ | qInfo_duration _ _ _ => false
  | _ => true
  end.

Definition plugin_calls (l : list Event) : list Event := filter is_plugin_call l.

(** The encoded time of a stream once its encoder is stopped; 0 without
    an encoder. *)
Definition final_videoDuration (r : RecordingPrivate Mx AE VE) : Z :=
  match m_videoEncoder r with
  | Some e => venc_encodedTimePts (venc_setState ElementStateNull e)
  | None => 0
  end.

Definition final_audioDuration (r : RecordingPrivate Mx AE VE) : Z :=
  match m_audioEncoder r with
  | Some e => aenc_encodedTimePts (aenc_setState ElementStateNull e)
  | None => 0
  end.

(** A duration is registered when it is positive. *)
Definition registered (t : CapsType) (d : Z) : list Event :=
  if 0 <? d then [Muxer_setStreamDuration t d] else [].

(** The stop sequence: video encoder, audio encoder, durations, muxer. *)
Definition stop_sequence (r : RecordingPrivate Mx AE VE) : list Event :=
  match m_videoEncoder r with
  | Some _ => [VideoEncoder_setState ElementStateNull]
  | None => []
  end ++
  match m_audioEncoder r with
  | Some _ => [AudioEncoder_setState ElementStateNull]
  | None => []
  end ++
  match m_muxer r with
  | Some _ =>
      registered CapsAudio (final_audioDuration r) ++
      registered CapsVideo (final_videoDuration r) ++
      [Muxer_setState ElementStateNull]
  | None => []
  end.

End Vocabulary.

(** The final duration as the design document words it: the encoded time
    divided by the rate of the stream. *)
Definition documented_duration (encodedTime : Z) (rate : AkFrac) : Q :=
  (inject_Z encodedTime / (num rate # Z.to_pos (den rate)))%Q.

End RecordingSpec.


(* ===================================================================== *)
(** * Sample inputs *)
(* ===================================================================== *)

Module Examples.

Import Ak Hw Encoder.

(** A 4x2 frame in planar 4:2:0 and the format [init] builds for it. *)
Definition yuv420p_4x2 : AkVideoPacket :=
  mkVideoPacket
    (mkVideoCaps Format_yuv420p 4 2 (mkFrac 30 1))
    [ mkPlane 4 0 0 (fun _ => [Byte.x01; Byte.x02; Byte.x03; Byte.x04]);
      mkPlane 2 1 1 (fun _ => [Byte.x05; Byte.x06]);
      mkPlane 2 1 1 (fun _ => [Byte.x07; Byte.x08]) ]
    90 3 (mkFrac 1 30) 0 0.

Definition format_4x2 : MediaFormat.AMediaFormat :=
  MediaFormat.mkFormat "video/avc" 1500000 "und"
    PixelFormatsTable.COLOR_FormatYUV420Flexible 4 2 (mkFrac 30 1)
    4 2 30 2.

Definition caps_4x2 : AkVideoCaps := mkVideoCaps Format_yuv420p 4 2 (mkFrac 30 1).

(** 640x480 at the NTSC rate of 30000/1001 frames per second. *)
Definition caps_ntsc : AkVideoCaps :=
  mkVideoCaps Format_yuv420p 640 480 (mkFrac 30000 1001).

(** A provider that has every encoder of the catalog, accepts one
    configuration and one start, has no input slot to give and holds one
    compressed key frame. *)
Definition willing : Script :=
  mkScript [true; true; true; true; true; true] [AMEDIA_OK] [AMEDIA_OK]
           []
           [(0, mkInfo 0 2 33333 1, [Byte.x00; Byte.x01])]
           [] [] [].




(** A provider that finds the first encoder it is asked for and would not
    find any on a later probe. *)
Definition fading : Script :=
  mkScript [true] [] [] [] [] [] [] [].

Definition session (sc : Script) : Sys :=
  new_session sc Recording.DEFAULT_VIDEO_BITRATE Recording.DEFAULT_VIDEO_GOP
              false true.

(** A session that was started on 4x2 frames, and the same one after a
    frame and a stop. *)
Definition playing : Sys :=
  run [OpSetInputCaps caps_4x2; OpSetState ElementStatePlaying] (session willing).

Definition stopped : list Op :=
  [OpSetInputCaps caps_4x2; OpSetState ElementStatePlaying;
   OpIVideoStream yuv420p_4x2; OpSetState ElementStateNull].

(** A session that has its input shape and was not started yet. *)
Definition shaped (sc : Script) (c : AkVideoCaps) : Sys :=
  run [OpSetInputCaps c] (session sc).

(** An orchestrator that is recording with stand-in plug-ins: 60 ticks of
    video at 30 frames per second, one second of audio at 48 kHz. *)
Definition stub_video : Recording.StubEncoder :=
  Recording.mkStubEncoder ElementStatePlaying 1500000 (mkFrac 30 1) 0 60.

Definition stub_audio : Recording.StubEncoder :=
  Recording.mkStubEncoder ElementStatePlaying 128000 (mkFrac 0 0) 48000 48000.

Definition stub_muxer : Recording.StubMuxer :=
  Recording.mkStubMuxer ElementStatePlaying "/videos/Video now.mp4" [].

Definition stub_env : Recording.Env := Recording.mkEnv (fun _ => true) "now".

Definition recording
  : Recording.RecordingPrivate Recording.StubMuxer Recording.StubEncoder
      Recording.StubEncoder :=
  Recording.mkRecording
    (Recording.mkAudioCaps 0 2 48000) caps_4x2
    Recording.DEFAULT_AUDIO_BITRATE Recording.DEFAULT_VIDEO_BITRATE
    Recording.DEFAULT_VIDEO_GOP
    (Some stub_muxer) (Some stub_audio) (Some stub_video)
    "/videos" "" ElementStatePlaying true true false stub_env [] false.

(** An orchestrator for which no format and no codec was selected. *)
Definition unconfigured
  : Recording.RecordingPrivate Recording.StubMuxer Recording.StubEncoder
      Recording.StubEncoder :=
  Recording.mkRecording
    (Recording.mkAudioCaps 0 2 48000) caps_4x2
    Recording.DEFAULT_AUDIO_BITRATE Recording.DEFAULT_VIDEO_BITRATE
    Recording.DEFAULT_VIDEO_GOP
    None None None
    "/videos" "" ElementStateNull true false false stub_env [] false.

End Examples.


(* ===================================================================== *)
(** * Vocabulary of the proofs *)
(* ===================================================================== *)

Section StateLogic.

Import State.

Context {S : Type}.

(** [wp m Q s]: [Q] holds of the result and of the final state when [m]
    runs from [s]. *)
Definition wp {A : Type} (m : State S A) (Q : A -> S -> Prop) (s : S) : Prop :=
  Q (fst (m s)) (snd (m s)).

(** [inv P m]: running [m] keeps the property [P] of the state. *)
Definition inv {A : Type} (P : S -> Prop) (m : State S A) : Prop :=
  forall s, P s -> P (snd (m s)).

(** [keeps X m]: running [m] does not change the observation [X]. *)
Definition keeps {A B : Type} (X : S -> B) (m : State S A) : Prop :=
  forall v, inv (fun s => X s = v) m.

End StateLogic.

Section EncoderObservations.

Import State Ak Hw Encoder EncoderSpec.

(** The members and handles that the life cycle depends on. *)
Definition core (s : Sys) :=
  (state (elem s), m_initialized (elem s), m_paused (elem s),
   m_codec (elem s), m_fpsControl (elem s), running (world s)).

(** The element with the started handles. *)
Definition elem_running (s : Sys) := (elem s, running (world s)).

(** A session at rest: in [ElementStateNull], not initialized, not paused,
    with no started codec. *)
Definition idle_core (s : Sys) : Prop :=
  state (elem s) = ElementStateNull /\ m_initialized (elem s) = false
  /\ m_paused (elem s) = false /\ running (world s) = [].


(** The element with the frame data handed to the hardware so far. *)
Definition elem_submissions (s : Sys) := (elem s, submissions s).

(** The availability cache was written past its last slot. *)
Definition overran (s : Sys) : Prop := overrun (world s) = true.

(** The members that [init] builds the hardware format from. *)
Definition format_members (s : Sys) :=
  (m_mediaFormat (elem s), gop (elem s), converter_outputCaps (elem s)).

End EncoderObservations.

Section OrchestratorObservations.

Import State Ak Recording.

Context {Mx AE VE : Type}.

(** A method that ends with the recording flag set, whatever the state
    it starts from. *)
Definition ends_recording {A} (m : R Mx AE VE A) : Prop :=
  forall r, m_isRecording (snd (m r)) = true.

End OrchestratorObservations.

Section FloatObservations.

Import Reals.
#[local] Open Scope Z_scope.

(** The real number a finite binary float stands for. *)
Definition F2R (m : positive) (e : Z) : R := (IZR (Zpos m) * powerRZ 2 e)%R.


(** A positive normal double: the real number it stands for and the range
    of its exponent. *)
Definition normal (f : spec_float) (v : R) (lo hi : Z) : Prop :=
  exists m e,
    f = S754_finite false m e
    /\ 2 ^ 52 <= Zpos m < 2 ^ 53
    /\ lo <= e <= hi
    /\ v = F2R m e.


End FloatObservations.

(* ===================================================================== *)
(** * The rest of the encoder element *)
(* ===================================================================== *)

Module EncoderApi.

Import State Ak Hw Encoder.

(** [VideoEncoderNDKMediaElement::codecs]. *)
Definition codecs (d : Element) : list string := map ci_name (m_codecs d).

(** The [std::find_if] by codec name of [codecID] and [codecDescription]. *)
Definition find_by_name (name : string) (d : Element) : option CodecInfo :=
  find (fun ci => String.eqb (ci_name ci) name) (m_codecs d).

(** [VideoEncoderNDKMediaElement::codecID(codec)]. *)
Definition codecID (name : string) (d : Element)
    : NDKMediaCodecs.AkVideoEncoderCodecID :=
  match find_by_name name d with
  | Some it => ci_codecID it
  | None => NDKMediaCodecs.VideoCodecID_unknown
  end.

(** [VideoEncoderNDKMediaElement::codecDescription(codec)]. *)
Definition codecDescription (name : string) (d : Element) : string :=
  match find_by_name name d with
  | Some it => ci_description it
  | None => ""
  end.

(** [outputCaps], [headers] and [encodedTimePts]. *)
Definition outputCaps (d : Element) : AkCompressedVideoCaps := m_outputCaps d.
Definition headers (d : Element) : option nat := m_headers d.
Definition encodedTimePts (d : Element) : Z := m_encodedTimePts d.

End EncoderApi.

Module EncoderFacts.

Import State Ak Hw Encoder EncoderSpec.


(** The capabilities [updateOutputCaps] gives the converter for an input
    shape: the pixel format of the input when the table has it and the
    first format of the table otherwise, the size of the input, and the
    frame rate of the input or 30/1 when that is not a valid fraction. *)
Definition converted (c : AkVideoCaps) : AkVideoCaps :=
  mkVideoCaps
    (if existsb (PixelFormat_eqb (format c)) PixelFormatsTable.formats
     then format c else Format_yuv420p)
    (width c) (height c)
    (if AkFrac_valid (fps c) then fps c else mkFrac 30 1).


(** The size the provider reports for the next input buffer. *)
Definition next_input_size (s : Sys) : Z :=
  snd (hd (AMEDIACODEC_INFO_TRY_AGAIN_LATER, 0)
          (will_dequeue_input (script (world s)))).

(** The hardware buffer of a packet is not a codec-configuration buffer. *)
Definition not_codec_config (p : AkCompressedVideoPacket) : Prop :=
  Z.land (flags (p_extraData p)) AMEDIACODEC_BUFFER_FLAG_CODEC_CONFIG = 0.



(** Every packet sent so far satisfies [P]. *)
Definition all_packets (P : AkCompressedVideoPacket -> Prop) (s : Sys) : Prop :=
  Forall P (packets (signals (world s))).

(** The element with the codec handles that exist and that are started. *)
Definition elem_handles (s : Sys) :=
  (elem s, running (world s), live (world s)).

(** What the constructor leaves behind: the static cache of [isAvailable]
    and the list of codecs of the element. *)
Definition cache_of (s : Sys) :=
  (availableCodecs (world s), overrun (world s), m_codecs (elem s)).

(** The answers of the provider to the probes of the constructor, one per
    entry of the catalog; a provider that stopped answering has no
    encoder. *)
Definition probe_answers (sc : Script) : list bool :=
  map (fun i => nth i (will_create sc) false)
      (seq 0 (List.length NDKMediaCodecs.table)).

(** The [CodecInfo] of a catalog entry. *)
Definition info_of (c : NDKMediaCodecs.NDKMediaCodec) : CodecInfo :=
  mkCodecInfo (NDKMediaCodecs.name c) (NDKMediaCodecs.description c)
              (NDKMediaCodecs.codecID c) (NDKMediaCodecs.mimeType c)
              PixelFormatsTable.formats.

(** The entries of the catalog whose probe was answered with an encoder,
    in the order of the catalog. *)
Definition listed (answers : list bool) : list CodecInfo :=
  flat_map (fun ca : NDKMediaCodecs.NDKMediaCodec * bool =>
              if snd ca then [info_of (fst ca)] else [])
           (combine NDKMediaCodecs.table answers).

(** The cache of [isAvailable] once every entry of the catalog was
    probed. *)
Definition probed_cache (answers : list bool) : list (string * bool) :=
  combine (map NDKMediaCodecs.mimeType NDKMediaCodecs.table) answers.

End EncoderFacts.

Module FrameWriterFacts.

Import Ak FrameWriter.

(** A copy that stays within the region of the buffer that the layout
    gives to plane [k]. *)
Definition in_plane (oLine : Plane -> Z) (sliceHeight : Z) (pls : list Plane)
    (k : nat) (c : Memcpy) : Prop :=
  plane_base oLine sliceHeight pls k <= dest c
  /\ dest c + count c <= plane_base oLine sliceHeight pls (S k).

(** The slice height covers whole rows of every plane: it is a multiple
    of the height subsampling of each plane. *)
Definition whole_rows (sliceHeight : Z) (pls : list Plane) : Prop :=
  Forall (fun pl => sliceHeight mod 2 ^ Z.of_N (heightDiv pl) = 0) pls.

End FrameWriterFacts.

(* ===================================================================== *)
(** * The rest of the recording orchestrator *)
(* ===================================================================== *)

Module PluginID.

(** A [QString] as the sequence of its UTF-16 code units. *)
Definition QChar : Type := N.
Definition QString : Type := list QChar.

Definition videoRecordingValidPluginIDChars : string :=
  "0123456789abcdefghijklmnopqrstuvwxyzABCDEFGHIJKLMNOPQRSTUVWXYZ_".

(** [strnlen(s, maxlen)]. *)
Definition strnlen (s : string) (maxlen : nat) : nat :=
  Nat.min (String.length s) maxlen.

(** [std::count(first, last, c)] over a range of [char], compared with a
    [QChar]. *)
Definition count (range : list ascii) (c : QChar) : nat :=
  List.length (filter (fun a => N.eqb (N_of_ascii a) c) range).

(** [RecordingPrivate::normatizePluginID]. *)
Definition normatizePluginID (pluginID : QString) : QString :=
  map (fun c =>
         if (0 <? count
                    (firstn (strnlen videoRecordingValidPluginIDChars 64)
                       (list_ascii_of_string videoRecordingValidPluginIDChars))
                    c)%nat
         then c else N_of_ascii "_"%char)
      pluginID.

(** A digit, an ASCII letter or the underscore. *)
Definition valid (c : QChar) : Prop :=
  In c (map N_of_ascii (list_ascii_of_string videoRecordingValidPluginIDChars)).

End PluginID.

Module RecordingApi.

Import Ak State Recording.

#[local] Open Scope state_scope.

Section Orchestrator.

Context {Mx AE VE : Type}.
Context {MUX : AkVideoMuxer Mx} {AENC : AkAudioEncoder AE} {VENC : AkVideoEncoder VE}.

(** [Recording::defaultBitrate]. *)
Definition defaultBitrate (t : CapsType) : Z :=
  match t with
  | CapsAudio => DEFAULT_AUDIO_BITRATE
  | CapsVideo => DEFAULT_VIDEO_BITRATE
  | CapsUnknown => 0
  end.

(** [Recording::resetBitrate]. *)
Definition resetBitrate (t : CapsType) : R Mx AE VE unit :=
  let bitrate :=
    match t with
    | CapsVideo => DEFAULT_VIDEO_BITRATE
    | _ => DEFAULT_AUDIO_BITRATE
    end in
  setBitrate t bitrate.

(** [Recording::resetState]. *)
Definition resetState : R Mx AE VE unit :=
  setState ElementStateNull ;; ret tt.

(** [Recording::state] and [Recording::videoGOP], [Recording::recordAudio],
    [Recording::lastVideo], [Recording::videoDirectory]. *)
Definition state (r : RecordingPrivate Mx AE VE) : ElementState := m_state r.
Definition videoGOP (r : RecordingPrivate Mx AE VE) : Z := m_videoGOP r.
Definition recordAudio (r : RecordingPrivate Mx AE VE) : bool := m_recordAudio r.
Definition lastVideo (r : RecordingPrivate Mx AE VE) : string := m_lastVideo r.
Definition videoDirectory (r : RecordingPrivate Mx AE VE) : string :=
  m_videoDirectory r.

(** What a client does with the orchestrator. *)
Inductive Op : Type :=
| OpSetState (st : ElementState)
| OpSetBitrate (t : CapsType) (b : Z)
| OpResetBitrate (t : CapsType)
| OpResetState.

Definition step (op : Op) (r : RecordingPrivate Mx AE VE)
    : RecordingPrivate Mx AE VE :=
  match op with
  | OpSetState st => snd (setState st r)
  | OpSetBitrate t b => snd (setBitrate t b r)
  | OpResetBitrate t => snd (resetBitrate t r)
  | OpResetState => snd (resetState r)
  end.

Definition run (ops : list Op) (r : RecordingPrivate Mx AE VE)
    : RecordingPrivate Mx AE VE :=
  fold_left (fun acc op => step op acc) ops r.

End Orchestrator.

End RecordingApi.

Module RecordingFacts.

Import Ak State Recording RecordingSpec.

Section Vocabulary.

Context {Mx AE VE : Type}.
Context {MUX : AkVideoMuxer Mx} {AENC : AkAudioEncoder AE} {VENC : AkVideoEncoder VE}.

(** The members that only [init] and [uninit] write. *)
Definition pipeline (r : RecordingPrivate Mx AE VE) :=
  (m_muxer r, m_audioEncoder r, m_videoEncoder r, m_isRecording r,
   m_lastVideo r, fault r).

(** The settings of the orchestrator. *)
Definition settings (r : RecordingPrivate Mx AE VE) :=
  (m_audioCaps r, m_videoCaps r, m_audioBitrate r, m_videoBitrate r,
   m_videoGOP r, m_videoDirectory r, m_recordAudio r, env r).

(** What neither [init] nor [uninit] writes. *)
Definition surroundings (r : RecordingPrivate Mx AE VE) :=
  (settings r, m_state r, m_pause r).

(** An orchestrator that is not in use is not recording. *)
Definition at_rest (r : RecordingPrivate Mx AE VE) : Prop :=
  m_state r = ElementStateNull -> m_isRecording r = false.

(** A recording in progress has its muxer, and no call went through a
    null muxer. *)
Definition sound (r : RecordingPrivate Mx AE VE) : Prop :=
  (m_isRecording r = true -> m_muxer r <> None) /\ fault r = false.

(** The location [init] gives the muxer: the video directory, the
    current time and the extension of the format of the muxer. *)
Definition start_location (r : RecordingPrivate Mx AE VE) (mx : Mx) : string :=
  (m_videoDirectory r ++ "/Video " ++ currentTime (env r) ++ "."
   ++ mux_extension (mux_muxer mx) mx)%string.

(** The video encoder once [init] has given it the capabilities, the
    bitrate and the GOP of the orchestrator and the gap policy, which is
    the opposite of what the muxer, with its location set, allows for
    video. *)
Definition configured_video (r : RecordingPrivate Mx AE VE) (mx : Mx) (ve : VE)
    : VE :=
  venc_setFillGaps
    (negb (mux_gapsAllowed CapsVideo (mux_setLocation (start_location r mx) mx)))
    (venc_setGop (m_videoGOP r)
       (venc_setBitrate (m_videoBitrate r)
          (venc_setInputCaps (m_videoCaps r) ve))).

(** The muxer once it was given the location and the video stream. *)
Definition video_muxer (r : RecordingPrivate Mx AE VE) (mx : Mx) (ve : VE)
    : Mx :=
  mux_setStreamBitrate CapsVideo (venc_bitrate (configured_video r mx ve))
    (mux_setStreamCaps
       (CompressedVideo (venc_outputCaps (configured_video r mx ve)))
       (mux_setLocation (start_location r mx) mx)).

(** The audio encoder once [init] has configured it; its gap policy is
    the opposite of what the muxer allows for audio at that point. *)
Definition configured_audio (r : RecordingPrivate Mx AE VE) (mx : Mx) (ve : VE)
    (ae : AE) : AE :=
  aenc_setFillGaps
    (negb (mux_gapsAllowed CapsAudio (video_muxer r mx ve)))
    (aenc_setBitrate (m_audioBitrate r)
       (aenc_setInputCaps (m_audioCaps r) ae)).

(** The configuration of the video encoder and the description of its
    stream for the muxer: what the encoder reports once configured. *)
Definition video_configuration (r : RecordingPrivate Mx AE VE) (mx : Mx)
    (ve : VE) : list Event :=
  [ VideoEncoder_setInputCaps (m_videoCaps r);
    VideoEncoder_setBitrate (m_videoBitrate r);
    VideoEncoder_setGop (m_videoGOP r);
    VideoEncoder_setFillGaps
      (negb (mux_gapsAllowed CapsVideo
               (mux_setLocation (start_location r mx) mx)));
    Muxer_setStreamCaps
      (CompressedVideo (venc_outputCaps (configured_video r mx ve)));
    Muxer_setStreamBitrate CapsVideo (venc_bitrate (configured_video r mx ve));
    VideoEncoder_link ].

(** The same for the audio encoder, which is then paused; the headers the
    muxer gets are the ones the paused encoder reports. *)
Definition audio_configuration (r : RecordingPrivate Mx AE VE) (mx : Mx)
    (ve : VE) (ae : AE) : list Event :=
  [ AudioEncoder_setInputCaps (m_audioCaps r);
    AudioEncoder_setBitrate (m_audioBitrate r);
    AudioEncoder_setFillGaps
      (negb (mux_gapsAllowed CapsAudio (video_muxer r mx ve)));
    Muxer_setStreamCaps
      (CompressedAudio (aenc_outputCaps (configured_audio r mx ve ae)));
    Muxer_setStreamBitrate CapsAudio
      (aenc_bitrate (configured_audio r mx ve ae));
    AudioEncoder_link;
    AudioEncoder_setState ElementStatePaused;
    Muxer_setStreamHeaders CapsAudio
      (aenc_headers
         (aenc_setState ElementStatePaused
            (aenc_link (configured_audio r mx ve ae)))) ].

(** The video encoder is paused and the muxer gets the headers the paused
    encoder reports. *)
Definition video_headers (r : RecordingPrivate Mx AE VE) (mx : Mx) (ve : VE)
    : list Event :=
  [ VideoEncoder_setState ElementStatePaused;
    Muxer_setStreamHeaders CapsVideo
      (venc_headers
         (venc_setState ElementStatePaused
            (venc_link (configured_video r mx ve)))) ].

(** The events of a start for a recording without audio. *)
Definition video_start (r : RecordingPrivate Mx AE VE) (mx : Mx) (ve : VE)
    : list Event :=
  [ QDir_mkpath (m_videoDirectory r);
    Muxer_setLocation (start_location r mx) ]
  ++ video_configuration r mx ve
  ++ video_headers r mx ve
  ++ [ Muxer_setState ElementStatePlaying;
       VideoEncoder_setState ElementStatePlaying;
       stateChanged ElementStatePlaying ].

(** The same with an audio encoder: its configuration follows the one of
    the video encoder, it is paused and its headers are read before the
    video encoder is paused, and it is set playing after the muxer and
    before the video encoder. *)
Definition audio_video_start (r : RecordingPrivate Mx AE VE) (mx : Mx)
    (ve : VE) (ae : AE) : list Event :=
  [ QDir_mkpath (m_videoDirectory r);
    Muxer_setLocation (start_location r mx) ]
  ++ video_configuration r mx ve
  ++ audio_configuration r mx ve ae
  ++ video_headers r mx ve
  ++ [ Muxer_setState ElementStatePlaying;
       AudioEncoder_setState ElementStatePlaying;
       VideoEncoder_setState ElementStatePlaying;
       stateChanged ElementStatePlaying ].

End Vocabulary.

End RecordingFacts.

Module MoreExamples.

Import Ak.

(** An orchestrator with a format and a video codec selected, before the
    first recording. *)
Definition ready
  : Recording.RecordingPrivate Recording.StubMuxer Recording.StubEncoder
      Recording.StubEncoder :=
  Recording.mkRecording
    (Recording.mkAudioCaps 0 2 48000) Examples.caps_4x2
    Recording.DEFAULT_AUDIO_BITRATE Recording.DEFAULT_VIDEO_BITRATE
    Recording.DEFAULT_VIDEO_GOP
    (Some Examples.stub_muxer) None (Some Examples.stub_video)
    "/videos" "" ElementStateNull true false false Examples.stub_env [] false.

End MoreExamples.

(* ===================================================================== *)
(** * Reasoning about methods *)
(* ===================================================================== *)

Arguments Double.of_Z : simpl never.
Arguments Double.value : simpl never.
Arguments Double.qRound64 : simpl never.
Arguments Encoder.uninit_drain : simpl never.
Arguments Encoder.encode_drain : simpl never.
Arguments Encoder.qstrncpy : simpl never.

Section StateLogicFacts.

Import State.

Context {S : Type}.

Lemma wp_conseq {A} (m : State S A) (Q Q' : A -> S -> Prop) s :
  wp m Q' s -> (forall a s', Q' a s' -> Q a s') -> wp m Q s.
Proof. unfold wp. auto. Qed.

Lemma wp_bind {A B} (m : State S A) (k : A -> State S B) Q s :
  wp m (fun a s' => wp (k a) Q s') s -> wp (bind m k) Q s.
Proof. unfold wp, bind. now destruct (m s). Qed.

Lemma wp_ret {A} (a : A) (Q : A -> S -> Prop) s : Q a s -> wp (ret a) Q s.
Proof. exact (fun H => H). Qed.

Lemma wp_keeps {A B} (X : S -> B) (m : State S A) (Q : A -> S -> Prop) s :
  keeps X m -> (forall a s', X s' = X s -> Q a s') -> wp m Q s.
Proof. intros Hk HQ. apply HQ. now apply (Hk (X s)). Qed.

Lemma inv_ret {A} (P : S -> Prop) (a : A) : inv P (ret a).
Proof. intros s H. exact H. Qed.

Lemma inv_bind {A B} (P : S -> Prop) (m : State S A) (k : A -> State S B) :
  inv P m -> (forall a, inv P (k a)) -> inv P (bind m k).
Proof.
  intros Hm Hk s H. unfold bind.
  specialize (Hm s H). destruct (m s) as [a s1]. exact (Hk a s1 Hm).
Qed.

Lemma inv_when (P : S -> Prop) (b : bool) (m : State S unit) : inv P m -> inv P (when b m).
Proof. intros Hm. destruct b; [ exact Hm | apply inv_ret ]. Qed.

End StateLogicFacts.

Arguments wp : simpl never.

(* ===================================================================== *)
(** * Properties of the FrameWriter *)
(* ===================================================================== *)

Section IntegerFacts.

Lemma to_size_t_small z : 0 <= z < 2 ^ 64 -> Int.to_size_t z = z.
Proof. intros H. unfold Int.to_size_t. now apply Z.mod_small. Qed.

Lemma to_int32_fits z : - 2 ^ 31 <= z < 2 ^ 31 -> Int.to_int32 z = z.
Proof. intros H. unfold Int.to_int32. rewrite Z.mod_small; lia. Qed.

Lemma shiftr_below a (n : N) : 0 <= a -> 0 <= Z.shiftr a (Z.of_N n) <= a.
Proof.
  intros Ha. rewrite Z.shiftr_div_pow2 by lia.
  assert (0 < 2 ^ Z.of_N n) by (apply Z.pow_pos_nonneg; lia).
  split.
  - apply Z.div_pos; lia.
  - apply Z.div_le_upper_bound; nia.
Qed.

End IntegerFacts.

Section FrameWriterFacts.

Import Ak FrameWriter.

Variable packet : AkVideoPacket.
Variables stride sliceHeight : Z.

Let oLine : Plane -> Z := oLineSize_of packet stride.
Let frameHeight : Z := height (caps packet).
Let pls : list Plane := plane_data packet.

Hypothesis stride_int32 : 0 <= stride < 2 ^ 31.
Hypothesis sliceHeight_covers : 0 <= sliceHeight /\ frameHeight <= sliceHeight.
Hypothesis frame_fits_int : stride * sliceHeight < 2 ^ 31.

Lemma shiftr_stride_range (n : N) :
  0 <= Z.shiftr stride (Z.of_N n) < 2 ^ 64.
Proof.
  clear sliceHeight_covers frame_fits_int.
  pose proof (shiftr_below stride n). lia.
Qed.

Lemma oLine_below pl : 0 <= oLine pl <= stride.
Proof.
  clear sliceHeight_covers frame_fits_int.
  unfold oLine, oLineSize_of.
  destruct (1 <? planes packet); [ apply shiftr_below | ]; lia.
Qed.

Lemma oLine_range pl : 0 <= oLine pl < 2 ^ 64.
Proof.
  clear sliceHeight_covers frame_fits_int.
  pose proof (oLine_below pl). lia.
Qed.

(** Neither product of the writer leaves the range of [int]. *)
Lemma product_fits_int pl a :
  0 <= a <= sliceHeight -> Int.to_int32 (a * oLine pl) = a * oLine pl.
Proof.
  intros Ha. pose proof (oLine_below pl). apply to_int32_fits. nia.
Qed.

(** The inner loop appends one copy per row and leaves the cursor alone. *)
Lemma copy_rows_fold plane oL n hd (l : list nat) (w : Writer) :
  fold_left (fun acc i => copy_row packet plane oL n hd (Z.of_nat i) acc) l w
  = mkWriter (oData w)
      (copies w ++
       map (fun y =>
              mkMemcpy (oData w + Int.to_int32 (Z.shiftr y (Z.of_N hd) * oL))
                       plane y n)
           (map Z.of_nat l)).
Proof.
  revert w. induction l as [ | i l IH ]; intros w; simpl.
  - rewrite app_nil_r. now destruct w.
  - rewrite IH. unfold copy_row; simpl. now rewrite <- app_assoc.
Qed.

Lemma plane_base_succ (k : nat) :
  (k < List.length pls)%nat ->
  plane_base oLine sliceHeight pls (S k)
  = plane_base oLine sliceHeight pls k
    + plane_extent oLine sliceHeight (nth k pls empty_plane).
Proof.
  unfold plane_base. revert k.
  induction pls as [ | p ps IH ]; intros k Hk; simpl in Hk; [ lia | ].
  destruct k as [ | k ]; simpl.
  - lia.
  - simpl in IH. rewrite IH by lia. lia.
Qed.

Lemma write_plane_step (k : nat) (w : Writer) :
  write_plane packet stride sliceHeight (Z.of_nat k) w
  = mkWriter
      (oData w + plane_extent oLine sliceHeight (nth k pls empty_plane))
      (copies w ++
       plane_copies oLine frameHeight (oData w) k (nth k pls empty_plane)).
Proof.
  unfold write_plane, Int.for_int. rewrite copy_rows_fold. simpl.
  unfold plane_at. rewrite Nat2Z.id. fold pls.
  set (pl := nth k pls empty_plane).
  unfold plane_extent, plane_copies, rows, Int.qMin_size_t.
  fold (oLineSize_of packet stride pl). fold oLine. fold frameHeight.
  rewrite (to_size_t_small (oLine pl)) by apply oLine_range.
  rewrite (Z.mul_comm (oLine pl)), product_fits_int
    by (pose proof (shiftr_below sliceHeight (heightDiv pl)); lia).
  rewrite (Z.mul_comm _ (oLine pl)).
  f_equal. f_equal. apply map_ext_in. intros y Hy.
  apply in_map_iff in Hy. destruct Hy as (i & <- & Hi). apply in_seq in Hi.
  rewrite product_fits_int; [ reflexivity | ].
  pose proof (shiftr_below (Z.of_nat i) (heightDiv pl)). lia.
Qed.

Lemma write_planes_fold (m a : nat) (w : Writer) :
  (a + m <= List.length pls)%nat ->
  oData w = plane_base oLine sliceHeight pls a ->
  let w' := fold_left
              (fun acc i => write_plane packet stride sliceHeight (Z.of_nat i) acc)
              (seq a m) w in
  oData w' = plane_base oLine sliceHeight pls (a + m)
  /\ copies w' =
     copies w ++
     concat (map (fun k =>
                    plane_copies oLine frameHeight
                      (plane_base oLine sliceHeight pls k) k
                      (nth k pls empty_plane))
                 (seq a m)).
Proof.
  revert a w. induction m as [ | m IH ]; intros a w Hlen Hbase; simpl.
  - rewrite Nat.add_0_r, app_nil_r. auto.
  - rewrite write_plane_step.
    destruct (IH (S a)
                (mkWriter
                   (oData w + plane_extent oLine sliceHeight (nth a pls empty_plane))
                   (copies w ++
                    plane_copies oLine frameHeight (oData w) a
                      (nth a pls empty_plane))))
      as [Hc Hl].
    + lia.
    + simpl. rewrite plane_base_succ by lia. lia.
    + simpl in Hc, Hl. split.
      * rewrite Hc. f_equal. lia.
      * rewrite Hl, <- app_assoc, Hbase. reflexivity.
Qed.

End FrameWriterFacts.

(** C1. For every raw frame written into a hardware input buffer (a
    planar frame, of more than one plane, whose luma plane of
    [stride * sliceHeight] bytes fits the [int] the writer computes
    with), [writeFrame] performs exactly the copies of the layout rule,
    plane after plane and row after row: for each plane,
    [min(source line size, stride >> widthDiv)] bytes from every source
    row [y] in [[0, frameHeight)] to destination row [y >> heightDiv];
    the cursor then moves on by
    [(stride >> widthDiv) * (sliceHeight >> heightDiv)], where the slice
    height was first raised to the frame height. *)
Theorem writeFrame_layout
    (mediaFormat : option MediaFormat.AMediaFormat) (packet : Ak.AkVideoPacket) :
  let stride := MediaFormat.getInt32 mediaFormat MediaFormat.KEY_STRIDE in
  let sliceHeight :=
    FrameWriter.clamped_sliceHeight
      (MediaFormat.getInt32 mediaFormat MediaFormat.KEY_SLICE_HEIGHT)
      (Ak.height (Ak.caps packet)) in
  1 < Ak.planes packet ->
  0 <= stride < 2 ^ 31 ->
  0 <= sliceHeight ->
  stride * sliceHeight < 2 ^ 31 ->
  FrameWriter.copies (FrameWriter.writeFrame mediaFormat packet)
  = FrameWriter.layout_copies
      (FrameWriter.documented_oLineSize stride) sliceHeight
      (Ak.height (Ak.caps packet)) (Ak.plane_data packet)
  /\ FrameWriter.oData (FrameWriter.writeFrame mediaFormat packet)
     = FrameWriter.plane_base
         (FrameWriter.documented_oLineSize stride) sliceHeight
         (Ak.plane_data packet) (List.length (Ak.plane_data packet)).
Proof.
  intros stride sliceHeight Hplanes Hstride Hslice Hfits.
  assert (Hrule : FrameWriter.oLineSize_of packet stride
                  = FrameWriter.documented_oLineSize stride).
  { unfold FrameWriter.oLineSize_of, FrameWriter.documented_oLineSize.
    apply Z.ltb_lt in Hplanes. now rewrite Hplanes. }
  rewrite <- Hrule.
  unfold FrameWriter.writeFrame, Int.for_int, Ak.planes.
  rewrite Nat2Z.id.
  replace (if MediaFormat.getInt32 mediaFormat MediaFormat.KEY_SLICE_HEIGHT
              <? Ak.height (Ak.caps packet)
           then Ak.height (Ak.caps packet)
           else MediaFormat.getInt32 mediaFormat MediaFormat.KEY_SLICE_HEIGHT)
    with sliceHeight
    by (unfold sliceHeight, FrameWriter.clamped_sliceHeight;
        destruct (Z.ltb_spec
                    (MediaFormat.getInt32 mediaFormat MediaFormat.KEY_SLICE_HEIGHT)
                    (Ak.height (Ak.caps packet))); lia).
  fold stride.
  assert (Hcovers : 0 <= sliceHeight /\ Ak.height (Ak.caps packet) <= sliceHeight)
    by (unfold sliceHeight, FrameWriter.clamped_sliceHeight in *; lia).
  destruct (write_planes_fold packet stride sliceHeight Hstride Hcovers Hfits
              (List.length (Ak.plane_data packet)) 0
              (FrameWriter.mkWriter 0 []))
    as [Hc Hl]; [ lia | reflexivity | ].
  split; [ exact Hl | exact Hc ].
Qed.

Lemma writeFrame_layout_witness :
  1 < Ak.planes Examples.yuv420p_4x2
  /\ FrameWriter.copies
       (FrameWriter.writeFrame (Some Examples.format_4x2) Examples.yuv420p_4x2)
     = FrameWriter.layout_copies
         (FrameWriter.documented_oLineSize 4) 2 2
         (Ak.plane_data Examples.yuv420p_4x2)
  /\ FrameWriter.oData
       (FrameWriter.writeFrame (Some Examples.format_4x2) Examples.yuv420p_4x2)
     = FrameWriter.plane_base
         (FrameWriter.documented_oLineSize 4) 2
         (Ak.plane_data Examples.yuv420p_4x2) 3.
Proof.
  split; [ reflexivity | ].
  apply (writeFrame_layout (Some Examples.format_4x2) Examples.yuv420p_4x2).
  - reflexivity.
  - simpl. lia.
  - vm_compute. discriminate.
  - vm_compute. reflexivity.
Defined.

(* ===================================================================== *)
(** * Properties of the encoder session *)
(* ===================================================================== *)

Section EncoderRules.

Import State Hw Encoder.

Lemma wp_this {A} (f : Element -> A) (Q : A -> Sys -> Prop) s :
  Q (f (elem s)) s -> wp (this f) Q s.
Proof. exact (fun H => H). Qed.

Lemma wp_outside {A} (f : World -> A) (Q : A -> Sys -> Prop) s :
  Q (f (world s)) s -> wp (outside f) Q s.
Proof. exact (fun H => H). Qed.

Lemma wp_assign f (Q : unit -> Sys -> Prop) s :
  Q tt (mkSys (f (elem s)) (world s)) -> wp (assign f) Q s.
Proof. exact (fun H => H). Qed.

Lemma wp_effect f (Q : unit -> Sys -> Prop) s :
  Q tt (mkSys (elem s) (f (world s))) -> wp (effect f) Q s.
Proof. exact (fun H => H). Qed.

Lemma wp_answer {A} (field : Script -> list A) rest default
    (Q : A -> Sys -> Prop) s :
  (field (script (world s)) = [] -> Q default s) ->
  (forall a l, field (script (world s)) = a :: l ->
     Q a (mkSys (elem s) (set_script (rest l (script (world s))) (world s)))) ->
  wp (answer field rest default) Q s.
Proof.
  intros Hnil Hcons. unfold wp, answer.
  destruct (field (script (world s))) as [ | a l ]; simpl; auto.
Qed.

Variable P : Sys -> Prop.

Lemma inv_this {A} (f : Element -> A) : inv P (this f).
Proof. intros s H. exact H. Qed.

Lemma inv_outside {A} (f : World -> A) : inv P (outside f).
Proof. intros s H. exact H. Qed.

Lemma inv_assign (f : Element -> Element) :
  (forall s, P s -> P (mkSys (f (elem s)) (world s))) -> inv P (assign f).
Proof. intros Hf s H. exact (Hf s H). Qed.

Lemma inv_effect (f : World -> World) :
  (forall s, P s -> P (mkSys (elem s) (f (world s)))) -> inv P (effect f).
Proof. intros Hf s H. exact (Hf s H). Qed.

Lemma inv_answer {A} (field : Script -> list A) rest (default : A) :
  (forall s l, P s ->
     P (mkSys (elem s) (set_script (rest l (script (world s))) (world s)))) ->
  inv P (answer field rest default).
Proof.
  intros Hf s H. unfold answer.
  destruct (field (script (world s))) as [ | a l ]; simpl; auto.
Qed.

End EncoderRules.

(** The calls to the provider are unfolded into their elementary steps. *)
Ltac unfold_provider :=
  unfold Encoder.AMediaCodec_createEncoderByType, Encoder.AMediaCodec_delete,
    Encoder.AMediaFormat_new, Encoder.AMediaCodec_configure,
    Encoder.AMediaCodec_start, Encoder.AMediaCodec_stop,
    Encoder.AMediaCodec_dequeueInputBuffer, Encoder.AMediaCodec_getInputBuffer,
    Encoder.AMediaCodec_queueInputBuffer,
    Encoder.AMediaCodec_dequeueOutputBuffer,
    Encoder.AMediaCodec_getOutputBuffer,
    Encoder.AMediaCodec_releaseOutputBuffer,
    Encoder.pending_outputs, Encoder.emit.

(** One step of symbolic execution of a method of the element. *)
Ltac wp_step :=
  lazymatch goal with
  | |- wp (State.bind _ _) _ _ => apply wp_bind
  | |- wp (State.ret _) _ _ => apply wp_ret
  | |- wp (Encoder.this _) _ _ => apply wp_this
  | |- wp (Encoder.outside _) _ _ => apply wp_outside
  | |- wp (Encoder.assign _) _ _ => apply wp_assign
  | |- wp (Encoder.effect _) _ _ => apply wp_effect
  | |- wp (Encoder.answer _ _ _) _ _ =>
      apply wp_answer; [ intros ?Hnone | intros ?a ?l ?Hnext ]
  | |- wp (State.when ?b _) _ _ => unfold State.when; destruct b eqn:?
  | |- wp (if ?b then _ else _) _ _ => destruct b eqn:?
  | |- wp (match ?x with _ => _ end) _ _ => destruct x eqn:?
  end;
  cbv beta; cbn.

Ltac wp_go := unfold_provider; repeat wp_step.

(** The structure of a method, down to its assignments and effects. *)
Ltac inv_structure :=
  repeat (cbv zeta;
          lazymatch goal with
          | |- inv _ (State.ret _) => apply inv_ret
          | |- inv _ (Encoder.this _) => apply inv_this
          | |- inv _ (Encoder.outside _) => apply inv_outside
          | |- inv _ (State.bind _ _) => apply inv_bind; [ | intros ]
          | |- inv _ (State.when _ _) => apply inv_when
          | |- inv _ (if ?b then _ else _) => destruct b
          | |- inv _ (match ?x with _ => _ end) => destruct x
          end).

Ltac inv_leaf tac :=
  lazymatch goal with
  | |- inv _ (Encoder.assign _) => apply inv_assign; intros; tac
  | |- inv _ (Encoder.effect _) => apply inv_effect; intros; tac
  | |- inv _ (Encoder.answer _ _ _) => apply inv_answer; intros; tac
  | |- _ => idtac
  end.

Ltac inv_solve tac := unfold_provider; inv_structure; inv_leaf tac.

Section EncoderLifeCycle.

Import State Ak Hw Encoder EncoderSpec.

Ltac same_leaf :=
  unfold core, elem_running, log, emit_signal in *; cbn in *; assumption.

Lemma sendFrame_keeps_elem_running data info :
  keeps elem_running (sendFrame data info).
Proof. unfold sendFrame. intros v. inv_solve same_leaf. Qed.

Lemma uninit_drain_keeps turns c : keeps elem_running (uninit_drain turns c).
Proof.
  induction turns as [ | n IH ]; intros v;
    unfold uninit_drain; fold uninit_drain.
  - apply inv_ret.
  - inv_solve same_leaf;
      try apply IH; try apply sendFrame_keeps_elem_running.
Qed.

Lemma encode_drain_keeps turns c : keeps elem_running (encode_drain turns c).
Proof.
  induction turns as [ | n IH ]; intros v;
    unfold encode_drain; fold encode_drain.
  - apply inv_ret.
  - inv_solve same_leaf;
      try apply IH; try apply sendFrame_keeps_elem_running.
Qed.

Lemma encode_drain_keeps_core turns c : keeps core (encode_drain turns c).
Proof.
  intros v s Hs. pose proof (encode_drain_keeps turns c _ s eq_refl) as H.
  unfold elem_running in H. injection H as He Hr.
  unfold core in *. now rewrite He, Hr.
Qed.

Lemma encodeFrame_keeps_core src : keeps core (encodeFrame src).
Proof.
  unfold encodeFrame. intros v. inv_solve same_leaf.
  all: try apply encode_drain_keeps_core.
Qed.

Lemma encodeFrames_keeps_core out : keeps core (encodeFrames out).
Proof.
  induction out as [ | p l IH ]; intros v; simpl.
  - apply inv_ret.
  - apply inv_bind; [ apply encodeFrame_keeps_core | intros; apply IH ].
Qed.

Lemma iVideoStream_keeps_core packet : keeps core (iVideoStream packet).
Proof.
  unfold iVideoStream, fpsControl_iStream. intros v. inv_solve same_leaf.
  all: try apply encodeFrames_keeps_core.
Qed.

Lemma updateOutputCaps_keeps_core : keeps core updateOutputCaps.
Proof.
  unfold updateOutputCaps, clear_outputCaps. intros v. inv_solve same_leaf.
Qed.

Lemma setInputCaps_keeps_core c : keeps core (setInputCaps c).
Proof.
  unfold setInputCaps. intros v. inv_solve same_leaf.
  all: try apply updateOutputCaps_keeps_core.
Qed.

Lemma updateHeaders_keeps_core : keeps core updateHeaders.
Proof. unfold updateHeaders. intros v. inv_solve same_leaf. Qed.

(** [uninit] on a session that is not initialized does nothing. *)
Lemma uninit_idle s : m_initialized (elem s) = false -> uninit s = (tt, s).
Proof. intros H. unfold uninit, bind, this. simpl. now rewrite H. Qed.

Ltac flip_negb :=
  repeat match goal with
         | H : negb _ = _ |- _ =>
             apply (f_equal negb) in H; rewrite negb_involutive in H; cbn in H
         end.

Lemma init_post s :
  m_initialized (elem s) = false ->
  wp init
     (fun ok s' =>
        state (elem s') = state (elem s)
        /\ m_paused (elem s') = m_paused (elem s)
        /\ m_fpsControl (elem s') = m_fpsControl (elem s)
        /\ if ok
           then m_initialized (elem s') = true
                /\ exists h, m_codec (elem s') = Some h
                             /\ running (world s') = h :: running (world s)
           else m_initialized (elem s') = false
                /\ running (world s') = running (world s)) s.
Proof.
  intros Hidle.
  unfold init. apply wp_bind. unfold wp at 1. rewrite (uninit_idle s Hidle).
  cbn [fst snd].
  wp_go.
  all: try (apply (wp_keeps core); [ apply updateHeaders_keeps_core | ];
            unfold core; cbn; intros _ s2 Hc; injection Hc as ? ? ? ? ? ?;
            wp_go).
  all: cbn; repeat split; eauto.
  all: flip_negb; try congruence.
Qed.

Lemma uninit_post s h :
  m_initialized (elem s) = true ->
  m_codec (elem s) = Some h ->
  running (world s) = [h] ->
  wp uninit
     (fun _ s' =>
        state (elem s') = state (elem s)
        /\ m_fpsControl (elem s') = m_fpsControl (elem s)
        /\ m_initialized (elem s') = false
        /\ m_paused (elem s') = false
        /\ running (world s') = []) s.
Proof.
  intros Hinit Hcodec Hrun.
  unfold uninit. wp_step. wp_step. rewrite Hinit. cbn.
  wp_step. wp_step. wp_step. wp_step. rewrite Hcodec.
  wp_go.
  all: apply (wp_keeps elem_running); [ apply uninit_drain_keeps | ].
  all: unfold elem_running; cbn; intros _ s2 Hc; injection Hc as He Hr.
  all: wp_go; rewrite ?He, ?Hr, ?Hrun; cbn.
  all: rewrite ?Nat.eqb_refl; cbn; auto.
Qed.

Lemma lifecycle_core s s' : core s' = core s -> lifecycle s -> lifecycle s'.
Proof.
  unfold core, lifecycle. intros H. injection H as -> -> -> -> _ ->. auto.
Qed.

Lemma wp_AkElement_setState st (Q : bool -> Sys -> Prop) s :
  state (elem s) <> st ->
  Q true (mkSys (set_state st (elem s)) (emit_signal (stateChanged st) (world s))) ->
  wp (AkElement_setState st) Q s.
Proof.
  intros Hne HQ. unfold AkElement_setState. wp_step. wp_step.
  destruct (ElementState_eqb (state (elem s)) st) eqn:E.
  - destruct (state (elem s)), st; simpl in E; congruence.
  - wp_go. exact HQ.
Qed.

Lemma setState_lifecycle st s :
  lifecycle s ->
  wp (setState st)
     (fun ok s' =>
        lifecycle s'
        /\ m_fpsControl (elem s') = m_fpsControl (elem s)
        /\ state (elem s') = (if ok then st else state (elem s))) s.
Proof.
  unfold lifecycle, setState. intros H. wp_step. wp_step.
  destruct (state (elem s)) eqn:Es, st;
    try (wp_go; rewrite Es; now auto).
  - (* Null -> Paused *)
    destruct H as (Hi & Hp & Hr).
    wp_step. wp_step. unfold start_or_fail. wp_step.
    eapply wp_conseq; [ apply init_post; exact Hi | ].
    cbn. intros ok s1 (Hs & Hpa & Hf & Hres).
    destruct ok; cbn.
    + destruct Hres as (Hi1 & h & Hc & Hr1).
      apply wp_AkElement_setState; [ rewrite Hs, Es; discriminate | ].
      cbn. rewrite Hr in Hr1. repeat split; eauto.
    + wp_go. rewrite Hs, Es. destruct Hres as (Hi1 & Hr1).
      rewrite Hr1. auto.
  - (* Null -> Playing *)
    destruct H as (Hi & Hp & Hr).
    unfold start_or_fail. wp_step.
    eapply wp_conseq; [ apply init_post; exact Hi | ].
    cbn. intros ok s1 (Hs & Hpa & Hf & Hres).
    destruct ok; cbn.
    + destruct Hres as (Hi1 & h & Hc & Hr1).
      apply wp_AkElement_setState; [ rewrite Hs, Es; discriminate | ].
      cbn. rewrite Hr in Hr1. rewrite Hpa, Hp. repeat split; eauto.
    + wp_go. rewrite Hs, Es. destruct Hres as (Hi1 & Hr1).
      rewrite Hr1. auto.
  - (* Paused -> Null *)
    destruct H as (Hi & Hp & h & Hc & Hr).
    wp_step.
    eapply wp_conseq; [ apply (uninit_post s h Hi Hc Hr) | ].
    cbn. intros _ s1 (Hs & Hf & Hi1 & Hp1 & Hr1).
    apply wp_AkElement_setState; [ rewrite Hs, Es; discriminate | ].
    cbn. auto.
  - (* Paused -> Playing *)
    destruct H as (Hi & Hp & h & Hc & Hr).
    wp_step. wp_step.
    apply wp_AkElement_setState; [ cbn; rewrite Es; discriminate | ].
    cbn. repeat split; eauto.
  - (* Playing -> Null *)
    destruct H as (Hi & Hp & h & Hc & Hr).
    wp_step.
    eapply wp_conseq; [ apply (uninit_post s h Hi Hc Hr) | ].
    cbn. intros _ s1 (Hs & Hf & Hi1 & Hp1 & Hr1).
    apply wp_AkElement_setState; [ rewrite Hs, Es; discriminate | ].
    cbn. auto.
  - (* Playing -> Paused *)
    destruct H as (Hi & Hp & h & Hc & Hr).
    wp_step. wp_step.
    apply wp_AkElement_setState; [ cbn; rewrite Es; discriminate | ].
    cbn. repeat split; eauto.
Qed.

(** ** Sessions reachable from the constructor *)

Ltac idle_leaf :=
  unfold idle_core, log, emit_signal, remember in *; cbn in *;
  repeat match goal with
         | H : _ /\ _ |- _ => destruct H
         | |- context [ if ?b then _ else _ ] => destruct b; cbn
         end;
  repeat split; try assumption;
  repeat match goal with
         | H : running _ = [] |- _ => rewrite H
         end;
  try reflexivity;
  try (match goal with |- remove_handle ?c _ = _ => destruct c; reflexivity end).

Lemma isAvailable_idle mime : inv idle_core (isAvailable mime).
Proof. unfold isAvailable, remember. inv_solve idle_leaf. Qed.

Lemma listCodecs_from_idle table : inv idle_core (listCodecs_from table).
Proof.
  induction table as [ | c rest IH ]; simpl.
  - apply inv_ret.
  - apply inv_bind; [ apply isAvailable_idle | intros ok ].
    apply inv_bind; [ | intros; exact IH ].
    apply inv_when. apply inv_assign. intros s H. exact H.
Qed.

Lemma new_session_lifecycle sc b g fg fc :
  lifecycle (new_session sc b g fg fc).
Proof.
  assert (K : inv idle_core construct).
  { unfold construct, listCodecs.
    apply inv_bind; [ apply listCodecs_from_idle | intros _ ].
    unfold setCodec. apply inv_assign. intros s H. exact H. }
  assert (H : idle_core (new_session sc b g fg fc)).
  { apply K. unfold idle_core. cbn. auto. }
  unfold lifecycle. destruct H as (-> & H). exact H.
Qed.

Lemma step_lifecycle op s : lifecycle s -> lifecycle (step op s).
Proof.
  intros H. destruct op; cbn [step].
  - apply (setState_lifecycle st s H).
  - apply (lifecycle_core s); [ | exact H ].
    now apply (iVideoStream_keeps_core packet (core s)).
  - apply (lifecycle_core s); [ | exact H ].
    now apply (setInputCaps_keeps_core c (core s)).
  - exact H.
  - exact H.
  - exact H.
  - exact H.
Qed.

Lemma run_lifecycle ops s : lifecycle s -> lifecycle (run ops s).
Proof.
  unfold run. revert s. induction ops as [ | op ops IH ]; intros s H; cbn.
  - exact H.
  - apply IH. now apply step_lifecycle.
Qed.

Lemma idle_iVideoStream packet s :
  m_initialized (elem s) = false -> iVideoStream packet s = (tt, s).
Proof.
  intros H. unfold iVideoStream, bind, this. cbn. rewrite H.
  now rewrite orb_true_r.
Qed.

(** ** Start failures *)



End EncoderLifeCycle.

(* ===================================================================== *)
(** * Double precision: how far the computed timestamp is from the exact one *)
(* ===================================================================== *)

Section SpecFloatFacts.












End SpecFloatFacts.

Section Rounding.

Import Reals Lra.
#[local] Open Scope Z_scope.


Lemma pow2_pos (e : Z) : (0 < powerRZ 2 e)%R.
Proof. apply powerRZ_lt. lra. Qed.



End Rounding.

Section Operations.

Import Reals Lra Psatz.
#[local] Open Scope Z_scope.

Lemma normal_pos f v lo hi : normal f v lo hi -> (0 < v)%R.
Proof.
  intros (m & e & _ & _ & _ & ->). unfold F2R.
  apply Rmult_lt_0_compat; [ apply IZR_lt; lia | apply pow2_pos ].
Qed.









End Operations.

Section ErrorBounds.

Import Reals Lra Psatz.
#[local] Open Scope R_scope.






End ErrorBounds.

Section DoubleFacts.

Import Reals Lra Psatz Ak.
#[local] Open Scope Z_scope.







End DoubleFacts.

Section Ticks.

Import Reals Lra Psatz Qreals Ak EncoderSpec.
#[local] Open Scope Z_scope.






End Ticks.

Section EncoderClaims.

Import State Ak Hw Encoder EncoderSpec.

(** C8. For every session reachable from the constructor that is in the
    idle state [ElementStateNull] (never started, or stopped), and for
    every input frame, [iVideoStream] returns and leaves the whole system
    as it was: no packet or other signal is emitted, no call reaches the
    hardware, and no member of the session changes. *)
Theorem idle_session_ignores_frames
    (sc : Script) (bitrate gop : Z) (fillGaps fpsControl : bool)
    (ops : list Op) (packet : AkVideoPacket) :
  let s := run ops (new_session sc bitrate gop fillGaps fpsControl) in
  state (elem s) = ElementStateNull ->
  iVideoStream packet s = (tt, s).
Proof.
  intros s Hnull.
  pose proof (run_lifecycle ops _
                (new_session_lifecycle sc bitrate gop fillGaps fpsControl)) as H.
  fold s in H. unfold lifecycle in H. rewrite Hnull in H.
  destruct H as (Hi & _). now apply idle_iVideoStream.
Qed.

Lemma idle_session_ignores_frames_witness :
  iVideoStream Examples.yuv420p_4x2
    (run Examples.stopped (Examples.session Examples.willing))
  = (tt, run Examples.stopped (Examples.session Examples.willing)).
Proof.
  apply (idle_session_ignores_frames Examples.willing
           Recording.DEFAULT_VIDEO_BITRATE Recording.DEFAULT_VIDEO_GOP
           false true Examples.stopped Examples.yuv420p_4x2).
  vm_compute. reflexivity.
Defined.



(** ** Timestamps of the emitted packets *)

Lemma packets_app a b : packets (a ++ b) = packets a ++ packets b.
Proof. unfold packets. apply flat_map_app. Qed.


















(** ** The encoded-time counter *)

Ltac subm_leaf :=
  unfold elem_submissions, submissions, log, emit_signal in *; cbn in *;
  rewrite ?filter_app; cbn; rewrite ?app_nil_r; assumption.

Lemma sendFrame_submissions data info :
  keeps elem_submissions (sendFrame data info).
Proof. unfold sendFrame. intros v. inv_solve subm_leaf. Qed.

Lemma encode_drain_submissions turns c :
  keeps elem_submissions (encode_drain turns c).
Proof.
  induction turns as [ | n IH ]; intros v; unfold encode_drain;
    fold encode_drain.
  - apply inv_ret.
  - inv_solve subm_leaf; try apply IH; try apply sendFrame_submissions.
Qed.






End EncoderClaims.

Section AvailabilityCache.

Import State Ak Hw Encoder EncoderSpec.

Lemma cached_app_some m c x b :
  cached m c = Some b -> cached m (c ++ x) = Some b.
Proof.
  induction c as [ | [k v] c IH ]; simpl; [ discriminate | ].
  destruct (String.eqb k m); auto.
Qed.

Lemma cached_app_none m c k v :
  cached m c = None ->
  cached m (c ++ [(k, v)]) = if String.eqb k m then Some v else None.
Proof.
  induction c as [ | [k' v'] c IH ]; simpl; [ reflexivity | ].
  destruct (String.eqb k' m); [ discriminate | auto ].
Qed.

(** A cached MIME type is answered from the cache: nothing else happens. *)
Lemma isAvailable_hit m b s :
  cached m (availableCodecs (world s)) = Some b -> isAvailable m s = (b, s).
Proof.
  intros H. unfold isAvailable, bind, outside. cbn. now rewrite H.
Qed.

Ltac cache_leaf :=
  unfold overran, log in *; cbn in *;
  repeat match goal with
         | |- context [ if ?b then _ else _ ] => destruct b; cbn
         end;
  auto using cached_app_some.

Lemma isAvailable_overran m : inv overran (isAvailable m).
Proof. unfold isAvailable, remember. inv_solve cache_leaf. Qed.

Lemma isAvailable_keeps_cached m' m b :
  inv (fun s => cached m (availableCodecs (world s)) = Some b) (isAvailable m').
Proof. unfold isAvailable, remember. inv_solve cache_leaf. Qed.

Lemma queries_keeps_cached l m b :
  inv (fun s => cached m (availableCodecs (world s)) = Some b) (queries l).
Proof.
  induction l as [ | m' l IH ]; simpl.
  - apply inv_ret.
  - apply inv_bind; [ apply isAvailable_keeps_cached | intros; apply IH ].
Qed.

Lemma queries_overran l : inv overran (queries l).
Proof.
  induction l as [ | m' l IH ]; simpl.
  - apply inv_ret.
  - apply inv_bind; [ apply isAvailable_overran | intros; apply IH ].
Qed.

(** After a query the answer is in the cache, unless the table was full. *)
Lemma isAvailable_first m s :
  qstrncpy m CACHE_KEY_BYTES = m ->
  wp (isAvailable m)
     (fun b s' =>
        overran s' \/ cached m (availableCodecs (world s')) = Some b) s.
Proof.
  intros Hfit. unfold isAvailable, remember. rewrite Hfit. wp_step. wp_step.
  destruct (cached m (availableCodecs (world s))) as [ b | ] eqn:Hc.
  - wp_go. now right.
  - wp_go.
    all: unfold overran; cbn.
    all: unfold log; cbn.
    all: match goal with
         | |- context [ if ?b then _ else _ ] => destruct b
         end; cbn; [ right | now left ].
    all: rewrite (cached_app_none _ _ _ _ Hc), String.eqb_refl.
    all: reflexivity.
Qed.

(** C6. For every MIME type that fits a slot of the cache (fewer than
    1024 bytes, none of them NUL, as every entry of the catalog), from
    every state of the process, with any other queries in between and
    whatever the hardware would answer to a new probe: provided the 32
    slots of the cache were not overrun, a later [isAvailable] for the
    same MIME type returns what the first one returned and changes
    nothing, so no probe and no other call reaches the hardware. *)
Theorem isAvailable_memoized
    (mimeType : string) (later : list string) (s : Sys) :
  qstrncpy mimeType CACHE_KEY_BYTES = mimeType ->
  let first := isAvailable mimeType s in
  let between := queries later (snd first) in
  let again := isAvailable mimeType (snd between) in
  overrun (world (snd again)) = false ->
  fst again = fst first /\ snd again = snd between.
Proof.
  intros Hfit first between again Hok.
  pose proof (isAvailable_first mimeType s Hfit) as H1.
  unfold wp in H1. fold first in H1.
  assert (Hno : forall x, overran x ->
                  overran (snd (isAvailable mimeType (snd (queries later x))))).
  { intros x Hx. apply isAvailable_overran. now apply queries_overran. }
  destruct H1 as [ H1 | H1 ].
  - apply Hno in H1. unfold overran in H1. fold between again in H1. congruence.
  - apply (queries_keeps_cached later) in H1. fold between in H1.
    unfold again. rewrite (isAvailable_hit _ _ _ H1). cbn. auto.
Qed.

Lemma isAvailable_memoized_witness :
  let s := mkSys (members 0 0 false true) (boot Examples.fading) in
  let first := isAvailable "video/avc" s in
  let between := queries ["video/hevc"] (snd first) in
  let again := isAvailable "video/avc" (snd between) in
  fst again = fst first /\ snd again = snd between.
Proof.
  apply (isAvailable_memoized "video/avc" ["video/hevc"]
           (mkSys (members 0 0 false true) (boot Examples.fading))).
  - vm_compute. reflexivity.
  - vm_compute. reflexivity.
Defined.

(** On the sample provider the first probe finds the encoder, a later
    probe would not, and the second query still answers [true]. *)
Example isAvailable_ignores_later_probe :
  let s := mkSys (members 0 0 false true) (boot Examples.fading) in
  let first := isAvailable "video/avc" s in
  let between := queries ["video/hevc"] (snd first) in
  fst first = true
  /\ next_create (snd between) = false
  /\ fst (isAvailable "video/avc" (snd between)) = true.
Proof. vm_compute. auto. Qed.

(** Every MIME type of the catalog fits a slot. *)
Lemma catalog_mime_types_fit :
  Forall (fun c => qstrncpy (NDKMediaCodecs.mimeType c) CACHE_KEY_BYTES
                   = NDKMediaCodecs.mimeType c) NDKMediaCodecs.table.
Proof. repeat constructor. Qed.

End AvailabilityCache.

Section KeyFrameInterval.

Import State Ak Hw Encoder EncoderSpec.

Lemma to_int32_small z : - 2 ^ 31 <= z < 2 ^ 31 -> Int.to_int32 z = z.
Proof. intros H. unfold Int.to_int32. rewrite Z.mod_small; lia. Qed.

Lemma to_int64_small z : - 2 ^ 63 <= z < 2 ^ 63 -> Int.to_int64 z = z.
Proof. intros H. unfold Int.to_int64. rewrite Z.mod_small; lia. Qed.

Lemma qMax_max a b : Int.qMax a b = Z.max a b.
Proof. unfold Int.qMax. destruct (Z.ltb_spec a b); lia. Qed.

(** The integer quotient of the code is the floor of the exact value. *)
Lemma keyFrameInterval_floor g rate :
  0 <= g -> 0 <= num rate -> 0 < den rate ->
  g * num rate < 2 ^ 63 -> 1000 * den rate < 2 ^ 63 ->
  g * num rate < 2 ^ 31 * (1000 * den rate) ->
  keyFrameInterval g rate
  = Z.max (Qfloor (inject_Z g * (num rate # Z.to_pos (den rate)) / 1000)) 1.
Proof.
  intros Hg Hn Hd Hgn Hkd Hlt. unfold keyFrameInterval.
  assert (Hp : 0 <= g * num rate) by (apply Z.mul_nonneg_nonneg; lia).
  assert (Hm : 0 < 1000 * den rate) by lia.
  rewrite !to_int64_small by lia.
  rewrite qMax_max, Z.quot_div_nonneg by lia.
  assert (Hq : 0 <= g * num rate / (1000 * den rate) < 2 ^ 31).
  { split; [ apply Z.div_pos; lia | apply Z.div_lt_upper_bound; lia ]. }
  rewrite to_int32_small by lia.
  f_equal.
  change (inject_Z g * (num rate # Z.to_pos (den rate)) / 1000)%Q
    with (g * num rate * 1 # Z.to_pos (den rate) * 1000)%Q.
  unfold Qfloor. rewrite Pos2Z.inj_mul, Z2Pos.id by lia.
  f_equal; lia.
Qed.

Lemma updateHeaders_keeps_format : keeps format_members updateHeaders.
Proof.
  unfold updateHeaders. intros v.
  inv_solve ltac:(unfold format_members in *; cbn in *; assumption).
Qed.

(** A successful [init] leaves a format whose key-frame interval is
    [keyFrameInterval] of the configured GOP and of the output rate. *)
Lemma init_format s :
  m_initialized (elem s) = false ->
  wp init
     (fun ok s' =>
        ok = true ->
        exists address fmt,
          m_mediaFormat (elem s') = Some (address, fmt)
          /\ MediaFormat.KEY_I_FRAME_INTERVAL fmt
             = keyFrameInterval (gop (elem s))
                 (fps (converter_outputCaps (elem s)))) s.
Proof.
  intros Hidle.
  unfold init. apply wp_bind. unfold wp at 1.
  rewrite (uninit_idle s Hidle). cbn [fst snd].
  wp_go; try discriminate.
  all: apply (wp_keeps format_members); [ apply updateHeaders_keeps_format | ].
  all: unfold format_members; cbn; intros _ s2 Hc; injection Hc as Hf Hg Hr.
  all: wp_go; intros _; rewrite Hf; eauto.
Qed.

(** C2, as amended. When an idle session is started and [init] succeeds,
    the key-frame interval stored in the hardware format is the integer
    part (the floor, not the nearest integer) of
    [gopMillis * fps / 1000], raised to at least 1, for every non-negative
    GOP and valid frame rate for which the two products
    [gopMillis * fps.num] and [1000 * fps.den] fit a [qint64] and the
    quotient fits an [int]; in particular [gopMillis = 2000] with
    [fps = 30/1] gives 60 and [gopMillis = 0] gives 1. *)
Theorem init_keyFrameInterval (s : Sys) :
  let gopMillis := gop (elem s) in
  let rate := fps (converter_outputCaps (elem s)) in
  m_initialized (elem s) = false ->
  0 <= gopMillis -> 0 <= num rate -> 0 < den rate ->
  gopMillis * num rate < 2 ^ 63 ->
  1000 * den rate < 2 ^ 63 ->
  gopMillis * num rate < 2 ^ 31 * (1000 * den rate) ->
  fst (init s) = true ->
  (exists address fmt,
     m_mediaFormat (elem (snd (init s))) = Some (address, fmt)
     /\ MediaFormat.KEY_I_FRAME_INTERVAL fmt
        = Z.max (Qfloor (inject_Z gopMillis
                         * (num rate # Z.to_pos (den rate)) / 1000)) 1
     /\ 1 <= MediaFormat.KEY_I_FRAME_INTERVAL fmt)
  /\ keyFrameInterval 2000 (mkFrac 30 1) = 60
  /\ keyFrameInterval 0 rate = 1.
Proof.
  intros gopMillis rate Hidle Hg Hn Hd Hgn Hkd Hlt Hok.
  split; [ | split ].
  - pose proof (init_format s Hidle) as H. unfold wp in H.
    destruct (H Hok) as (address & fmt & Hf & Hi).
    exists address, fmt. split; [ exact Hf | ].
    fold gopMillis rate in Hi.
    rewrite Hi, (keyFrameInterval_floor gopMillis rate Hg Hn Hd Hgn Hkd Hlt).
    split; [ reflexivity | lia ].
  - reflexivity.
  - unfold keyFrameInterval. rewrite Z.mul_0_l. reflexivity.
Qed.

Lemma init_keyFrameInterval_witness :
  let s := Examples.shaped Examples.willing Examples.caps_4x2 in
  (exists address fmt,
     m_mediaFormat (elem (snd (init s))) = Some (address, fmt)
     /\ MediaFormat.KEY_I_FRAME_INTERVAL fmt
        = Z.max (Qfloor (inject_Z 1000 * (30 # 1) / 1000)) 1
     /\ 1 <= MediaFormat.KEY_I_FRAME_INTERVAL fmt)
  /\ keyFrameInterval 2000 (mkFrac 30 1) = 60
  /\ keyFrameInterval 0 (mkFrac 30 1) = 1.
Proof.
  apply (init_keyFrameInterval
           (Examples.shaped Examples.willing Examples.caps_4x2)).
  - vm_compute. reflexivity.
  - vm_compute. discriminate.
  - vm_compute. discriminate.
  - vm_compute. reflexivity.
  - vm_compute. reflexivity.
  - vm_compute. reflexivity.
  - vm_compute. reflexivity.
  - vm_compute. reflexivity.
Defined.

(** C2, as worded, fails at the default GOP of 1000 ms and the NTSC rate
    of 30000/1001 frames per second: [init] succeeds and stores 29, the
    nearest integer to 29.97 is 30. *)
Lemma keyFrameInterval_truncates_ntsc :
  let s := Examples.shaped Examples.willing Examples.caps_ntsc in
  fst (init s) = true
  /\ option_map (fun f => MediaFormat.KEY_I_FRAME_INTERVAL (snd f))
       (m_mediaFormat (elem (snd (init s)))) = Some 29
  /\ documented_keyFrameInterval (gop (elem s))
       (fps (converter_outputCaps (elem s))) = 30
  /\ option_map (fun f => MediaFormat.KEY_I_FRAME_INTERVAL (snd f))
       (m_mediaFormat (elem (snd (init s))))
     <> Some (documented_keyFrameInterval (gop (elem s))
                (fps (converter_outputCaps (elem s)))).
Proof.
  vm_compute. repeat split; discriminate.
Qed.

End KeyFrameInterval.

(* ===================================================================== *)
(** * Properties of the recording orchestrator *)
(* ===================================================================== *)

Arguments Recording.qMax_double : simpl never.
Arguments Recording.init_pipeline : simpl never.

Section OrchestratorClaims.

Import State Ak Recording RecordingSpec.

Context {Mx AE VE : Type}.
Context {MUX : AkVideoMuxer Mx} {AENC : AkAudioEncoder AE} {VENC : AkVideoEncoder VE}.

(** C3, as amended. When a recording is stopped, the orchestrator first
    stops the video encoder, then the audio encoder; it then registers
    with the muxer, for the audio stream and for the video stream in that
    order, the last encoded time of the stream's encoder itself, in ticks
    of the stream (not divided by the stream's rate: the quotient only
    goes to the log), and only when that encoded time is positive; the
    muxer is stopped last. No other call reaches a plug-in. *)
Theorem uninit_stop_sequence (r : RecordingPrivate Mx AE VE) :
  m_isRecording r = true ->
  exists rest,
    events (snd (uninit r)) = events r ++ stop_sequence r ++ rest
    /\ plugin_calls rest = [].
Proof.
  intros Hrec.
  unfold uninit, stop_sequence, final_videoDuration, final_audioDuration,
    registered, on_video, on_audio, on_muxer, ask_video, ask_audio, ask_muxer,
    emit, when, bind, this, assign, ret.
  cbn. rewrite Hrec. cbn.
  destruct (m_videoEncoder r) as [ ve | ] eqn:Hve,
           (m_audioEncoder r) as [ ae | ] eqn:Hae,
           (m_muxer r) as [ mx | ] eqn:Hmx.
  all: repeat (progress (rewrite ?Hve, ?Hae, ?Hmx; cbn)).
  all: repeat match goal with
              | |- context [ if ?b then _ else _ ] =>
                  destruct b;
                  repeat (progress (rewrite ?Hve, ?Hae, ?Hmx; cbn))
              end.
  all: rewrite <- ?app_assoc; cbn.
  all: eexists; split; [ reflexivity | reflexivity ].
Qed.

Lemma ends_recording_bind {A B} (m : R Mx AE VE A) (k : A -> R Mx AE VE B) :
  (forall a, ends_recording (k a)) -> ends_recording (bind m k).
Proof. intros Hk r. unfold bind. destruct (m r) as [a r']. apply Hk. Qed.

(** Whatever the plug-ins do, [init_pipeline] ends with the recording
    flag set. *)
Lemma init_pipeline_records (r : RecordingPrivate Mx AE VE) :
  m_isRecording (snd (init_pipeline r)) = true.
Proof.
  revert r. change (ends_recording init_pipeline). unfold init_pipeline.
  repeat (apply ends_recording_bind; intros).
  intros r. reflexivity.
Qed.

(** [init] with a muxer, a video encoder and a directory: the pipeline is
    brought up and the result is [true]. *)
Lemma init_ready (r : RecordingPrivate Mx AE VE) mx ve :
  m_muxer r = Some mx -> m_videoEncoder r = Some ve ->
  mkpath (env r) (m_videoDirectory r) = true ->
  init r
  = (true,
     snd (init_pipeline
            (set_events (events r ++ [QDir_mkpath (m_videoDirectory r)]) r))).
Proof.
  intros Hmx Hve Hdir.
  unfold init, emit, bind, this, assign, ret.
  cbn. rewrite Hdir. cbn. rewrite Hmx. cbn. rewrite Hve. cbn.
  match goal with
  | |- context [ init_pipeline ?x ] => destruct (init_pipeline x)
  end.
  reflexivity.
Qed.

Lemma setState_start (r : RecordingPrivate Mx AE VE) :
  m_state r = ElementStateNull ->
  setState ElementStatePlaying r
  = (let (ok, r') := init r in
     if negb ok then (false, r') else enter ElementStatePlaying r').
Proof.
  intros Hs. unfold setState, bind at 1, this. rewrite Hs.
  unfold bind, ret. destruct (init r) as [ok r']. now destruct ok.
Qed.

(** C5, as amended. If [ElementStatePlaying] is requested from the
    pre-recording state [ElementStateNull] while no muxer or no video
    encoder is selected, [setState] returns [false] and every member of
    the orchestrator keeps its value: the state stays [ElementStateNull],
    nothing is recording, no plug-in is called and no signal is emitted;
    the only trace is the request to create the video directory. The
    start can be retried: once a muxer and a video encoder are selected
    and the directory can be created, the same request succeeds. (A
    request for [ElementStatePaused] is not a start: it runs no [init]
    and looks at neither the muxer nor the encoder.) *)
Theorem start_requires_muxer_and_encoder (r : RecordingPrivate Mx AE VE) :
  m_state r = ElementStateNull ->
  m_muxer r = None \/ m_videoEncoder r = None ->
  let failed := setState ElementStatePlaying r in
  failed
  = (false, set_events (events r ++ [QDir_mkpath (m_videoDirectory r)]) r)
  /\ forall muxer encoder,
       mkpath (env r) (m_videoDirectory r) = true ->
       let retry :=
         setState ElementStatePlaying
           (set_m_videoEncoder (Some encoder)
              (set_m_muxer (Some muxer) (snd failed))) in
       fst retry = true
       /\ m_state (snd retry) = ElementStatePlaying
       /\ m_isRecording (snd retry) = true.
Proof.
  intros Hs Hmiss failed.
  assert (Hfailed : failed
            = (false,
               set_events (events r ++ [QDir_mkpath (m_videoDirectory r)]) r)).
  { unfold failed. rewrite (setState_start r Hs).
    unfold init, emit, bind, this, assign, ret. cbn.
    destruct (mkpath (env r) (m_videoDirectory r)); cbn; [ | reflexivity ].
    destruct (m_muxer r) as [ mx | ]; cbn; [ | reflexivity ].
    destruct (m_videoEncoder r) as [ ve | ]; cbn; [ | reflexivity ].
    destruct Hmiss; discriminate. }
  split; [ exact Hfailed | ].
  intros muxer encoder Hdir retry.
  unfold retry. rewrite Hfailed. cbn [snd].
  set (r1 := set_m_videoEncoder (Some encoder) _).
  rewrite (setState_start r1 Hs).
  rewrite (init_ready r1 muxer encoder eq_refl eq_refl Hdir). cbn [negb].
  match goal with
  | |- context [ init_pipeline ?x ] =>
      pose proof (init_pipeline_records x) as Hrec;
      generalize dependent (snd (init_pipeline x))
  end.
  intros r2 Hrec. unfold enter, bind, assign, emit, ret. cbn.
  auto.
Qed.


End OrchestratorClaims.

Section OrchestratorExamples.

Import State Ak Recording RecordingSpec.

Lemma uninit_stop_sequence_witness :
  m_isRecording Examples.recording = true
  /\ exists rest,
       events (snd (uninit Examples.recording))
       = events Examples.recording ++ stop_sequence Examples.recording ++ rest
       /\ plugin_calls rest = [].
Proof.
  split; [ reflexivity | ].
  apply (uninit_stop_sequence Examples.recording). reflexivity.
Defined.

(** C3, as worded, fails on a recording of 60 ticks of video at 30 frames
    per second: the encoded time divided by the rate of the stream is 2,
    the muxer is given the 60 ticks of the encoder, and never the
    quotient. *)
Lemma uninit_registers_encoded_time :
  let stopped := snd (uninit Examples.recording) in
  (documented_duration 60 (mkFrac 30 1) == 2)%Q
  /\ In (Muxer_setStreamDuration CapsVideo 60) (events stopped)
  /\ ~ In (Muxer_setStreamDuration CapsVideo 2) (events stopped)
  /\ option_map sm_durations (m_muxer stopped)
     = Some [(CapsAudio, 48000); (CapsVideo, 60)].
Proof.
  cbv zeta. split; [ reflexivity | ].
  split; [ vm_compute; tauto | ].
  split; [ | vm_compute; reflexivity ].
  vm_compute. intros H.
  repeat (destruct H as [ H | H ]; [ discriminate H | ]). exact H.
Qed.

Lemma start_requires_muxer_and_encoder_witness :
  m_state Examples.unconfigured = ElementStateNull
  /\ (m_muxer Examples.unconfigured = None
      \/ m_videoEncoder Examples.unconfigured = None)
  /\ fst (setState ElementStatePlaying Examples.unconfigured) = false
  /\ m_state (snd (setState ElementStatePlaying Examples.unconfigured))
     = ElementStateNull.
Proof.
  split; [ reflexivity | ]. split; [ left; reflexivity | ].
  destruct (start_requires_muxer_and_encoder Examples.unconfigured
              eq_refl (or_introl eq_refl)) as [ H _ ].
  rewrite H. split; reflexivity.
Defined.

(** C5, as worded, fails when the recording is entered through
    [ElementStatePaused]: with no muxer and no video encoder selected the
    request is answered with [true] and the state changes, and the
    request for [ElementStatePlaying] that follows succeeds as well,
    although nothing was started. *)
Lemma paused_request_needs_no_muxer :
  let paused := setState ElementStatePaused Examples.unconfigured in
  let playing := setState ElementStatePlaying (snd paused) in
  m_state Examples.unconfigured = ElementStateNull
  /\ m_muxer Examples.unconfigured = None
  /\ m_videoEncoder Examples.unconfigured = None
  /\ fst paused = true
  /\ m_state (snd paused) = ElementStatePaused
  /\ fst playing = true
  /\ m_state (snd playing) = ElementStatePlaying
  /\ m_muxer (snd playing) = None
  /\ m_isRecording (snd playing) = false.
Proof.
  vm_compute. repeat split; reflexivity.
Qed.


End OrchestratorExamples.

(* ===================================================================== *)
(** * Further properties of the encoder session *)
(* ===================================================================== *)

Section EncoderSessions.

Import State Ak Hw Encoder EncoderSpec EncoderFacts.

(** X1. Whatever the client does with an element and whatever the
    hardware answers, the life-cycle state and the members agree: in
    [ElementStateNull] the session is not initialized, not paused and no
    codec is started; in [ElementStatePaused] and [ElementStatePlaying]
    it is initialized, [m_paused] tells which of the two it is, and the
    one started codec is [m_codec]. *)
Theorem reachable_session_lifecycle
    (sc : Script) (bitrate gop : Z) (fillGaps fpsControl : bool)
    (ops : list Op) :
  lifecycle (run ops (new_session sc bitrate gop fillGaps fpsControl)).
Proof.
  apply run_lifecycle. apply new_session_lifecycle.
Qed.

Lemma step_fpsControl op s :
  lifecycle s -> m_fpsControl (elem (step op s)) = m_fpsControl (elem s).
Proof.
  intros H. destruct op; cbn [step]; try reflexivity.
  - now destruct (setState_lifecycle st s H) as (_ & Hf & _).
  - pose proof (iVideoStream_keeps_core packet (core s) s eq_refl) as K.
    unfold core in K. now injection K.
  - pose proof (setInputCaps_keeps_core c (core s) s eq_refl) as K.
    unfold core in K. now injection K.
Qed.

Lemma run_fpsControl ops s :
  lifecycle s -> m_fpsControl (elem (run ops s)) = m_fpsControl (elem s).
Proof.
  unfold run. revert s. induction ops as [ | op ops IH ]; intros s H; cbn.
  - reflexivity.
  - rewrite IH by now apply step_lifecycle. now apply step_fpsControl.
Qed.

Lemma new_session_fpsControl sc b g fg fc :
  m_fpsControl (elem (new_session sc b g fg fc)) = fc.
Proof.
  assert (K : inv (fun s => m_fpsControl (elem s) = fc) construct).
  { unfold construct, listCodecs, setCodec.
    apply inv_bind; [ | intros; apply inv_assign; intros s H; exact H ].
    generalize NDKMediaCodecs.table. intros table.
    induction table as [ | c rest IH ]; simpl.
    - apply inv_ret.
    - apply inv_bind; [ | intros ok ].
      + unfold isAvailable, remember.
        inv_solve ltac:(cbn in *; assumption).
      + apply inv_bind; [ | intros; exact IH ].
        apply inv_when. apply inv_assign. intros s H. exact H. }
  apply K. reflexivity.
Qed.

(** X2. A frame delivered to a paused session, or to an element that has
    no frame-rate control plug-in, is dropped: [iVideoStream] returns and
    leaves the whole system as it was, in whatever state the session
    is. *)
Theorem paused_session_ignores_frames
    (sc : Script) (bitrate gop : Z) (fillGaps fpsControl : bool)
    (ops : list Op) (packet : AkVideoPacket) :
  let s := run ops (new_session sc bitrate gop fillGaps fpsControl) in
  state (elem s) = ElementStatePaused \/ fpsControl = false ->
  iVideoStream packet s = (tt, s).
Proof.
  intros s [ Hp | Hf ].
  - pose proof (run_lifecycle ops _
                  (new_session_lifecycle sc bitrate gop fillGaps fpsControl))
      as H.
    fold s in H. unfold lifecycle in H. rewrite Hp in H.
    destruct H as (_ & Hpaused & _).
    unfold iVideoStream, bind, this. cbn. now rewrite Hpaused.
  - assert (H : m_fpsControl (elem s) = false).
    { unfold s. rewrite run_fpsControl by apply new_session_lifecycle.
      now rewrite new_session_fpsControl. }
    unfold iVideoStream, bind, this. cbn. rewrite H.
    now rewrite !orb_true_r.
Qed.

Lemma paused_session_ignores_frames_witness :
  iVideoStream Examples.yuv420p_4x2
    (run [OpSetInputCaps Examples.caps_4x2; OpSetState ElementStatePaused]
         (Examples.session Examples.willing))
  = (tt, run [OpSetInputCaps Examples.caps_4x2; OpSetState ElementStatePaused]
           (Examples.session Examples.willing)).
Proof.
  apply (paused_session_ignores_frames Examples.willing
           Recording.DEFAULT_VIDEO_BITRATE Recording.DEFAULT_VIDEO_GOP
           false true
           [OpSetInputCaps Examples.caps_4x2; OpSetState ElementStatePaused]
           Examples.yuv420p_4x2).
  left. vm_compute. reflexivity.
Defined.

End EncoderSessions.


Section EncoderStart.

Import State Ak Hw Encoder EncoderSpec EncoderFacts.


Lemma wp_and {S A} (m : State S A) (Q1 Q2 : A -> S -> Prop) s :
  wp m Q1 s -> wp m Q2 s -> wp m (fun a s' => Q1 a s' /\ Q2 a s') s.
Proof. unfold wp. auto. Qed.




End EncoderStart.

Section EncoderStop.

Import State Ak Hw Encoder EncoderSpec EncoderFacts.

Ltac handles_leaf :=
  unfold elem_handles, log, emit_signal in *; cbn in *; assumption.

Lemma sendFrame_keeps_handles data info :
  keeps elem_handles (sendFrame data info).
Proof. unfold sendFrame. intros v. inv_solve handles_leaf. Qed.

Lemma uninit_drain_keeps_handles turns c :
  keeps elem_handles (uninit_drain turns c).
Proof.
  induction turns as [ | n IH ]; intros v;
    unfold uninit_drain; fold uninit_drain.
  - apply inv_ret.
  - inv_solve handles_leaf;
      try apply IH; try apply sendFrame_keeps_handles.
Qed.

Lemma remove_handle_gone h l : ~ In h (remove_handle (Some h) l).
Proof.
  unfold remove_handle. intros H. apply filter_In in H.
  destruct H as (_ & H). now rewrite Nat.eqb_refl in H.
Qed.

Lemma uninit_releases s h :
  m_initialized (elem s) = true ->
  m_codec (elem s) = Some h ->
  wp uninit
     (fun _ s' =>
        m_codec (elem s') = None
        /\ m_mediaFormat (elem s') = None
        /\ ~ In h (live (world s'))
        /\ exists before,
             calls (world s') = before ++ [stop (Some h); delete (Some h)]) s.
Proof.
  intros Hinit Hcodec.
  unfold uninit. wp_step. wp_step. rewrite Hinit. cbn.
  wp_step. wp_step. wp_step. wp_step. rewrite Hcodec.
  wp_go.
  all: apply (wp_keeps elem_handles); [ apply uninit_drain_keeps_handles | ].
  all: unfold elem_handles; cbn; intros _ s2 Hc; injection Hc as He Hr Hl.
  all: wp_go; rewrite ?He, ?Hr, ?Hl; cbn.
  all: repeat split; try apply remove_handle_gone.
  all: exists (calls (world s2)); unfold log; cbn.
  all: now rewrite <- app_assoc.
Qed.

(** X4. Stopping releases the hardware. For every session reachable from
    the constructor that is paused or playing, [setState] to
    [ElementStateNull] returns [true] and leaves the session idle: not
    initialized, not paused, without format object and without codec;
    the codec the session held was stopped and then deleted, by the last
    two calls to the provider, and is neither started nor allocated any
    more. *)
Theorem stop_releases_codec
    (sc : Script) (bitrate gop : Z) (fillGaps fpsControl : bool)
    (ops : list Op) :
  let s := run ops (new_session sc bitrate gop fillGaps fpsControl) in
  state (elem s) <> ElementStateNull ->
  let r := setState ElementStateNull s in
  fst r = true
  /\ state (elem (snd r)) = ElementStateNull
  /\ m_initialized (elem (snd r)) = false
  /\ m_paused (elem (snd r)) = false
  /\ m_codec (elem (snd r)) = None
  /\ m_mediaFormat (elem (snd r)) = None
  /\ running (world (snd r)) = []
  /\ exists h before,
       m_codec (elem s) = Some h
       /\ ~ In h (live (world (snd r)))
       /\ calls (world (snd r)) = before ++ [stop (Some h); delete (Some h)].
Proof.
  intros s Hbusy r.
  pose proof (run_lifecycle ops _
                (new_session_lifecycle sc bitrate gop fillGaps fpsControl)) as Hl.
  fold s in Hl. unfold lifecycle in Hl.
  assert (K : exists h,
             m_initialized (elem s) = true /\ m_codec (elem s) = Some h
             /\ running (world s) = [h]).
  { destruct (state (elem s)); [ congruence | | ];
      destruct Hl as (Hi & _ & h & Hc & Hr); eauto. }
  destruct K as (h & Hi & Hc & Hr).
  assert (W : wp (setState ElementStateNull)
                (fun ok s' =>
                   ok = true
                   /\ state (elem s') = ElementStateNull
                   /\ m_initialized (elem s') = false
                   /\ m_paused (elem s') = false
                   /\ m_codec (elem s') = None
                   /\ m_mediaFormat (elem s') = None
                   /\ running (world s') = []
                   /\ ~ In h (live (world s'))
                   /\ exists before,
                        calls (world s')
                        = before ++ [stop (Some h); delete (Some h)]) s).
  { unfold setState. wp_step. wp_step.
    destruct (state (elem s)) eqn:Es; [ congruence | | ]; cbn.
    all: wp_step.
    all: eapply wp_conseq;
      [ apply wp_and; [ apply (uninit_post s h Hi Hc Hr)
                      | apply (uninit_releases s h Hi Hc) ] | ].
    all: cbn; intros _ s1 ((Hs & _ & Hi1 & Hp1 & Hr1) & Hc1 & Hf1 & Hl1 & Hcalls).
    all: apply wp_AkElement_setState; [ rewrite Hs, Es; discriminate | ].
    all: cbn; repeat split; auto. }
  unfold wp in W. fold r in W.
  destruct W as (? & ? & ? & ? & ? & ? & ? & ? & before & ?).
  repeat split; auto. exists h, before. auto.
Qed.

Lemma stop_releases_codec_witness :
  let r := setState ElementStateNull Examples.playing in
  fst r = true
  /\ state (elem (snd r)) = ElementStateNull
  /\ m_initialized (elem (snd r)) = false
  /\ m_paused (elem (snd r)) = false
  /\ m_codec (elem (snd r)) = None
  /\ m_mediaFormat (elem (snd r)) = None
  /\ running (world (snd r)) = []
  /\ exists h before,
       m_codec (elem Examples.playing) = Some h
       /\ ~ In h (live (world (snd r)))
       /\ calls (world (snd r)) = before ++ [stop (Some h); delete (Some h)].
Proof.
  apply (stop_releases_codec Examples.willing
           Recording.DEFAULT_VIDEO_BITRATE Recording.DEFAULT_VIDEO_GOP
           false true
           [OpSetInputCaps Examples.caps_4x2; OpSetState ElementStatePlaying]).
  vm_compute. discriminate.
Defined.

End EncoderStop.

Section EncoderPackets.

Import State Ak Hw Encoder EncoderSpec EncoderFacts.

Variable P : AkCompressedVideoPacket -> Prop.

Ltac packets_leaf :=
  unfold all_packets, log, emit_signal, remember in *; cbn in *;
  repeat match goal with
         | |- context [ if ?b then _ else _ ] => destruct b; cbn
         end;
  rewrite ?packets_app; cbn; rewrite ?app_nil_r;
  try assumption.

Ltac packets_solve := inv_solve packets_leaf.

(** What is asked of the two loops that send packets. *)
Hypothesis uninit_drain_packets :
  forall turns c, inv (all_packets P) (uninit_drain turns c).
Hypothesis encode_drain_packets :
  forall turns c, inv (all_packets P) (encode_drain turns c).

Lemma uninit_packets : inv (all_packets P) uninit.
Proof. unfold uninit. packets_solve; try apply uninit_drain_packets. Qed.

Lemma init_packets : inv (all_packets P) init.
Proof. unfold init, updateHeaders. packets_solve; try apply uninit_packets. Qed.

Lemma encodeFrame_packets src : inv (all_packets P) (encodeFrame src).
Proof. unfold encodeFrame. packets_solve; try apply encode_drain_packets. Qed.

Lemma encodeFrames_packets out : inv (all_packets P) (encodeFrames out).
Proof.
  induction out as [ | p l IH ]; simpl.
  - apply inv_ret.
  - apply inv_bind; [ apply encodeFrame_packets | intros; apply IH ].
Qed.

Lemma iVideoStream_packets packet : inv (all_packets P) (iVideoStream packet).
Proof.
  unfold iVideoStream, fpsControl_iStream.
  packets_solve; try apply encodeFrames_packets.
Qed.

Lemma setState_packets st : inv (all_packets P) (setState st).
Proof.
  unfold setState, start_or_fail, AkElement_setState.
  packets_solve; try apply init_packets; try apply uninit_packets.
Qed.

Lemma setInputCaps_packets c : inv (all_packets P) (setInputCaps c).
Proof. unfold setInputCaps, updateOutputCaps, clear_outputCaps. packets_solve. Qed.

Lemma isAvailable_packets mime : inv (all_packets P) (isAvailable mime).
Proof. unfold isAvailable, remember. packets_solve. Qed.

Lemma listCodecs_from_packets table : inv (all_packets P) (listCodecs_from table).
Proof.
  induction table as [ | c rest IH ]; simpl.
  - apply inv_ret.
  - apply inv_bind; [ apply isAvailable_packets | intros ok ].
    apply inv_bind; [ | intros; exact IH ].
    apply inv_when. apply inv_assign. intros s H. exact H.
Qed.

Lemma step_packets op s : all_packets P s -> all_packets P (step op s).
Proof.
  intros H. destruct op; cbn [step].
  - now apply setState_packets.
  - now apply iVideoStream_packets.
  - now apply setInputCaps_packets.
  - exact H.
  - exact H.
  - exact H.
  - exact H.
Qed.

Lemma run_packets sc b g fg fc ops :
  all_packets P (run ops (new_session sc b g fg fc)).
Proof.
  assert (H0 : all_packets P (new_session sc b g fg fc)).
  { unfold new_session.
    assert (K : inv (all_packets P) construct).
    { unfold construct, listCodecs.
      apply inv_bind; [ apply listCodecs_from_packets | intros _ ].
      unfold setCodec. apply inv_assign. intros s H. exact H. }
    apply K. unfold all_packets. cbn. constructor. }
  revert H0. generalize (new_session sc b g fg fc).
  unfold run. induction ops as [ | op ops IH ]; intros s H; cbn.
  - exact H.
  - apply IH. now apply step_packets.
Qed.

End EncoderPackets.

Section EncoderConfigBuffers.

Import State Ak Hw Encoder EncoderSpec EncoderFacts.

Ltac quiet_leaf :=
  unfold all_packets, log, emit_signal in *; cbn in *;
  rewrite ?packets_app; cbn; rewrite ?app_nil_r; try assumption.

Lemma sendFrame_not_config data info :
  Z.land (flags info) AMEDIACODEC_BUFFER_FLAG_CODEC_CONFIG = 0 ->
  inv (all_packets not_codec_config) (sendFrame data info).
Proof.
  intros Hflag. unfold sendFrame. inv_solve quiet_leaf.
  apply Forall_app. split; [ assumption | ].
  constructor; [ exact Hflag | constructor ].
Qed.

Lemma uninit_drain_not_config turns c :
  inv (all_packets not_codec_config) (uninit_drain turns c).
Proof.
  induction turns as [ | n IH ]; unfold uninit_drain; fold uninit_drain.
  - apply inv_ret.
  - apply inv_bind; [ inv_solve quiet_leaf | intros [[bufferIndex info] data] ].
    destruct (bufferIndex <? 0); [ apply inv_ret | ].
    destruct (Z.land (flags info) AMEDIACODEC_BUFFER_FLAG_CODEC_CONFIG =? 0)
      eqn:E; cbn [negb]; [ | apply IH ].
    apply Z.eqb_eq in E.
    apply inv_bind; [ inv_solve quiet_leaf | intros _ ].
    apply inv_bind; [ now apply sendFrame_not_config | intros _ ].
    apply inv_bind; [ inv_solve quiet_leaf | intros _ ].
    destruct (negb _); [ apply inv_ret | apply IH ].
Qed.

Lemma encode_drain_not_config turns c :
  inv (all_packets not_codec_config) (encode_drain turns c).
Proof.
  induction turns as [ | n IH ]; unfold encode_drain; fold encode_drain.
  - apply inv_ret.
  - apply inv_bind; [ inv_solve quiet_leaf | intros [[bufferIndex info] data] ].
    destruct (bufferIndex <? 0); [ apply inv_ret | ].
    destruct (Z.land (flags info) AMEDIACODEC_BUFFER_FLAG_CODEC_CONFIG =? 0)
      eqn:E; cbn [negb]; [ | apply IH ].
    apply Z.eqb_eq in E.
    apply inv_bind; [ inv_solve quiet_leaf | intros _ ].
    apply inv_bind; [ now apply sendFrame_not_config | intros _ ].
    apply inv_bind; [ inv_solve quiet_leaf | intros _ ].
    apply IH.
Qed.

(** X5. Codec-configuration buffers never reach the stream. Whatever the
    client does with an element and whatever the hardware answers, no
    packet sent on [oStream] comes from an output buffer that carries
    [AMEDIACODEC_BUFFER_FLAG_CODEC_CONFIG]: both the encoding loop and
    the draining loop of [uninit] skip such buffers. *)
Theorem codec_config_buffers_are_not_sent
    (sc : Script) (bitrate gop : Z) (fillGaps fpsControl : bool)
    (ops : list Op) :
  Forall not_codec_config
    (packets
       (signals
          (world (run ops (new_session sc bitrate gop fillGaps fpsControl))))).
Proof.
  apply (run_packets not_codec_config
           uninit_drain_not_config encode_drain_not_config).
Qed.

End EncoderConfigBuffers.

Section EncoderFrames.

Import State Ak Hw Encoder EncoderSpec EncoderFacts.





(** X7. When the provider gives an input buffer, [encodeFrame] hands the
    frame to the hardware by exactly two submissions: the buffer is
    filled with the copies of [writeFrame] for the format of the session,
    then queued at offset 0 with the size the provider reported for the
    buffer, the presentation time of the frame in microseconds and no
    flag. *)
Theorem encodeFrame_submits_frame (src : AkVideoPacket) (s : Sys) :
  0 <= next_input_slot s ->
  submissions (snd (encodeFrame src s))
  = submissions s
    ++ [fillInputBuffer (next_input_slot s)
          (FrameWriter.copies
             (FrameWriter.writeFrame
                (option_map snd (m_mediaFormat (elem s))) src));
        queueInputBuffer (m_codec (elem s)) (next_input_slot s) 0
          (next_input_size s) (presentationTimeUs_of src) 0].
Proof.
  intros Hslot.
  assert (W : wp (encodeFrame src)
                (fun _ s' =>
                   submissions s'
                   = submissions s
                     ++ [fillInputBuffer (next_input_slot s)
                           (FrameWriter.copies
                              (FrameWriter.writeFrame
                                 (option_map snd (m_mediaFormat (elem s))) src));
                         queueInputBuffer (m_codec (elem s))
                           (next_input_slot s) 0 (next_input_size s)
                           (presentationTimeUs_of src) 0]) s).
  { unfold next_input_slot, next_input_size in *.
    unfold encodeFrame. wp_go.
    all: apply (wp_keeps elem_submissions); [ apply encode_drain_submissions | ].
    all: unfold elem_submissions; cbn; intros _ s2 Hc; injection Hc as He Hs.
    all: wp_go.
    all: unfold submissions, log in *; rewrite Hs; cbn; rewrite ?filter_app; cbn;
         rewrite ?app_nil_r.
    all: cbn in *.
    all: repeat match goal with
                | H : will_dequeue_input _ = _ |- _ => rewrite H in *
                end; cbn in *.
    all: try (rewrite <- app_assoc; reflexivity).
    all: exfalso.
    all: repeat match goal with
                | H : (0 <=? _) = false |- _ => apply Z.leb_gt in H
                end.
    all: unfold AMEDIACODEC_INFO_TRY_AGAIN_LATER in *; lia. }
  exact W.
Qed.

Lemma encodeFrame_submits_frame_witness :
  let s := mkSys (elem Examples.playing)
             (set_script
                (set_will_dequeue_input [(0, 12)] (script (world Examples.playing)))
                (world Examples.playing)) in
  submissions (snd (encodeFrame Examples.yuv420p_4x2 s))
  = submissions s
    ++ [fillInputBuffer 0
          (FrameWriter.copies
             (FrameWriter.writeFrame
                (option_map snd (m_mediaFormat (elem s))) Examples.yuv420p_4x2));
        queueInputBuffer (m_codec (elem s)) 0 0 12
          (presentationTimeUs_of Examples.yuv420p_4x2) 0].
Proof.
  apply (encodeFrame_submits_frame Examples.yuv420p_4x2
           (mkSys (elem Examples.playing)
              (set_script
                 (set_will_dequeue_input [(0, 12)]
                    (script (world Examples.playing)))
                 (world Examples.playing)))).
  vm_compute. discriminate.
Defined.

End EncoderFrames.

Section EncoderCatalog.

Import State Ak Hw Encoder EncoderSpec EncoderFacts.

Lemma new_session_catalog
    (sc : Script) (bitrate gop : Z) (fillGaps fpsControl : bool) :
  let s := new_session sc bitrate gop fillGaps fpsControl in
  m_codecs (elem s) = listed (probe_answers sc)
  /\ codec (elem s) = "vp8"
  /\ availableCodecs (world s) = probed_cache (probe_answers sc)
  /\ overrun (world s) = false
  /\ live (world s) = []
  /\ map (fun c => createEncoderByType (NDKMediaCodecs.mimeType c))
         NDKMediaCodecs.table
     = filter (fun c => match c with createEncoderByType _ => true | _ => false end)
              (calls (world s)).
Proof.
  destruct sc as [ wc wcf wst wdi wdo wdc wcv wfw ].
  destruct wc as [ | a1 [ | a2 [ | a3 [ | a4 [ | a5 rest ] ] ] ] ].
  all: repeat match goal with a : bool |- _ => destruct a end.
  all: vm_compute; repeat split.
Qed.


Ltac cache_kept :=
  unfold log, emit_signal in *; cbn in *; assumption.

Lemma sendFrame_keeps_cache data info : keeps cache_of (sendFrame data info).
Proof. unfold sendFrame. intros v. inv_solve cache_kept. Qed.

Lemma uninit_drain_keeps_cache turns c : keeps cache_of (uninit_drain turns c).
Proof.
  induction turns as [ | n IH ]; intros v;
    unfold uninit_drain; fold uninit_drain.
  - apply inv_ret.
  - inv_solve cache_kept; try apply IH; try apply sendFrame_keeps_cache.
Qed.

Lemma encode_drain_keeps_cache turns c : keeps cache_of (encode_drain turns c).
Proof.
  induction turns as [ | n IH ]; intros v;
    unfold encode_drain; fold encode_drain.
  - apply inv_ret.
  - inv_solve cache_kept; try apply IH; try apply sendFrame_keeps_cache.
Qed.

Lemma uninit_keeps_cache : keeps cache_of uninit.
Proof.
  unfold uninit. intros v. inv_solve cache_kept.
  all: try apply uninit_drain_keeps_cache.
Qed.

Lemma init_keeps_cache : keeps cache_of init.
Proof.
  unfold init, updateHeaders. intros v. inv_solve cache_kept.
  all: try apply uninit_keeps_cache.
Qed.

Lemma encodeFrames_keeps_cache out : keeps cache_of (encodeFrames out).
Proof.
  induction out as [ | p l IH ]; intros v; simpl.
  - apply inv_ret.
  - apply inv_bind; [ | intros; apply IH ].
    unfold encodeFrame. inv_solve cache_kept.
    all: try apply encode_drain_keeps_cache.
Qed.

Lemma step_keeps_cache op s : cache_of (step op s) = cache_of s.
Proof.
  destruct op; cbn [step]; try reflexivity.
  - assert (K : keeps cache_of (setState st)).
    { unfold setState, start_or_fail, AkElement_setState. intros v.
      inv_solve cache_kept.
      all: try apply init_keeps_cache; try apply uninit_keeps_cache. }
    now apply (K (cache_of s)).
  - assert (K : keeps cache_of (iVideoStream packet)).
    { unfold iVideoStream, fpsControl_iStream. intros v.
      inv_solve cache_kept. all: try apply encodeFrames_keeps_cache. }
    now apply (K (cache_of s)).
  - assert (K : keeps cache_of (setInputCaps c)).
    { unfold setInputCaps, updateOutputCaps, clear_outputCaps. intros v.
      inv_solve cache_kept. }
    now apply (K (cache_of s)).
Qed.

Lemma run_keeps_cache ops s : cache_of (run ops s) = cache_of s.
Proof.
  unfold run. revert s. induction ops as [ | op ops IH ]; intros s; cbn.
  - reflexivity.
  - now rewrite IH, step_keeps_cache.
Qed.

Lemma construct_cached a1 a2 a3 a4 a5 e w :
  availableCodecs w = probed_cache [a1; a2; a3; a4; a5] ->
  m_codecs e = [] ->
  construct (mkSys e w)
  = (tt, mkSys (set_codec "vp8"
                  (set_m_codecs (listed [a1; a2; a3; a4; a5]) e)) w).
Proof.
  intros Hc He.
  destruct w as [ sc nh lv rn cl sg ac ov ].
  destruct e as [ st ic cd br gp fg oc moc hd cs mc mf mid midx ini pa et fc ].
  cbn in Hc, He. subst ac cs.
  destruct a1, a2, a3, a4, a5; vm_compute; reflexivity.
Qed.

Lemma second_construct
    (sc : Script) (bitrate gop : Z) (fillGaps fpsControl : bool)
    (ops : list Op) (bitrate' gop' : Z) (fillGaps' fpsControl' : bool) :
  let first := new_session sc bitrate gop fillGaps fpsControl in
  let s := run ops first in
  let second :=
    snd (construct (mkSys (members bitrate' gop' fillGaps' fpsControl')
                          (world s))) in
  world second = world s
  /\ m_codecs (elem second) = m_codecs (elem first)
  /\ codec (elem second) = "vp8".
Proof.
  intros first s second.
  destruct (new_session_catalog sc bitrate gop fillGaps fpsControl)
    as (Hcodecs & _ & Hcache & _).
  fold first in Hcodecs, Hcache.
  pose proof (run_keeps_cache ops first) as K. fold s in K.
  unfold cache_of in K. injection K as K _ _. rewrite Hcache in K.
  unfold second.
  unfold probe_answers in *. cbn [NDKMediaCodecs.table List.length seq map] in *.
  rewrite (construct_cached _ _ _ _ _
             (members bitrate' gop' fillGaps' fpsControl') _ K eq_refl).
  cbn. rewrite Hcodecs. auto.
Qed.


(** X8. The constructor lists what the hardware has. In a process where
    [isAvailable] was not called yet, the constructor probes each entry
    of the catalog once, in the order of the catalog; [m_codecs] holds
    the entries for which the provider had an encoder, in that order and
    each with every pixel format of the table; the cache holds the five
    answers; every codec created by a probe was deleted again; and the
    selected codec is the first name of the catalog, ["vp8"], whether or
    not the hardware has it. *)
Theorem constructor_lists_available_codecs
    (sc : Script) (bitrate gop : Z) (fillGaps fpsControl : bool) :
  let s := new_session sc bitrate gop fillGaps fpsControl in
  m_codecs (elem s) = listed (probe_answers sc)
  /\ codec (elem s) = "vp8"
  /\ availableCodecs (world s) = probed_cache (probe_answers sc)
  /\ overrun (world s) = false
  /\ live (world s) = []
  /\ map (fun c => createEncoderByType (NDKMediaCodecs.mimeType c))
         NDKMediaCodecs.table
     = filter (fun c => match c with createEncoderByType _ => true | _ => false end)
              (calls (world s)).
Proof. apply new_session_catalog. Qed.

(** X9. A second element costs no probe. In a process where an element
    was constructed before, whatever was done with that element since,
    the constructor of another element leaves everything outside the new
    element as it was (no call reaches the provider, the cache is not
    written) and lists the same codecs as the first constructor did. *)
Theorem second_constructor_probes_nothing
    (sc : Script) (bitrate gop : Z) (fillGaps fpsControl : bool)
    (ops : list Op) (bitrate' gop' : Z) (fillGaps' fpsControl' : bool) :
  let first := new_session sc bitrate gop fillGaps fpsControl in
  let s := run ops first in
  let second :=
    snd (construct (mkSys (members bitrate' gop' fillGaps' fpsControl')
                          (world s))) in
  world second = world s
  /\ m_codecs (elem second) = m_codecs (elem first)
  /\ codec (elem second) = "vp8".
Proof. apply second_construct. Qed.

(** X10. The codec names of an element resolve through the catalog. For
    every session reachable from the constructor, [codecs] are the names
    of the catalog entries the hardware had at construction; for such a
    name [codecID] and [codecDescription] give the id and the description
    of the catalog entry of that name, and the id is not
    [VideoCodecID_unknown]; for any other name [codecID] is
    [VideoCodecID_unknown] and the description is empty. *)
Theorem codec_names_resolve
    (sc : Script) (bitrate gop : Z) (fillGaps fpsControl : bool)
    (ops : list Op) (name : string) :
  let d := elem (run ops (new_session sc bitrate gop fillGaps fpsControl)) in
  EncoderApi.codecs d = map ci_name (listed (probe_answers sc))
  /\ (In name (EncoderApi.codecs d) ->
      EncoderApi.codecID name d
      = NDKMediaCodecs.codecID (NDKMediaCodecs.byName name)
      /\ EncoderApi.codecID name d <> NDKMediaCodecs.VideoCodecID_unknown
      /\ EncoderApi.codecDescription name d
         = NDKMediaCodecs.description (NDKMediaCodecs.byName name))
  /\ (~ In name (EncoderApi.codecs d) ->
      EncoderApi.codecID name d = NDKMediaCodecs.VideoCodecID_unknown
      /\ EncoderApi.codecDescription name d = "").
Proof.
  intros d.
  destruct (new_session_catalog sc bitrate gop fillGaps fpsControl)
    as (Hcodecs & _).
  pose proof (run_keeps_cache ops
                (new_session sc bitrate gop fillGaps fpsControl)) as K.
  unfold cache_of in K. injection K as _ _ K. fold d in K.
  rewrite Hcodecs in K.
  unfold EncoderApi.codecs, EncoderApi.codecID, EncoderApi.codecDescription,
    EncoderApi.find_by_name.
  rewrite K. clear K Hcodecs d.
  unfold probe_answers. cbn [NDKMediaCodecs.table List.length seq map].
  generalize (nth 0 (will_create sc) false), (nth 1 (will_create sc) false),
    (nth 2 (will_create sc) false), (nth 3 (will_create sc) false),
    (nth 4 (will_create sc) false).
  intros a1 a2 a3 a4 a5.
  split; [ reflexivity | ].
  unfold NDKMediaCodecs.byName. 
  destruct a1, a2, a3, a4, a5; cbn -[String.eqb].
  all: repeat match goal with
              | |- context [ String.eqb ?a ?n ] =>
                  is_var n; destruct (String.eqb_spec a n); [ subst n | ]
              end; cbn.
  all: split; [ intros Hin | intros Hout ].
  all: try (repeat split; congruence).
  all: try (exfalso; cbn in Hin; intuition congruence).
  all: try (exfalso; apply Hout; cbn; tauto).
Qed.

End EncoderCatalog.

(* ===================================================================== *)
(** * Further properties of the FrameWriter *)
(* ===================================================================== *)

Section FrameWriterBuffer.

Import Ak FrameWriter.

Lemma memcpy_outside packet c (b : Buffer) a :
  a < dest c \/ dest c + count c <= a -> memcpy packet c b a = b a.
Proof.
  intros H. unfold memcpy.
  destruct (Z.leb_spec (dest c) a), (Z.ltb_spec a (dest c + count c));
    cbn; try reflexivity; lia.
Qed.

Lemma written_outside packet (l : list Memcpy) (b : Buffer) a :
  Forall (fun c => a < dest c \/ dest c + count c <= a) l ->
  fold_left (fun acc c => memcpy packet c acc) l b a = b a.
Proof.
  revert b. induction l as [ | c l IH ]; intros b H; cbn.
  - reflexivity.
  - inversion H; subst. rewrite IH by assumption. now apply memcpy_outside.
Qed.

End FrameWriterBuffer.

Section FrameWriterRegions.

Import Ak FrameWriter FrameWriterFacts.

Variable mediaFormat : option MediaFormat.AMediaFormat.
Variable packet : AkVideoPacket.

Let stride : Z := MediaFormat.getInt32 mediaFormat MediaFormat.KEY_STRIDE.
Let sliceHeight : Z :=
  clamped_sliceHeight
    (MediaFormat.getInt32 mediaFormat MediaFormat.KEY_SLICE_HEIGHT)
    (height (caps packet)).
Let oLine : Plane -> Z := oLineSize_of packet stride.
Let pls : list Plane := plane_data packet.
Let base : nat -> Z := plane_base oLine sliceHeight pls.

Hypothesis stride_int32 : 0 <= stride < 2 ^ 31.
Hypothesis sliceHeight_nonneg : 0 <= sliceHeight.
Hypothesis frame_fits_int : stride * sliceHeight < 2 ^ 31.

Hypothesis rows_whole : whole_rows sliceHeight pls.

Lemma sliceHeight_covers :
  0 <= sliceHeight /\ height (caps packet) <= sliceHeight.
Proof.
  split; [ exact sliceHeight_nonneg | ].
  unfold sliceHeight, clamped_sliceHeight. lia.
Qed.

Lemma writeFrame_copies :
  copies (writeFrame mediaFormat packet)
  = layout_copies oLine sliceHeight (height (caps packet)) pls
  /\ oData (writeFrame mediaFormat packet) = base (List.length pls).
Proof.
  unfold writeFrame, Int.for_int, planes. rewrite Nat2Z.id.
  replace (if MediaFormat.getInt32 mediaFormat MediaFormat.KEY_SLICE_HEIGHT
              <? height (caps packet)
           then height (caps packet)
           else MediaFormat.getInt32 mediaFormat MediaFormat.KEY_SLICE_HEIGHT)
    with sliceHeight
    by (unfold sliceHeight, clamped_sliceHeight;
        destruct (Z.ltb_spec
                    (MediaFormat.getInt32 mediaFormat MediaFormat.KEY_SLICE_HEIGHT)
                    (height (caps packet))); lia).
  fold stride.
  destruct (write_planes_fold packet stride sliceHeight stride_int32
              sliceHeight_covers frame_fits_int
              (List.length pls) 0 (mkWriter 0 []))
    as [Hc Hl]; [ unfold pls; lia | reflexivity | ].
  split; [ exact Hl | exact Hc ].
Qed.

Lemma whole_rows_nth k :
  sliceHeight mod 2 ^ Z.of_N (heightDiv (nth k pls empty_plane)) = 0.
Proof.
  destruct (Nat.lt_ge_cases k (List.length pls)) as [ Hk | Hk ].
  - unfold whole_rows in rows_whole. rewrite Forall_forall in rows_whole.
    apply rows_whole. now apply nth_In.
  - rewrite nth_overflow by exact Hk. cbn. apply Z.mod_1_r.
Qed.

Lemma row_fits (pl : Plane) y :
  sliceHeight mod 2 ^ Z.of_N (heightDiv pl) = 0 ->
  0 <= y < height (caps packet) ->
  0 <= Z.shiftr y (Z.of_N (heightDiv pl)) * oLine pl
  /\ Z.shiftr y (Z.of_N (heightDiv pl)) * oLine pl
     + Z.min (lineSize pl) (oLine pl)
     <= plane_extent oLine sliceHeight pl.
Proof.
  intros Hmod Hy. unfold plane_extent.
  pose proof (oLine_range packet stride stride_int32 pl) as Ho. fold oLine in Ho.
  rewrite !Z.shiftr_div_pow2 by lia.
  assert (Hp : 0 < 2 ^ Z.of_N (heightDiv pl)) by (apply Z.pow_pos_nonneg; lia).
  assert (Hs : height (caps packet) <= sliceHeight)
    by (unfold sliceHeight, clamped_sliceHeight; lia).
  apply Z.div_exact in Hmod; [ | lia ].
  set (q := sliceHeight / 2 ^ Z.of_N (heightDiv pl)) in *.
  assert (Hq : y / 2 ^ Z.of_N (heightDiv pl) < q).
  { apply Z.div_lt_upper_bound; lia. }
  assert (H0 : 0 <= y / 2 ^ Z.of_N (heightDiv pl)) by (apply Z.div_pos; lia).
  split; nia.
Qed.

Lemma plane_copies_in_plane k :
  (k < List.length pls)%nat ->
  Forall (in_plane oLine sliceHeight pls k)
    (plane_copies oLine (height (caps packet)) (base k) k
       (nth k pls empty_plane)).
Proof.
  intros Hk. unfold plane_copies, rows.
  apply Forall_map, Forall_map, Forall_forall. intros i Hi.
  apply in_seq in Hi. unfold in_plane, base, oLine, pls; cbn [dest count].
  rewrite (plane_base_succ packet stride sliceHeight k Hk).
  fold pls oLine.
  destruct (row_fits (nth k pls empty_plane) (Z.of_nat i)
              (whole_rows_nth k)) as (H1 & H2); lia.
Qed.

Lemma extent_nonneg pl : 0 <= sliceHeight -> 0 <= plane_extent oLine sliceHeight pl.
Proof.
  intros Hs. unfold plane_extent.
  pose proof (oLine_range packet stride stride_int32 pl) as Ho. fold oLine in Ho.
  apply Z.mul_nonneg_nonneg; [ lia | ].
  apply Z.shiftr_nonneg. exact Hs.
Qed.

Lemma base_mono j k :
  0 <= sliceHeight -> (j <= k <= List.length pls)%nat -> base j <= base k.
Proof.
  intros Hs. induction k as [ | k IH ]; intros Hjk.
  - replace j with 0%nat by lia. lia.
  - destruct (Nat.eq_dec j (S k)) as [ -> | Hne ]; [ lia | ].
    unfold base, oLine, pls.
    rewrite (plane_base_succ packet stride sliceHeight k) by (fold pls; lia).
    fold pls oLine base.
    pose proof (extent_nonneg (nth k pls empty_plane) Hs).
    specialize (IH ltac:(lia)). lia.
Qed.

Lemma copies_in_planes :
  Forall (fun c =>
            exists k, src_plane c = Z.of_nat k
                      /\ (k < List.length pls)%nat
                      /\ in_plane oLine sliceHeight pls k c)
         (copies (writeFrame mediaFormat packet)).
Proof.
  destruct writeFrame_copies as (-> & _).
  unfold layout_copies. apply Forall_concat, Forall_map, Forall_forall.
  intros k Hk. apply in_seq in Hk.
  pose proof (plane_copies_in_plane k ltac:(lia)) as H.
  apply Forall_forall. intros c Hc.
  exists k. split; [ | split; [ lia | ] ].
  - unfold plane_copies in Hc. apply in_map_iff in Hc.
    now destruct Hc as (y & <- & _).
  - rewrite Forall_forall in H. now apply H.
Qed.

Lemma copies_in_frame :
  Forall (fun c => 0 <= dest c
                   /\ dest c + count c <= oData (writeFrame mediaFormat packet))
         (copies (writeFrame mediaFormat packet)).
Proof.
  destruct writeFrame_copies as (Hcopies & ->).
  pose proof copies_in_planes as H.
  destruct (Z.le_gt_cases (height (caps packet)) 0) as [ Hh | Hh ].
  - rewrite Hcopies. unfold layout_copies, plane_copies, rows.
    replace (Z.to_nat (height (caps packet))) with 0%nat by lia.
    cbn [seq map]. apply Forall_concat, Forall_map, Forall_forall.
    intros; constructor.
  - assert (Hs : 0 <= sliceHeight)
      by (unfold sliceHeight, clamped_sliceHeight; lia).
    eapply Forall_impl; [ | exact H ].
    cbn. intros c (k & _ & Hk & Hlo & Hhi).
    pose proof (base_mono 0 k Hs ltac:(lia)) as H0.
    pose proof (base_mono (S k) (List.length pls) Hs ltac:(lia)) as H1.
    fold base in Hlo, Hhi.
    assert (base 0%nat = 0) by reflexivity. lia.
Qed.

End FrameWriterRegions.

(** X11. [writeFrame] keeps every plane in its own region. When the
    stride and the (clamped) slice height are not negative, their
    product (the size of the luma plane) fits the [int] the writer
    computes with, and the slice height is a multiple of the height
    subsampling of every plane, every [memcpy] of a frame is a copy of
    one of its planes and lies within the region that the layout gives
    to that plane, from the plane's base to the base of the next one: no
    row of a plane is written over another plane. *)
Theorem writeFrame_copies_stay_in_plane
    (mediaFormat : option MediaFormat.AMediaFormat) (packet : Ak.AkVideoPacket) :
  let stride := MediaFormat.getInt32 mediaFormat MediaFormat.KEY_STRIDE in
  let sliceHeight :=
    FrameWriter.clamped_sliceHeight
      (MediaFormat.getInt32 mediaFormat MediaFormat.KEY_SLICE_HEIGHT)
      (Ak.height (Ak.caps packet)) in
  0 <= stride < 2 ^ 31 ->
  0 <= sliceHeight ->
  stride * sliceHeight < 2 ^ 31 ->
  FrameWriterFacts.whole_rows sliceHeight (Ak.plane_data packet) ->
  Forall (fun c =>
            exists k, FrameWriter.src_plane c = Z.of_nat k
                      /\ (k < List.length (Ak.plane_data packet))%nat
                      /\ FrameWriterFacts.in_plane
                            (FrameWriter.oLineSize_of packet stride)
                            sliceHeight (Ak.plane_data packet) k c)
         (FrameWriter.copies (FrameWriter.writeFrame mediaFormat packet)).
Proof.
  intros stride sliceHeight Hstride Hslice Hfits Hrows.
  exact (copies_in_planes mediaFormat packet Hstride Hslice Hfits Hrows).
Qed.

Lemma writeFrame_copies_stay_in_plane_witness :
  Forall (fun c =>
            exists k, FrameWriter.src_plane c = Z.of_nat k
                      /\ (k < 3)%nat
                      /\ FrameWriterFacts.in_plane
                            (FrameWriter.oLineSize_of Examples.yuv420p_4x2 4)
                            2 (Ak.plane_data Examples.yuv420p_4x2) k c)
         (FrameWriter.copies
            (FrameWriter.writeFrame (Some Examples.format_4x2)
               Examples.yuv420p_4x2)).
Proof.
  apply (writeFrame_copies_stay_in_plane (Some Examples.format_4x2)
           Examples.yuv420p_4x2).
  - simpl. lia.
  - vm_compute. discriminate.
  - vm_compute. reflexivity.
  - repeat constructor.
Defined.

(** X12. [writeFrame] writes nothing outside the frame. Under the same
    conditions (stride and slice height not negative, their product
    within [int], whole rows in every plane), a byte of the input buffer before the start of the
    buffer or at or past the final position of the cursor (the end of
    the last plane's region) has the same value after [writeFrame] as
    before it. *)
Theorem writeFrame_leaves_rest_of_buffer
    (mediaFormat : option MediaFormat.AMediaFormat) (packet : Ak.AkVideoPacket)
    (b : FrameWriter.Buffer) (a : Z) :
  let stride := MediaFormat.getInt32 mediaFormat MediaFormat.KEY_STRIDE in
  let sliceHeight :=
    FrameWriter.clamped_sliceHeight
      (MediaFormat.getInt32 mediaFormat MediaFormat.KEY_SLICE_HEIGHT)
      (Ak.height (Ak.caps packet)) in
  0 <= stride < 2 ^ 31 ->
  0 <= sliceHeight ->
  stride * sliceHeight < 2 ^ 31 ->
  FrameWriterFacts.whole_rows sliceHeight (Ak.plane_data packet) ->
  a < 0 \/ FrameWriter.oData (FrameWriter.writeFrame mediaFormat packet) <= a ->
  FrameWriter.written mediaFormat packet b a = b a.
Proof.
  intros stride sliceHeight Hstride Hslice Hfits Hrows Ha.
  unfold FrameWriter.written. apply written_outside.
  eapply Forall_impl;
    [ | exact (copies_in_frame mediaFormat packet Hstride Hslice Hfits Hrows) ].
  cbn. intros c (H0 & H1). lia.
Qed.

Lemma writeFrame_leaves_rest_of_buffer_witness :
  FrameWriter.written (Some Examples.format_4x2) Examples.yuv420p_4x2
    (fun _ => Byte.xff) 12
  = Byte.xff.
Proof.
  apply (writeFrame_leaves_rest_of_buffer (Some Examples.format_4x2)
           Examples.yuv420p_4x2 (fun _ => Byte.xff) 12).
  - simpl. lia.
  - vm_compute. discriminate.
  - vm_compute. reflexivity.
  - repeat constructor.
  - right. vm_compute. discriminate.
Defined.

(* ===================================================================== *)
(** * Capabilities, formats and the catalogs *)
(* ===================================================================== *)

Section Equalities.

Import Ak Hw.

Lemma PixelFormat_eqb_eq a b : PixelFormat_eqb a b = true <-> a = b.
Proof.
  split.
  - destruct a, b; cbn; intros H; try discriminate; try reflexivity.
    apply Z.eqb_eq in H. now subst.
  - intros <-. destruct a; cbn; try reflexivity. apply Z.eqb_refl.
Qed.

Lemma AkFrac_eqb_eq a b : AkFrac_eqb a b = true <-> a = b.
Proof.
  unfold AkFrac_eqb. rewrite andb_true_iff, !Z.eqb_eq.
  destruct a, b; cbn. split; [ intros (-> & ->) | intros H; injection H ]; auto.
Qed.

Lemma AkVideoCaps_eqb_eq a b : AkVideoCaps_eqb a b = true <-> a = b.
Proof.
  unfold AkVideoCaps_eqb.
  rewrite !andb_true_iff, PixelFormat_eqb_eq, !Z.eqb_eq, AkFrac_eqb_eq.
  destruct a, b; cbn.
  split; [ intros (((-> & ->) & ->) & ->) | intros H; injection H ]; auto.
Qed.

Lemma codecID_eqb_eq a b : NDKMediaCodecs.codecID_eqb a b = true <-> a = b.
Proof.
  split.
  - destruct a, b; cbn; intros H; try discriminate; try reflexivity.
    apply Z.eqb_eq in H. now subst.
  - intros <-. destruct a; cbn; try reflexivity. apply Z.eqb_refl.
Qed.

Lemma AkCompressedVideoCaps_eqb_eq a b :
  AkCompressedVideoCaps_eqb a b = true <-> a = b.
Proof.
  unfold AkCompressedVideoCaps_eqb.
  rewrite !andb_true_iff, codecID_eqb_eq, AkVideoCaps_eqb_eq, Z.eqb_eq.
  destruct a, b; cbn.
  split; [ intros ((-> & ->) & ->) | intros H; injection H ]; auto.
Qed.

End Equalities.

Section EncoderCaps.

Import State Ak Hw Encoder EncoderSpec EncoderFacts.

Lemma clear_outputCaps_twice s :
  clear_outputCaps (snd (clear_outputCaps s)) = (tt, snd (clear_outputCaps s)).
Proof.
  unfold clear_outputCaps, emit, effect, assign, this, bind, ret. cbn.
  destruct (AkCompressedVideoCaps_valid (m_outputCaps (elem s))) eqn:E; cbn.
  - reflexivity.
  - now rewrite E.
Qed.

Lemma clear_outputCaps_members s :
  let d' := elem (snd (clear_outputCaps s)) in
  inputCaps d' = inputCaps (elem s) /\ codec d' = codec (elem s)
  /\ m_codecs d' = m_codecs (elem s) /\ Encoder.bitrate d' = Encoder.bitrate (elem s).
Proof.
  unfold clear_outputCaps, emit, effect, assign, this, bind, ret. cbn.
  destruct (AkCompressedVideoCaps_valid (m_outputCaps (elem s))); cbn; auto.
Qed.

(** X13. Refreshing the output capabilities twice is the same as
    refreshing them once: whatever the state of the element, a second
    [updateOutputCaps] right after the first changes no member and emits
    no signal. *)
Theorem updateOutputCaps_idempotent (s : Sys) :
  updateOutputCaps (snd (updateOutputCaps s)) = (tt, snd (updateOutputCaps s)).
Proof.
  remember (snd (updateOutputCaps s)) as r eqn:Er.
  unfold updateOutputCaps, bind at 1, this at 1 in Er. cbv beta iota in Er.
  assert (Hclear : r = snd (clear_outputCaps s) ->
                   (AkVideoCaps_valid (inputCaps (elem s)) = false
                    \/ NDKMediaCodecs.codecID_eqb (codecID (elem s))
                         NDKMediaCodecs.VideoCodecID_unknown = true
                    \/ find_codec (elem s) = None) ->
                   updateOutputCaps r = (tt, r)).
  { intros -> H.
    destruct (clear_outputCaps_members s) as (Hi & Hc & Hm & Hb).
    unfold updateOutputCaps, bind at 1, this at 1. cbv beta iota.
    rewrite Hi. unfold codecID, find_codec in *. rewrite Hc, Hm.
    destruct (AkVideoCaps_valid (inputCaps (elem s))); cbn [negb];
      [ | apply clear_outputCaps_twice ].
    destruct (NDKMediaCodecs.codecID_eqb _ _);
      [ apply clear_outputCaps_twice | ].
    destruct (find _ _); [ | apply clear_outputCaps_twice ].
    destruct H as [ H | [ H | H ] ]; discriminate. }
  destruct (AkVideoCaps_valid (inputCaps (elem s))) eqn:Ev; cbn [negb] in Er;
    [ | apply Hclear; auto ].
  destruct (NDKMediaCodecs.codecID_eqb (codecID (elem s))
              NDKMediaCodecs.VideoCodecID_unknown) eqn:Eid;
    [ apply Hclear; auto | ].
  destruct (find_codec (elem s)) as [ it | ] eqn:Ef;
    [ | apply Hclear; auto ].
  clear Hclear. cbv zeta in Er.
  unfold bind at 1, assign at 1 in Er. cbv beta iota in Er.
  match type of Er with
  | context [ AkCompressedVideoCaps_eqb ?a ?b ] =>
      destruct (AkCompressedVideoCaps_eqb a b) eqn:Eo
  end.
  - unfold ret in Er. cbn [snd] in Er. subst r.
    unfold updateOutputCaps, bind, this, assign, emit, effect, ret.
    unfold set_converter_outputCaps.
    cbn [elem world fst snd inputCaps].
    rewrite Ev. cbn [negb].
    unfold codecID, find_codec in *.
    cbn [codec m_codecs Encoder.bitrate m_outputCaps converter_outputCaps].
    rewrite Eid, Ef. rewrite Ef in Eo. cbv beta iota zeta in Eo |- *.
    rewrite Eo. reflexivity.
  - unfold bind, assign, emit, effect, ret in Er. cbn [snd] in Er. subst r.
    unfold updateOutputCaps, bind, this, assign, emit, effect, ret.
    unfold set_converter_outputCaps, set_m_outputCaps.
    cbn [elem world fst snd inputCaps codec m_codecs Encoder.bitrate
         m_outputCaps converter_outputCaps].
    rewrite Ev. cbn [negb].
    unfold codecID, find_codec in *.
    cbn [codec m_codecs Encoder.bitrate m_outputCaps converter_outputCaps].
    rewrite Eid, Ef. cbv beta iota zeta.
    rewrite (proj2 (AkCompressedVideoCaps_eqb_eq _ _) eq_refl).
    reflexivity.
Qed.
Lemma find_listed a1 a2 a3 a4 a5 (name : string) :
  let l := listed [a1; a2; a3; a4; a5] in
  (In name (map ci_name l) ->
     find (fun ci => String.eqb (ci_name ci) name) l
     = Some (info_of (NDKMediaCodecs.byName name))
     /\ NDKMediaCodecs.codecID (NDKMediaCodecs.byName name)
        <> NDKMediaCodecs.VideoCodecID_unknown)
  /\ (~ In name (map ci_name l) ->
      find (fun ci => String.eqb (ci_name ci) name) l = None).
Proof.
  unfold NDKMediaCodecs.byName.
  destruct a1, a2, a3, a4, a5; cbn -[String.eqb].
  all: repeat match goal with
              | |- context [ String.eqb ?a ?n ] =>
                  is_var n; destruct (String.eqb_spec a n); [ subst n | ]
              end; cbn.
  all: split; [ intros Hin | intros Hout ].
  all: try (split; [ reflexivity | discriminate ]).
  all: try reflexivity.
  all: try (exfalso; cbn in Hin; intuition congruence).
  all: try (exfalso; apply Hout; cbn; tauto).
Qed.

Lemma reachable_codecs sc b g fg fc ops :
  m_codecs (elem (run ops (new_session sc b g fg fc)))
  = listed (probe_answers sc).
Proof.
  destruct (new_session_catalog sc b g fg fc) as (Hcodecs & _).
  pose proof (run_keeps_cache ops (new_session sc b g fg fc)) as K.
  unfold cache_of in K. injection K as _ _ K. now rewrite K.
Qed.

Lemma reachable_find_codec sc b g fg fc ops :
  let s := run ops (new_session sc b g fg fc) in
  (In (codec (elem s)) (EncoderApi.codecs (elem s)) ->
     find_codec (elem s)
     = Some (info_of (NDKMediaCodecs.byName (codec (elem s))))
     /\ NDKMediaCodecs.codecID (NDKMediaCodecs.byName (codec (elem s)))
        <> NDKMediaCodecs.VideoCodecID_unknown)
  /\ (~ In (codec (elem s)) (EncoderApi.codecs (elem s)) ->
      find_codec (elem s) = None).
Proof.
  intros s. unfold EncoderApi.codecs, find_codec.
  unfold s. rewrite reachable_codecs.
  unfold probe_answers. cbn [NDKMediaCodecs.table List.length seq map].
  apply find_listed.
Qed.

Lemma converted_supported c :
  In (format (converted c)) PixelFormatsTable.formats.
Proof.
  unfold converted; cbn [format].
  destruct (existsb _ _) eqn:E; [ | cbn; auto ].
  apply existsb_exists in E. destruct E as (f & Hf & E).
  apply PixelFormat_eqb_eq in E. now rewrite E.
Qed.

(** X14. The input shape fixes what the converter and the stream get.
    For every session reachable from the constructor whose selected codec
    is one the hardware has and whose input capabilities are valid,
    [updateOutputCaps] makes the converter produce frames of the size of
    the input in a pixel format of the table (the one of the input when
    the table has it, [yuv420p] otherwise) at the frame rate of the input
    (30/1 when the input has no valid rate); the output capabilities of
    the stream become the id of the codec in the catalog, these raw
    capabilities and the bitrate of the element, and [outputCapsChanged]
    is emitted with them exactly when they differ from the ones held
    before. *)
Theorem updateOutputCaps_shapes_output_caps
    (sc : Script) (bitrate gop : Z) (fillGaps fpsControl : bool)
    (ops : list Op) :
  let s := run ops (new_session sc bitrate gop fillGaps fpsControl) in
  In (codec (elem s)) (EncoderApi.codecs (elem s)) ->
  AkVideoCaps_valid (inputCaps (elem s)) = true ->
  let s' := snd (updateOutputCaps s) in
  let oc :=
    mkCompressedCaps
      (NDKMediaCodecs.codecID (NDKMediaCodecs.byName (codec (elem s))))
      (converted (inputCaps (elem s))) (Encoder.bitrate (elem s)) in
  converter_outputCaps (elem s') = converted (inputCaps (elem s))
  /\ In (format (converter_outputCaps (elem s'))) PixelFormatsTable.formats
  /\ m_outputCaps (elem s') = oc
  /\ (m_outputCaps (elem s) = oc -> signals (world s') = signals (world s))
  /\ (m_outputCaps (elem s) <> oc ->
      signals (world s') = signals (world s) ++ [outputCapsChanged oc]).
Proof.
  intros s Hlisted Hvalid.
  destruct (reachable_find_codec sc bitrate gop fillGaps fpsControl ops)
    as (Hfind & _).
  fold s in Hfind. destruct (Hfind Hlisted) as (Hf & Hid). clear Hfind.
  cbv zeta.
  assert (W : wp updateOutputCaps
                (fun _ s' =>
                   converter_outputCaps (elem s')
                   = converted (inputCaps (elem s))
                   /\ m_outputCaps (elem s')
                      = mkCompressedCaps
                          (NDKMediaCodecs.codecID
                             (NDKMediaCodecs.byName (codec (elem s))))
                          (converted (inputCaps (elem s)))
                          (Encoder.bitrate (elem s))
                   /\ (m_outputCaps (elem s)
                       = mkCompressedCaps
                           (NDKMediaCodecs.codecID
                              (NDKMediaCodecs.byName (codec (elem s))))
                           (converted (inputCaps (elem s)))
                           (Encoder.bitrate (elem s)) ->
                       signals (world s') = signals (world s))
                   /\ (m_outputCaps (elem s)
                       <> mkCompressedCaps
                            (NDKMediaCodecs.codecID
                               (NDKMediaCodecs.byName (codec (elem s))))
                            (converted (inputCaps (elem s)))
                            (Encoder.bitrate (elem s)) ->
                       signals (world s')
                       = signals (world s)
                         ++ [outputCapsChanged
                               (mkCompressedCaps
                                  (NDKMediaCodecs.codecID
                                     (NDKMediaCodecs.byName (codec (elem s))))
                                  (converted (inputCaps (elem s)))
                                  (Encoder.bitrate (elem s)))])) s).
  { unfold updateOutputCaps. wp_step. wp_step.
    rewrite Hvalid. cbn [negb].
    unfold codecID, find_codec in *.
    rewrite Hf. cbn [ci_codecID info_of].
    destruct (NDKMediaCodecs.codecID_eqb _ _) eqn:Eid.
    { apply codecID_eqb_eq in Eid. contradiction. }
    cbn [ci_formats info_of].
    wp_step. wp_step.
    match goal with
    | |- wp (if ?b then _ else _) _ _ => destruct b eqn:Eout
    end.
    - apply AkCompressedVideoCaps_eqb_eq in Eout. cbn in Eout.
      wp_go. split; [ reflexivity | ]. split; [ exact Eout | ].
      split; [ reflexivity | ]. intros Hne. now elim Hne.
    - wp_go. split; [ reflexivity | ]. split; [ reflexivity | ].
      split; [ | reflexivity ].
      intros Heq. apply AkCompressedVideoCaps_eqb_eq in Heq.
      unfold converted in Heq. cbn in Heq, Eout. congruence. }
  unfold wp in W. destruct W as (H1 & H2 & H3 & H4).
  repeat split; auto. rewrite H1. apply converted_supported.
Qed.

Lemma clear_outputCaps_post s :
  wp clear_outputCaps
     (fun _ s' =>
        AkCompressedVideoCaps_valid (m_outputCaps (elem s')) = false
        /\ (AkCompressedVideoCaps_valid (m_outputCaps (elem s)) = true ->
            m_outputCaps (elem s') = no_caps
            /\ signals (world s')
               = signals (world s) ++ [outputCapsChanged no_caps])
        /\ (AkCompressedVideoCaps_valid (m_outputCaps (elem s)) = false ->
            s' = s)) s.
Proof.
  unfold clear_outputCaps. wp_step. wp_step.
  destruct (AkCompressedVideoCaps_valid (m_outputCaps (elem s))) eqn:E; cbn.
  - wp_go. split; [ reflexivity | ]. split; [ | discriminate ].
    intros _. split; reflexivity.
  - wp_go. split; [ exact E | ]. split; [ discriminate | ].
    intros _. now destruct s.
Qed.

(** X15. An input that cannot be encoded clears the output capabilities.
    For every session reachable from the constructor, when the input
    capabilities are not valid, or while the selected codec is not one
    the hardware has, the output capabilities of the stream are not valid
    after [updateOutputCaps]: if they were valid before, they are reset
    to the default-constructed value and [outputCapsChanged] is emitted
    with it; if they were not, nothing changes. *)
Theorem unusable_input_clears_output_caps
    (sc : Script) (bitrate gop : Z) (fillGaps fpsControl : bool)
    (ops : list Op) :
  let s := run ops (new_session sc bitrate gop fillGaps fpsControl) in
  AkVideoCaps_valid (inputCaps (elem s)) = false
  \/ ~ In (codec (elem s)) (EncoderApi.codecs (elem s)) ->
  let s' := snd (updateOutputCaps s) in
  AkCompressedVideoCaps_valid (m_outputCaps (elem s')) = false
  /\ (AkCompressedVideoCaps_valid (m_outputCaps (elem s)) = true ->
      m_outputCaps (elem s') = no_caps
      /\ signals (world s') = signals (world s) ++ [outputCapsChanged no_caps])
  /\ (AkCompressedVideoCaps_valid (m_outputCaps (elem s)) = false ->
      s' = s).
Proof.
  intros s Hbad.
  destruct (reachable_find_codec sc bitrate gop fillGaps fpsControl ops)
    as (_ & Hfind).
  fold s in Hfind. cbv zeta.
  pose proof (clear_outputCaps_post s) as Hclear. unfold wp in Hclear.
  assert (E : updateOutputCaps s = clear_outputCaps s).
  { unfold updateOutputCaps, bind at 1, this at 1. cbv beta iota.
    destruct (AkVideoCaps_valid (inputCaps (elem s))) eqn:Ev; cbn [negb];
      [ | reflexivity ].
    destruct Hbad as [ Hbad | Hbad ]; [ discriminate | ].
    specialize (Hfind Hbad).
    unfold codecID, find_codec in *. rewrite Hfind. reflexivity. }
  rewrite E. exact Hclear.
Qed.

End EncoderCaps.
Section EncoderCapsExamples.

Import State Ak Hw Encoder EncoderSpec EncoderFacts.

Lemma updateOutputCaps_shapes_output_caps_witness :
  let s := run [OpSetInputCaps Examples.caps_ntsc; OpSetBitrate 2000000]
             (new_session Examples.willing
                Recording.DEFAULT_VIDEO_BITRATE
                Recording.DEFAULT_VIDEO_GOP false true) in
  In (codec (elem s)) (EncoderApi.codecs (elem s))
  /\ AkVideoCaps_valid (inputCaps (elem s)) = true
  /\ let s' := snd (updateOutputCaps s) in
     let oc :=
       mkCompressedCaps
         (NDKMediaCodecs.codecID (NDKMediaCodecs.byName (codec (elem s))))
         (converted (inputCaps (elem s))) (Encoder.bitrate (elem s)) in
     converter_outputCaps (elem s') = converted (inputCaps (elem s))
     /\ In (format (converter_outputCaps (elem s'))) PixelFormatsTable.formats
     /\ m_outputCaps (elem s') = oc
     /\ (m_outputCaps (elem s) = oc -> signals (world s') = signals (world s))
     /\ (m_outputCaps (elem s) <> oc ->
         signals (world s') = signals (world s) ++ [outputCapsChanged oc]).
Proof.
  assert (H1 : let s := run [OpSetInputCaps Examples.caps_ntsc;
                             OpSetBitrate 2000000]
                          (new_session Examples.willing
                             Recording.DEFAULT_VIDEO_BITRATE
                             Recording.DEFAULT_VIDEO_GOP false true) in
               In (codec (elem s)) (EncoderApi.codecs (elem s))).
  { vm_compute. auto. }
  assert (H2 : let s := run [OpSetInputCaps Examples.caps_ntsc;
                             OpSetBitrate 2000000]
                          (new_session Examples.willing
                             Recording.DEFAULT_VIDEO_BITRATE
                             Recording.DEFAULT_VIDEO_GOP false true) in
               AkVideoCaps_valid (inputCaps (elem s)) = true).
  { vm_compute. reflexivity. }
  split; [ exact H1 | ]. split; [ exact H2 | ].
  exact (updateOutputCaps_shapes_output_caps Examples.willing
           Recording.DEFAULT_VIDEO_BITRATE Recording.DEFAULT_VIDEO_GOP
           false true [OpSetInputCaps Examples.caps_ntsc; OpSetBitrate 2000000]
           H1 H2).
Defined.

Lemma unusable_input_clears_output_caps_witness :
  let s := run [OpSetInputCaps Examples.caps_4x2;
                OpSetCodec "no such codec"]
             (new_session Examples.willing
                Recording.DEFAULT_VIDEO_BITRATE
                Recording.DEFAULT_VIDEO_GOP false true) in
  (AkVideoCaps_valid (inputCaps (elem s)) = false
   \/ ~ In (codec (elem s)) (EncoderApi.codecs (elem s)))
  /\ let s' := snd (updateOutputCaps s) in
     AkCompressedVideoCaps_valid (m_outputCaps (elem s')) = false
     /\ (AkCompressedVideoCaps_valid (m_outputCaps (elem s)) = true ->
         m_outputCaps (elem s') = no_caps
         /\ signals (world s')
            = signals (world s) ++ [outputCapsChanged no_caps])
     /\ (AkCompressedVideoCaps_valid (m_outputCaps (elem s)) = false ->
         s' = s).
Proof.
  assert (H : let s := run [OpSetInputCaps Examples.caps_4x2;
                            OpSetCodec "no such codec"]
                         (new_session Examples.willing
                            Recording.DEFAULT_VIDEO_BITRATE
                            Recording.DEFAULT_VIDEO_GOP false true) in
              AkVideoCaps_valid (inputCaps (elem s)) = false
              \/ ~ In (codec (elem s)) (EncoderApi.codecs (elem s))).
  { right. vm_compute. intuition discriminate. }
  split; [ exact H | ].
  exact (unusable_input_clears_output_caps Examples.willing
           Recording.DEFAULT_VIDEO_BITRATE Recording.DEFAULT_VIDEO_GOP
           false true [OpSetInputCaps Examples.caps_4x2;
                       OpSetCodec "no such codec"] H).
Defined.

End EncoderCapsExamples.

Section Catalogs.

Import Ak Hw Encoder.

(** X16. The row stride that [init] stores in the format is the width of
    the frame rounded up to the next even number, for every pixel format
    of the table and every width below [2^31 - 1]: it is never less than
    the width and exceeds it by at most one byte. *)
Theorem stride_rounds_width_up (c : AkVideoCaps) :
  In (format c) PixelFormatsTable.formats ->
  0 <= width c < 2 ^ 31 - 1 ->
  Int.to_int32 (stride_of c) = 2 * ((width c + 1) / 2)
  /\ width c <= Int.to_int32 (stride_of c) <= width c + 1.
Proof.
  intros Hf Hw.
  assert (Hbits : PixelFormatsTable.plane0_bitsSize (format c) = 8).
  { cbn in Hf. destruct Hf as [ <- | [ <- | [ <- | [] ] ] ]; reflexivity. }
  assert (Hs : stride_of c = 2 * ((width c + 1) / 2)).
  { unfold stride_of. rewrite Hbits.
    change 1 with (Z.ones 1) at 1. rewrite Z.land_ones by lia.
    change (2 ^ 1) with 2.
    pose proof (Z.mod_pos_bound (width c) 2 ltac:(lia)) as Hm.
    pose proof (Z.div_mod (width c) 2 ltac:(lia)) as Hd.
    unfold Int.to_size_t.
    destruct (Z.eqb_spec (width c mod 2) 0) as [ E | E ]; cbn [negb].
    - rewrite (Z.mod_small (width c)) by lia.
      rewrite (Z.mod_small (8 * width c)) by lia.
      replace (width c + 1) with (1 + (width c / 2) * 2) by lia.
      rewrite Z.div_add by lia. change (1 / 2) with 0.
      replace (8 * width c) with ((width c) * 8) by lia.
      rewrite Z.div_mul by lia. lia.
    - rewrite (Z.mod_small (width c + 1)) by lia.
      rewrite (Z.mod_small (8 * (width c + 1))) by lia.
      replace (8 * (width c + 1)) with ((width c + 1) * 8) by lia.
      rewrite Z.div_mul by lia.
      replace (width c + 1) with ((width c / 2 + 1) * 2) by lia.
      rewrite Z.div_mul by lia. lia. }
  assert (Hr : 0 <= 2 * ((width c + 1) / 2) <= width c + 1).
  { pose proof (Z.mul_div_le (width c + 1) 2 ltac:(lia)).
    pose proof (Z.div_pos (width c + 1) 2 ltac:(lia) ltac:(lia)). lia. }
  assert (Hge : width c <= 2 * ((width c + 1) / 2)).
  { pose proof (Z.div_mod (width c + 1) 2 ltac:(lia)) as Hd.
    pose proof (Z.mod_pos_bound (width c + 1) 2 ltac:(lia)). lia. }
  rewrite Hs. unfold Int.to_int32.
  rewrite Z.mod_small by lia.
  split; lia.
Qed.

Lemma stride_rounds_width_up_witness :
  Int.to_int32 (stride_of (mkVideoCaps Format_yuv420p 641 480 (mkFrac 30 1)))
  = 2 * ((641 + 1) / 2)
  /\ 641 <= Int.to_int32
              (stride_of (mkVideoCaps Format_yuv420p 641 480 (mkFrac 30 1)))
     <= 641 + 1.
Proof.
  apply (stride_rounds_width_up (mkVideoCaps Format_yuv420p 641 480 (mkFrac 30 1))).
  - cbn. auto.
  - cbn. lia.
Defined.

(** X17. The two lookups of the pixel-format table are inverse to each
    other on the table: for a pixel format of the table, [byFormat] gives
    an entry with that format and a colour format of the NDK that is not
    0, and [byNdkFormat] of that colour format gives the same entry back;
    for any other pixel format [byFormat] gives the terminating entry,
    whose colour format is 0. *)
Theorem pixel_format_lookups (f : PixelFormat) :
  (In f PixelFormatsTable.formats ->
     PixelFormatsTable.format (PixelFormatsTable.byFormat f) = f
     /\ PixelFormatsTable.ndkFormat (PixelFormatsTable.byFormat f) <> 0
     /\ PixelFormatsTable.byNdkFormat
          (PixelFormatsTable.ndkFormat (PixelFormatsTable.byFormat f))
        = PixelFormatsTable.byFormat f)
  /\ (~ In f PixelFormatsTable.formats ->
      PixelFormatsTable.byFormat f = PixelFormatsTable.sentinel).
Proof.
  split.
  - cbn. intros [ <- | [ <- | [ <- | [] ] ] ]; repeat split; discriminate.
  - intros Hout. destruct f; try reflexivity; exfalso; apply Hout; cbn; auto.
Qed.

(** X18. The two lookups of the codec catalog agree. For a codec id of
    the catalog, [byCodecID] gives an entry with that id and a MIME type,
    and [byName] of the name of that entry gives the same entry back; for
    any other codec id ([VideoCodecID_unknown] or an id the catalog does
    not have) [byCodecID] gives the terminating entry, whose id is
    [VideoCodecID_unknown]. For a name of [codecs], [byName] gives an
    entry with that name and a MIME type, and [byCodecID] of the id of
    that entry gives the same entry back; for any other name [byName]
    gives the terminating entry. *)
Theorem codec_catalog_lookups
    (id : NDKMediaCodecs.AkVideoEncoderCodecID) (name : string) :
  (In id (map NDKMediaCodecs.codecID NDKMediaCodecs.table) ->
     NDKMediaCodecs.codecID (NDKMediaCodecs.byCodecID id) = id
     /\ NDKMediaCodecs.mimeType (NDKMediaCodecs.byCodecID id) <> ""
     /\ NDKMediaCodecs.byName
          (NDKMediaCodecs.name (NDKMediaCodecs.byCodecID id))
        = NDKMediaCodecs.byCodecID id)
  /\ (~ In id (map NDKMediaCodecs.codecID NDKMediaCodecs.table) ->
      NDKMediaCodecs.byCodecID id = NDKMediaCodecs.sentinel
      /\ NDKMediaCodecs.codecID (NDKMediaCodecs.byCodecID id)
         = NDKMediaCodecs.VideoCodecID_unknown)
  /\ (In name NDKMediaCodecs.codecs ->
      NDKMediaCodecs.name (NDKMediaCodecs.byName name) = name
      /\ NDKMediaCodecs.mimeType (NDKMediaCodecs.byName name) <> ""
      /\ NDKMediaCodecs.byCodecID
           (NDKMediaCodecs.codecID (NDKMediaCodecs.byName name))
         = NDKMediaCodecs.byName name)
  /\ (~ In name NDKMediaCodecs.codecs ->
      NDKMediaCodecs.byName name = NDKMediaCodecs.sentinel).
Proof.
  split; [ | split; [ | split ] ].
  - cbn. intros [ <- | [ <- | [ <- | [ <- | [ <- | [] ] ] ] ] ];
      repeat split; (reflexivity || discriminate).
  - intros Hout.
    destruct id; try (exfalso; apply Hout; cbn; tauto); split; reflexivity.
  - cbn. intros [ <- | [ <- | [ <- | [ <- | [ <- | [] ] ] ] ] ];
      repeat split; (reflexivity || discriminate).
  - intros Hout. unfold NDKMediaCodecs.byName. cbn -[String.eqb].
    repeat match goal with
           | |- context [ String.eqb ?a ?n ] =>
               is_var n; destruct (String.eqb_spec a n);
               [ exfalso; apply Hout; subst n; cbn; tauto | ]
           end.
    reflexivity.
Qed.

End Catalogs.

(* ===================================================================== *)
(** * Further properties of the recording orchestrator *)
(* ===================================================================== *)

Section PluginIDs.

Import PluginID.

Let keep (c : QChar) : bool :=
  (0 <? count
          (firstn (strnlen videoRecordingValidPluginIDChars 64)
             (list_ascii_of_string videoRecordingValidPluginIDChars))
          c)%nat.

Lemma keep_valid c : keep c = true <-> valid c.
Proof.
  unfold keep, valid, count.
  change (firstn (strnlen videoRecordingValidPluginIDChars 64)
            (list_ascii_of_string videoRecordingValidPluginIDChars))
    with (list_ascii_of_string videoRecordingValidPluginIDChars).
  generalize (list_ascii_of_string videoRecordingValidPluginIDChars).
  intros range. rewrite Nat.ltb_lt. induction range as [ | a l IH ]; cbn.
  - split; [ lia | tauto ].
  - destruct (N.eqb_spec (N_of_ascii a) c) as [ E | E ]; cbn.
    + split; [ auto | lia ].
    + rewrite IH. split; [ auto | intros [ H | H ]; [ contradiction | exact H ] ].
Qed.

Lemma underscore_valid : valid (N_of_ascii "_"%char).
Proof. unfold valid. cbn. repeat (try (left; reflexivity); right). Qed.

Let class (c : QChar) : bool :=
  ((48 <=? c) && (c <=? 57) || (65 <=? c) && (c <=? 90)
   || (97 <=? c) && (c <=? 122) || (c =? 95))%N.

Lemma keep_class c : keep c = class c.
Proof.
  destruct (N.lt_ge_cases c 128) as [ Hc | Hc ].
  - assert (H : forallb (fun n => Bool.eqb (keep (N.of_nat n))
                                     (class (N.of_nat n)))
                  (seq 0 128) = true) by (vm_compute; reflexivity).
    rewrite forallb_forall in H.
    specialize (H (N.to_nat c)). rewrite N2Nat.id in H.
    apply eqb_prop, H, in_seq. lia.
  - transitivity false.
    + destruct (keep c) eqn:E; [ | reflexivity ].
      apply keep_valid in E. unfold valid in E.
      assert (H : Forall (fun n => (n < 128)%N)
                    (map N_of_ascii
                       (list_ascii_of_string videoRecordingValidPluginIDChars)))
        by (repeat constructor).
      rewrite Forall_forall in H. apply H in E. lia.
    + unfold class.
      repeat match goal with
             | |- context [ (?a <=? ?b)%N ] => destruct (N.leb_spec a b)
             | |- context [ (?a =? ?b)%N ] => destruct (N.eqb_spec a b)
             end; cbn; try reflexivity; lia.
Qed.

(** X19. [normatizePluginID] works character by character: a digit, an
    ASCII letter or an underscore is kept where it stands and any other
    character (so every [':'] and ['/'] of a plug-in id) is replaced by
    an underscore. The result therefore has the length of the input and
    is made of digits, ASCII letters and underscores only; normalizing
    twice is the same as normalizing once, and a string that is already
    such a name is returned as it is. *)
Theorem normatizePluginID_normalizes (pluginID : QString) :
  (forall c, valid c
             <-> (48 <= c <= 57 \/ 65 <= c <= 90 \/ 97 <= c <= 122 \/ c = 95)%N)
  /\ (forall i c,
        nth_error pluginID i = Some c ->
        (valid c -> nth_error (normatizePluginID pluginID) i = Some c)
        /\ (~ valid c ->
            nth_error (normatizePluginID pluginID) i
            = Some (N_of_ascii "_"%char)))
  /\ List.length (normatizePluginID pluginID) = List.length pluginID
  /\ Forall valid (normatizePluginID pluginID)
  /\ normatizePluginID (normatizePluginID pluginID)
     = normatizePluginID pluginID
  /\ (Forall valid pluginID -> normatizePluginID pluginID = pluginID)
  /\ ~ In (N_of_ascii ":"%char) (normatizePluginID pluginID)
  /\ ~ In (N_of_ascii "/"%char) (normatizePluginID pluginID).
Proof.
  assert (Hclass : forall c,
             valid c
             <-> (48 <= c <= 57 \/ 65 <= c <= 90 \/ 97 <= c <= 122 \/ c = 95)%N).
  { intros c. rewrite <- keep_valid, keep_class. unfold class.
    rewrite !orb_true_iff, !andb_true_iff, !N.leb_le, N.eqb_eq. tauto. }
  assert (Hpoint : forall i c,
             nth_error pluginID i = Some c ->
             (valid c -> nth_error (normatizePluginID pluginID) i = Some c)
             /\ (~ valid c ->
                 nth_error (normatizePluginID pluginID) i
                 = Some (N_of_ascii "_"%char))).
  { intros i c Hi. unfold normatizePluginID.
    rewrite nth_error_map, Hi. cbn [option_map]. fold (keep c).
    split; intros Hc.
    - apply keep_valid in Hc. now rewrite Hc.
    - destruct (keep c) eqn:E; [ | reflexivity ].
      apply keep_valid in E. contradiction. }
  assert (Hall : Forall valid (normatizePluginID pluginID)).
  { unfold normatizePluginID. apply Forall_map, Forall_forall. intros c _.
    fold (keep c). destruct (keep c) eqn:E.
    - now apply keep_valid.
    - apply underscore_valid. }
  assert (Hfix : forall s, Forall valid s -> normatizePluginID s = s).
  { intros s Hs. unfold normatizePluginID.
    induction Hs as [ | c l Hc _ IH ]; cbn [map]; [ reflexivity | ].
    fold (keep c). apply keep_valid in Hc. rewrite Hc. now rewrite IH. }
  assert (Hnot : forall c, ~ valid c -> ~ In c (normatizePluginID pluginID)).
  { intros c Hc Hin. rewrite Forall_forall in Hall. auto. }
  split; [ exact Hclass | ].
  split; [ exact Hpoint | ].
  split; [ apply length_map | ].
  split; [ exact Hall | ].
  split; [ now apply Hfix | ].
  split; [ apply Hfix | ].
  split; apply Hnot; rewrite Hclass; cbn; lia.
Qed.

End PluginIDs.

Section OrchestratorRules.

Import State Ak Recording.

Context {Mx AE VE : Type}.

Variable P : RecordingPrivate Mx AE VE -> Prop.

Lemma inv_rec_this {A} (f : RecordingPrivate Mx AE VE -> A) :
  inv P (Recording.this f).
Proof. intros r H. exact H. Qed.

Lemma inv_rec_assign (f : RecordingPrivate Mx AE VE -> RecordingPrivate Mx AE VE) :
  (forall r, P r -> P (f r)) -> inv P (Recording.assign f).
Proof. intros Hf r H. exact (Hf r H). Qed.

End OrchestratorRules.

(** The structure of a method of the orchestrator, down to its
    assignments. *)
Ltac rec_structure :=
  unfold Recording.on_muxer, Recording.on_video, Recording.on_audio,
    Recording.ask_muxer, Recording.ask_video, Recording.ask_audio,
    Recording.emit;
  repeat (cbv zeta;
          lazymatch goal with
          | |- inv _ (State.ret _) => apply inv_ret
          | |- inv _ (Recording.this _) => apply inv_rec_this
          | |- inv _ (State.bind _ _) => apply inv_bind; [ | intros ]
          | |- inv _ (State.when _ _) => apply inv_when
          | |- inv _ (if ?b then _ else _) => destruct b
          | |- inv _ (match ?x with _ => _ end) => destruct x
          end).

Ltac rec_solve tac :=
  rec_structure;
  lazymatch goal with
  | |- inv _ (Recording.assign _) => apply inv_rec_assign; intros; tac
  | |- _ => idtac
  end.

Section OrchestratorStates.

Import State Ak Recording RecordingSpec RecordingApi RecordingFacts.

Context {Mx AE VE : Type}.
Context {MUX : AkVideoMuxer Mx} {AENC : AkAudioEncoder AE} {VENC : AkVideoEncoder VE}.

Ltac around_leaf := unfold surroundings, settings in *; cbn in *; assumption.

Lemma init_pipeline_keeps_surroundings :
  keeps surroundings (init_pipeline (Mx := Mx) (AE := AE) (VE := VE)).
Proof.
  intros v. unfold init_pipeline, init_audio. rec_solve around_leaf.
Qed.

Lemma init_keeps_surroundings :
  keeps surroundings (Recording.init (Mx := Mx) (AE := AE) (VE := VE)).
Proof.
  intros v. unfold Recording.init. rec_solve around_leaf.
  apply init_pipeline_keeps_surroundings.
Qed.

Lemma uninit_keeps_surroundings :
  keeps surroundings (Recording.uninit (Mx := Mx) (AE := AE) (VE := VE)).
Proof.
  intros v. unfold Recording.uninit. rec_solve around_leaf.
Qed.

Lemma uninit_stops (r : RecordingPrivate Mx AE VE) :
  m_isRecording (snd (Recording.uninit r)) = false.
Proof.
  destruct (m_isRecording r) eqn:Hrec.
  - unfold Recording.uninit, bind at 1, this at 1. rewrite Hrec. cbn [negb].
    unfold bind at 1, assign at 1.
    assert (K : inv (fun r => m_isRecording r = false)
                  (Recording.uninit (Mx := Mx) (AE := AE) (VE := VE))).
    { unfold Recording.uninit. rec_solve ltac:(cbn in *; auto). }
    match goal with
    | |- m_isRecording (snd (?m ?x)) = false =>
        assert (K' : inv (fun r => m_isRecording r = false) m)
    end.
    { rec_solve ltac:(cbn in *; auto). }
    apply K'. reflexivity.
  - unfold Recording.uninit, bind, this. now rewrite Hrec.
Qed.

Lemma init_failure (r : RecordingPrivate Mx AE VE) :
  fst (Recording.init r) = false ->
  snd (Recording.init r)
  = set_events (events r ++ [QDir_mkpath (m_videoDirectory r)]) r.
Proof.
  unfold Recording.init, emit, bind, this, assign, ret. cbn.
  destruct (mkpath (env r) (m_videoDirectory r)); cbn; [ | reflexivity ].
  destruct (m_muxer r); cbn; [ | reflexivity ].
  destruct (m_videoEncoder r); cbn; [ | reflexivity ].
  match goal with
  | |- context [ init_pipeline ?x ] => destruct (init_pipeline x)
  end.
  discriminate.
Qed.

Lemma enter_spec st (r : RecordingPrivate Mx AE VE) :
  enter st r
  = (true, set_events (events r ++ [stateChanged st]) (set_m_state st r)).
Proof. reflexivity. Qed.

Lemma setState_cases (r : RecordingPrivate Mx AE VE) (st : ElementState) :
  Recording.setState st r
  = match m_state r, st with
    | ElementStateNull, ElementStatePaused => enter st (set_m_pause true r)
    | ElementStateNull, ElementStatePlaying =>
        let (ok, r1) := Recording.init r in
        if ok then enter st r1 else (false, r1)
    | ElementStatePaused, ElementStateNull
    | ElementStatePlaying, ElementStateNull =>
        let (_, r1) := Recording.uninit r in enter st (set_m_pause false r1)
    | ElementStatePaused, ElementStatePlaying => enter st (set_m_pause false r)
    | ElementStatePlaying, ElementStatePaused => enter st (set_m_pause true r)
    | _, _ => (false, r)
    end.
Proof.
  unfold Recording.setState, bind at 1, this at 1. cbv beta iota.
  destruct (m_state r), st; try reflexivity.
  all: unfold bind at 1.
  all: try (destruct (Recording.init r) as [ [ | ] r1 ]; reflexivity).
  all: destruct (Recording.uninit r) as [ [] r1 ]; reflexivity.
Qed.

(** X20. What [Recording::setState] answers. For every orchestrator and
    every requested state: a request for the state the orchestrator is
    in returns [false] and changes nothing; when the call returns [true]
    the orchestrator is in the requested state and [stateChanged] with
    that state is the last thing it did; when the call returns [false]
    the state is the one before the call; and the settings of the
    orchestrator (capabilities, bitrates, GOP, directory, audio switch)
    are never touched. *)
Theorem recording_setState_answers
    (r : RecordingPrivate Mx AE VE) (st : ElementState) :
  let res := Recording.setState st r in
  (st = m_state r -> res = (false, r))
  /\ (fst res = true ->
      m_state (snd res) = st
      /\ exists before, events (snd res) = before ++ [stateChanged st])
  /\ (fst res = false -> m_state (snd res) = m_state r)
  /\ settings (snd res) = settings r.
Proof.
  intros res. unfold res. clear res. rewrite setState_cases.
  pose proof (init_keeps_surroundings (surroundings r) r eq_refl) as Ki.
  pose proof (uninit_keeps_surroundings (surroundings r) r eq_refl) as Ku.
  unfold surroundings in Ki, Ku.
  assert (Split : forall (A B C D : Prop), A -> B -> C -> D -> A /\ B /\ C /\ D)
    by tauto.
  destruct (m_state r) eqn:Hs, st.
  all: try (cbn; apply Split;
            [ intros _; reflexivity | discriminate | intros _; exact Hs
            | reflexivity ]).
  - (* Null -> Paused *)
    rewrite enter_spec. apply Split;
      [ discriminate | intros _; cbn; split; [ | eexists ]; reflexivity
      | discriminate | reflexivity ].
  - (* Null -> Playing *)
    destruct (Recording.init r) as [ ok r1 ]. cbn [snd] in Ki.
    pose proof (f_equal (fun x => fst (fst x)) Ki) as Kset.
    pose proof (f_equal (fun x => snd (fst x)) Ki) as Kst.
    cbn [fst snd] in Kset, Kst.
    destruct ok.
    + rewrite enter_spec. apply Split;
        [ discriminate | intros _; cbn; split; [ | eexists ]; reflexivity
        | discriminate | exact Kset ].
    + apply Split;
        [ discriminate | discriminate | intros _; exact Kst | exact Kset ].
  - (* Paused -> Null *)
    destruct (Recording.uninit r) as [ [] r1 ]. cbn [snd] in Ku.
    pose proof (f_equal (fun x => fst (fst x)) Ku) as Kset.
    cbn [fst snd] in Kset.
    rewrite enter_spec. apply Split;
      [ discriminate | intros _; cbn; split; [ | eexists ]; reflexivity
      | discriminate | exact Kset ].
  - (* Paused -> Playing *)
    rewrite enter_spec. apply Split;
      [ discriminate | intros _; cbn; split; [ | eexists ]; reflexivity
      | discriminate | reflexivity ].
  - (* Playing -> Null *)
    destruct (Recording.uninit r) as [ [] r1 ]. cbn [snd] in Ku.
    pose proof (f_equal (fun x => fst (fst x)) Ku) as Kset.
    cbn [fst snd] in Kset.
    rewrite enter_spec. apply Split;
      [ discriminate | intros _; cbn; split; [ | eexists ]; reflexivity
      | discriminate | exact Kset ].
  - (* Playing -> Paused *)
    rewrite enter_spec. apply Split;
      [ discriminate | intros _; cbn; split; [ | eexists ]; reflexivity
      | discriminate | reflexivity ].
Qed.

Lemma setBitrate_keeps_states t b :
  keeps (fun r : RecordingPrivate Mx AE VE => (m_state r, m_isRecording r))
        (Recording.setBitrate t b).
Proof.
  intros v. unfold Recording.setBitrate.
  destruct t; rec_solve ltac:(cbn in *; assumption).
Qed.

Lemma step_at_rest op (r : RecordingPrivate Mx AE VE) :
  at_rest r -> at_rest (RecordingApi.step op r).
Proof.
  assert (Hset : forall st (r : RecordingPrivate Mx AE VE),
             at_rest r -> at_rest (snd (Recording.setState st r))).
  { clear r. intros st r Hr. unfold at_rest in *. rewrite setState_cases.
    destruct (m_state r) eqn:Hs, st; try (cbn; congruence).
    - cbn. auto.
    - pose proof (init_failure r) as Hfail.
      destruct (Recording.init r) as [ ok r1 ].
      destruct ok; [ cbn; discriminate | ].
      cbn in *. rewrite Hfail by reflexivity. cbn. auto.
    - pose proof (uninit_stops r) as Hstop.
      destruct (Recording.uninit r) as [ [] r1 ]. cbn in *. auto.
    - pose proof (uninit_stops r) as Hstop.
      destruct (Recording.uninit r) as [ [] r1 ]. cbn in *. auto. }
  assert (Hbit : forall t b (r : RecordingPrivate Mx AE VE),
             at_rest r -> at_rest (snd (Recording.setBitrate t b r))).
  { clear r. intros t b r Hr. unfold at_rest in *.
    pose proof (setBitrate_keeps_states t b _ r eq_refl) as K.
    injection K as -> ->. exact Hr. }
  intros Hr. destruct op; cbn [RecordingApi.step].
  - now apply Hset.
  - now apply Hbit.
  - unfold resetBitrate. now apply Hbit.
  - unfold resetState, bind, ret.
    pose proof (Hset ElementStateNull r Hr) as H.
    destruct (Recording.setState ElementStateNull r). exact H.
Qed.

(** X21. An orchestrator that is not in use is not recording. Starting
    from an orchestrator for which this holds (as it does after
    construction), whatever sequence of state changes and bitrate
    settings a client performs, whenever the orchestrator is in
    [ElementStateNull] its recording flag is off: every way back to
    [ElementStateNull] goes through [uninit], and a start that fails
    leaves the flag as it was. *)
Theorem null_orchestrator_is_not_recording
    (ops : list RecordingApi.Op) (r : RecordingPrivate Mx AE VE) :
  at_rest r -> at_rest (RecordingApi.run ops r).
Proof.
  unfold RecordingApi.run. revert r.
  induction ops as [ | op ops IH ]; intros r Hr; cbn.
  - exact Hr.
  - apply IH. now apply step_at_rest.
Qed.

(** X22. A start that goes through [ElementStatePaused] records nothing.
    From [ElementStateNull], a request for [ElementStatePaused] followed
    by a request for [ElementStatePlaying] succeeds twice and ends in
    [ElementStatePlaying], but [init] is never run: the plug-ins and the
    recording flag are as they were, no directory is created, and the
    only things done are the two [stateChanged] signals. *)
Theorem paused_start_does_not_record (r : RecordingPrivate Mx AE VE) :
  m_state r = ElementStateNull ->
  let paused := Recording.setState ElementStatePaused r in
  let playing := Recording.setState ElementStatePlaying (snd paused) in
  fst paused = true /\ fst playing = true
  /\ m_state (snd playing) = ElementStatePlaying
  /\ pipeline (snd playing) = pipeline r
  /\ events (snd playing)
     = events r ++ [stateChanged ElementStatePaused;
                    stateChanged ElementStatePlaying].
Proof.
  intros Hs paused playing. unfold playing, paused.
  rewrite (setState_cases r), Hs. rewrite enter_spec. cbn [snd fst].
  rewrite setState_cases. cbn. rewrite <- app_assoc. repeat split.
Qed.

(** X23. [resetBitrate] restores the default bitrate of a stream, except
    that the video bitrate is left as it is while no video encoder is
    selected. Resetting a second time changes nothing. *)
Theorem resetBitrate_restores_default
    (r : RecordingPrivate Mx AE VE) (t : CapsType) :
  let r' := snd (resetBitrate t r) in
  (t = CapsVideo -> m_videoEncoder r = None -> r' = r)
  /\ (t <> CapsVideo \/ m_videoEncoder r <> None ->
      Recording.bitrate t r' = defaultBitrate t)
  /\ resetBitrate t r' = (tt, r').
Proof.
  intros r'. unfold r', resetBitrate, Recording.setBitrate, emit, bind, this,
    assign, ret.
  destruct t; cbn.
  - destruct (Z.eqb_spec (m_audioBitrate r) DEFAULT_AUDIO_BITRATE) as [ E | E ];
      cbn; rewrite ?E, ?Z.eqb_refl; repeat split; auto; discriminate.
  - destruct (m_videoEncoder r) as [ ve | ] eqn:Hve; cbn.
    + destruct (Z.eqb_spec (m_videoBitrate r) DEFAULT_VIDEO_BITRATE) as [ E | E ];
        cbn; rewrite ?Hve; cbn; rewrite ?E, ?Z.eqb_refl;
        repeat split; auto; discriminate.
    + rewrite Hve. repeat split; auto. intros [ H | H ]; congruence.
  - repeat split; auto.
Qed.

End OrchestratorStates.

Section OrchestratorStateExamples.

Import State Ak Recording RecordingSpec RecordingApi RecordingFacts.

Lemma null_orchestrator_is_not_recording_witness :
  at_rest
    (RecordingApi.run
       [OpSetState ElementStatePlaying; OpSetBitrate CapsAudio 64000;
        OpSetState ElementStateNull]
       Examples.unconfigured).
Proof.
  apply (null_orchestrator_is_not_recording
           [OpSetState ElementStatePlaying; OpSetBitrate CapsAudio 64000;
            OpSetState ElementStateNull]
           Examples.unconfigured).
  unfold at_rest. reflexivity.
Defined.

Lemma paused_start_does_not_record_witness :
  let paused := Recording.setState ElementStatePaused Examples.unconfigured in
  let playing := Recording.setState ElementStatePlaying (snd paused) in
  fst paused = true /\ fst playing = true
  /\ m_state (snd playing) = ElementStatePlaying
  /\ pipeline (snd playing) = pipeline Examples.unconfigured
  /\ events (snd playing)
     = events Examples.unconfigured
       ++ [stateChanged ElementStatePaused; stateChanged ElementStatePlaying].
Proof.
  apply (paused_start_does_not_record Examples.unconfigured). reflexivity.
Defined.

End OrchestratorStateExamples.

Section OrchestratorStart.

Import State Ak Recording RecordingSpec RecordingApi RecordingFacts.

Context {Mx AE VE : Type}.
Context {MUX : AkVideoMuxer Mx} {AENC : AkAudioEncoder AE} {VENC : AkVideoEncoder VE}.

(** X24. The order and the arguments of a start. When a start is
    requested from [ElementStateNull] with a muxer and a video encoder
    selected and the video directory can be created, [setState] returns
    [true], the orchestrator is playing and recording, and it has done,
    in this order and nothing else: create the directory; give the muxer
    the location made of the directory, the current time and the
    extension of the muxer; give the video encoder the capabilities, the
    bitrate and the GOP of the orchestrator and the opposite of what the
    muxer allows as gap policy; give the muxer the output capabilities
    and the bitrate that the configured encoder reports; link the
    encoder; do the same for the audio encoder when one is selected,
    pause it and pass the headers it then reports to the muxer; pause
    the video encoder and pass the headers it then reports to the muxer;
    set the muxer playing; then the audio encoder, then the video
    encoder; and signal the new state. *)
Theorem start_sequence (r : RecordingPrivate Mx AE VE) (mx : Mx) (ve : VE) :
  m_state r = ElementStateNull ->
  m_muxer r = Some mx ->
  m_videoEncoder r = Some ve ->
  mkpath (env r) (m_videoDirectory r) = true ->
  let res := Recording.setState ElementStatePlaying r in
  fst res = true
  /\ m_state (snd res) = ElementStatePlaying
  /\ m_isRecording (snd res) = true
  /\ events (snd res)
     = events r
       ++ match m_audioEncoder r with
          | None => video_start r mx ve
          | Some ae => audio_video_start r mx ve ae
          end.
Proof.
  intros Hs Hmx Hve Hdir res. unfold res. clear res.
  rewrite setState_cases, Hs.
  rewrite (init_ready r mx ve Hmx Hve Hdir).
  destruct r as [ ac vc ab vb gop m ae v dir lv st ra rec pa en ev fl ].
  cbn in Hs, Hmx, Hve, Hdir. subst st m v.
  destruct ae as [ ae | ].
  all: lazy -[app String.append].
  all: rewrite <- !app_assoc; cbn [app].
  all: split; [ reflexivity | ]; split; [ reflexivity | ].
  all: split; reflexivity.
Qed.

Lemma init_pipeline_keeps_muxer :
  inv (fun r : RecordingPrivate Mx AE VE => m_muxer r <> None /\ fault r = false)
      init_pipeline.
Proof.
  unfold init_pipeline, init_audio.
  rec_solve ltac:(cbn in *;
                  match goal with
                  | H : _ /\ _ |- _ => destruct H as (Hm & Hf)
                  end;
                  split; [ | assumption ];
                  first [ assumption
                        | destruct (m_muxer _); [ discriminate | congruence ] ]).
Qed.

Lemma init_sound (r : RecordingPrivate Mx AE VE) :
  sound r -> sound (snd (Recording.init r)).
Proof.
  intros (Hrec & Hf). unfold sound.
  unfold Recording.init, emit, bind, this, assign, ret. cbn.
  destruct (mkpath (env r) (m_videoDirectory r)); cbn; [ | auto ].
  destruct (m_muxer r) as [ mx | ] eqn:Hmx; cbn; [ | rewrite Hmx; auto ].
  destruct (m_videoEncoder r) as [ ve | ]; cbn; [ | rewrite Hmx; auto ].
  match goal with
  | |- context [ init_pipeline ?x ] =>
      pose proof (init_pipeline_keeps_muxer x) as K;
      destruct (init_pipeline x) as [ [] r1 ]
  end.
  cbn in *. destruct K as (Km & Kf); [ rewrite Hmx; split; [ discriminate | auto ] | ].
  auto.
Qed.

Lemma uninit_sound (r : RecordingPrivate Mx AE VE) :
  sound r -> sound (snd (Recording.uninit r)).
Proof.
  intros (Hrec & Hf). unfold sound.
  pose proof (uninit_stops r) as Hstop. rewrite Hstop.
  split; [ discriminate | ].
  destruct (m_isRecording r) eqn:Hr.
  - destruct (m_muxer r) as [ mx | ] eqn:Hmx; [ | now specialize (Hrec eq_refl) ].
    clear Hstop Hrec.
    destruct r as [ ac vc ab vb gop m ae v dir lv st ra rec pa en ev fl ].
    cbn in Hr, Hmx, Hf. subst rec m fl.
    destruct ae as [ ae | ], v as [ v | ].
    all: lazy -[app String.append String.eqb Z.ltb PrimFloat.ltb PrimFloat.div
                Double.of_Z Double.value].
    all: repeat match goal with
                | |- context [ if ?b then _ else _ ] => destruct b
                end.
    all: reflexivity.
  - unfold Recording.uninit, bind, this. rewrite Hr. exact Hf.
Qed.

Lemma step_sound op (r : RecordingPrivate Mx AE VE) :
  sound r -> sound (RecordingApi.step op r).
Proof.
  assert (Hset : forall st (r : RecordingPrivate Mx AE VE),
             sound r -> sound (snd (Recording.setState st r))).
  { clear r. intros st r Hr. rewrite setState_cases.
    pose proof (init_sound r Hr) as Hi.
    pose proof (uninit_sound r Hr) as Hu.
    destruct (m_state r), st; try exact Hr.
    - destruct (Recording.init r) as [ [ | ] r1 ]; exact Hi.
    - destruct (Recording.uninit r) as [ [] r1 ]. exact Hu.
    - destruct (Recording.uninit r) as [ [] r1 ]. exact Hu. }
  assert (Hbit : forall t b (r : RecordingPrivate Mx AE VE),
             sound r -> sound (snd (Recording.setBitrate t b r))).
  { clear r. intros t b r.
    assert (K : inv sound (Recording.setBitrate (Mx := Mx) (AE := AE) (VE := VE) t b)).
    { unfold Recording.setBitrate.
      destruct t; rec_solve ltac:(unfold sound in *; cbn in *; assumption). }
    apply K. }
  intros Hr. destruct op; cbn [RecordingApi.step].
  - now apply Hset.
  - now apply Hbit.
  - unfold resetBitrate. now apply Hbit.
  - unfold resetState, bind, ret.
    pose proof (Hset ElementStateNull r Hr) as H.
    destruct (Recording.setState ElementStateNull r). exact H.
Qed.

(** X25. The stop sequence never calls through a null muxer. [uninit]
    reads the location of the muxer without testing the pointer; for an
    orchestrator that is driven by state changes and bitrate settings,
    from a state in which a recording in progress has its muxer (as after
    construction, when nothing is recording), a recording in progress
    always has its muxer and that read is never reached with a null
    pointer. *)
Theorem stop_never_calls_null_muxer
    (ops : list RecordingApi.Op) (r : RecordingPrivate Mx AE VE) :
  sound r -> sound (RecordingApi.run ops r).
Proof.
  unfold RecordingApi.run. revert r.
  induction ops as [ | op ops IH ]; intros r Hr; cbn.
  - exact Hr.
  - apply IH. now apply step_sound.
Qed.

End OrchestratorStart.

Section OrchestratorStartExamples.

Import State Ak Recording RecordingSpec RecordingApi RecordingFacts.

Lemma start_sequence_witness :
  let res := Recording.setState ElementStatePlaying MoreExamples.ready in
  fst res = true
  /\ m_state (snd res) = ElementStatePlaying
  /\ m_isRecording (snd res) = true
  /\ events (snd res)
     = events MoreExamples.ready
       ++ match m_audioEncoder MoreExamples.ready with
          | None =>
              video_start MoreExamples.ready Examples.stub_muxer
                Examples.stub_video
          | Some ae =>
              audio_video_start MoreExamples.ready Examples.stub_muxer
                Examples.stub_video ae
          end.
Proof.
  apply (start_sequence MoreExamples.ready Examples.stub_muxer
           Examples.stub_video); reflexivity.
Defined.

Lemma stop_never_calls_null_muxer_witness :
  sound
    (RecordingApi.run
       [OpSetState ElementStatePlaying; OpSetState ElementStatePaused;
        OpSetState ElementStateNull]
       MoreExamples.ready).
Proof.
  apply (stop_never_calls_null_muxer
           [OpSetState ElementStatePlaying; OpSetState ElementStatePaused;
            OpSetState ElementStateNull]
           MoreExamples.ready).
  split; [ discriminate | reflexivity ].
Defined.

End OrchestratorStartExamples.

Section EncoderStateAnswers.

Import State Ak Hw Encoder EncoderSpec EncoderFacts.

Lemma setState_announces st s :
  lifecycle s ->
  wp (setState st)
     (fun ok s' =>
        ok = true ->
        exists before, signals (world s') = before ++ [stateChanged st]) s.
Proof.
  unfold lifecycle, setState. intros H. wp_step. wp_step.
  destruct (state (elem s)) eqn:Es, st;
    try (wp_go; discriminate).
  - destruct H as (Hi & Hp & Hr).
    wp_step. wp_step. unfold start_or_fail. wp_step.
    eapply wp_conseq; [ apply init_post; exact Hi | ].
    cbn. intros ok s1 (Hs & _). destruct ok; cbn.
    + apply wp_AkElement_setState; [ rewrite Hs, Es; discriminate | ].
      intros _. now exists (signals (world s1)).
    + wp_go. discriminate.
  - destruct H as (Hi & Hp & Hr).
    unfold start_or_fail. wp_step.
    eapply wp_conseq; [ apply init_post; exact Hi | ].
    cbn. intros ok s1 (Hs & _). destruct ok; cbn.
    + apply wp_AkElement_setState; [ rewrite Hs, Es; discriminate | ].
      intros _. now exists (signals (world s1)).
    + wp_go. discriminate.
  - destruct H as (Hi & Hp & h & Hc & Hr).
    wp_step.
    eapply wp_conseq; [ apply (uninit_post s h Hi Hc Hr) | ].
    cbn. intros _ s1 (Hs & _).
    apply wp_AkElement_setState; [ rewrite Hs, Es; discriminate | ].
    intros _. now exists (signals (world s1)).
  - wp_step. wp_step.
    apply wp_AkElement_setState; [ cbn; rewrite Es; discriminate | ].
    intros _. now exists (signals (world s)).
  - destruct H as (Hi & Hp & h & Hc & Hr).
    wp_step.
    eapply wp_conseq; [ apply (uninit_post s h Hi Hc Hr) | ].
    cbn. intros _ s1 (Hs & _).
    apply wp_AkElement_setState; [ rewrite Hs, Es; discriminate | ].
    intros _. now exists (signals (world s1)).
  - wp_step. wp_step.
    apply wp_AkElement_setState; [ cbn; rewrite Es; discriminate | ].
    intros _. now exists (signals (world s)).
Qed.

(** X26. What [setState] of the element answers. For every session
    reachable from the constructor and every requested state: a request
    for the state the session is in returns [false] and changes nothing;
    when the call returns [true] the session is in the requested state
    and [stateChanged] with that state is the last signal; when it
    returns [false] the state is the one before the call. *)
Theorem encoder_setState_answers
    (sc : Script) (bitrate gop : Z) (fillGaps fpsControl : bool)
    (ops : list Op) (st : ElementState) :
  let s := run ops (new_session sc bitrate gop fillGaps fpsControl) in
  let res := setState st s in
  (st = state (elem s) -> res = (false, s))
  /\ (fst res = true ->
      state (elem (snd res)) = st
      /\ exists before,
           signals (world (snd res)) = before ++ [stateChanged st])
  /\ (fst res = false -> state (elem (snd res)) = state (elem s)).
Proof.
  intros s res.
  pose proof (run_lifecycle ops _
                (new_session_lifecycle sc bitrate gop fillGaps fpsControl)) as Hl.
  fold s in Hl.
  pose proof (setState_lifecycle st s Hl) as H1.
  pose proof (setState_announces st s Hl) as H2.
  unfold wp in H1, H2. fold res in H1, H2.
  destruct H1 as (_ & _ & Hstate).
  split; [ | split ].
  - intros ->. unfold res, setState, bind, this. cbn.
    destruct (state (elem s)); reflexivity.
  - intros Hok. rewrite Hok in Hstate. auto.
  - intros Hok. now rewrite Hok in Hstate.
Qed.

Ltac subm_kept :=
  unfold elem_submissions, submissions, log, emit_signal in *; cbn in *;
  rewrite ?filter_app; cbn; rewrite ?app_nil_r; assumption.

Lemma uninit_drain_submissions turns c :
  keeps elem_submissions (uninit_drain turns c).
Proof.
  induction turns as [ | n IH ]; intros v; unfold uninit_drain;
    fold uninit_drain.
  - apply inv_ret.
  - inv_solve subm_kept; try apply IH; try apply sendFrame_submissions.
Qed.

Lemma uninit_end_of_stream s h :
  m_initialized (elem s) = true ->
  m_codec (elem s) = Some h ->
  wp uninit
     (fun _ s' =>
        submissions s'
        = submissions s
          ++ (if 0 <=? next_input_slot s
              then [queueInputBuffer (Some h) (next_input_slot s) 0 0 0
                      AMEDIACODEC_BUFFER_FLAG_END_OF_STREAM]
              else [])) s.
Proof.
  intros Hinit Hcodec. unfold next_input_slot.
  unfold uninit. wp_step. wp_step. rewrite Hinit. cbn.
  wp_step. wp_step. wp_step. wp_step. rewrite Hcodec.
  wp_go.
  all: apply (wp_keeps elem_submissions); [ apply uninit_drain_submissions | ].
  all: unfold elem_submissions; cbn; intros _ s2 Hc; injection Hc as He Hs.
  all: wp_go.
  all: unfold submissions, log in *; cbn; rewrite ?filter_app; cbn;
       rewrite ?app_nil_r; rewrite Hs; cbn; rewrite ?filter_app; cbn;
       rewrite ?app_nil_r.
  all: cbn in *.
  all: repeat match goal with
              | H : will_dequeue_input _ = _ |- _ => rewrite H in *
              end; cbn in *.
  all: repeat match goal with
              | H : (0 <=? _) = _ |- _ => rewrite H
              end.
  all: rewrite ?app_nil_r; reflexivity.
Qed.

(** X27. Stopping tells the codec that the stream ends, if it can. For
    every session reachable from the constructor that is paused or
    playing, the only frame data that the stop hands to the hardware is
    one empty input buffer flagged [END_OF_STREAM], queued in the slot
    the provider gives; when the provider gives no slot within the
    bounded wait, nothing is queued and the stop goes on all the
    same. *)
Theorem stop_queues_end_of_stream
    (sc : Script) (bitrate gop : Z) (fillGaps fpsControl : bool)
    (ops : list Op) :
  let s := run ops (new_session sc bitrate gop fillGaps fpsControl) in
  state (elem s) <> ElementStateNull ->
  let s' := snd (setState ElementStateNull s) in
  state (elem s') = ElementStateNull
  /\ submissions s'
     = submissions s
       ++ (if 0 <=? next_input_slot s
           then [queueInputBuffer (m_codec (elem s)) (next_input_slot s) 0 0 0
                   AMEDIACODEC_BUFFER_FLAG_END_OF_STREAM]
           else []).
Proof.
  intros s Hbusy s'.
  pose proof (run_lifecycle ops _
                (new_session_lifecycle sc bitrate gop fillGaps fpsControl)) as Hl.
  fold s in Hl. unfold lifecycle in Hl.
  assert (K : exists h,
             m_initialized (elem s) = true /\ m_codec (elem s) = Some h
             /\ running (world s) = [h]).
  { destruct (state (elem s)); [ congruence | | ];
      destruct Hl as (Hi & _ & h & Hc & Hr); eauto. }
  destruct K as (h & Hi & Hc & Hr).
  assert (W : wp (setState ElementStateNull)
                (fun _ s' =>
                   state (elem s') = ElementStateNull
                   /\ submissions s'
                      = submissions s
                        ++ (if 0 <=? next_input_slot s
                            then [queueInputBuffer (Some h) (next_input_slot s)
                                    0 0 0 AMEDIACODEC_BUFFER_FLAG_END_OF_STREAM]
                            else [])) s).
  { unfold setState. wp_step. wp_step.
    destruct (state (elem s)) eqn:Es; [ congruence | | ]; cbn.
    all: wp_step.
    all: eapply wp_conseq;
      [ apply wp_and; [ apply (uninit_post s h Hi Hc Hr)
                      | apply (uninit_end_of_stream s h Hi Hc) ] | ].
    all: cbn; intros _ s1 ((Hs & _) & Hsub).
    all: apply wp_AkElement_setState; [ rewrite Hs, Es; discriminate | ].
    all: cbn; split; [ reflexivity | ].
    all: unfold submissions, emit_signal in *; cbn; exact Hsub. }
  unfold wp in W. fold s' in W. rewrite Hc. exact W.
Qed.

Lemma stop_queues_end_of_stream_witness :
  let s := run [OpSetInputCaps Examples.caps_4x2; OpSetState ElementStatePlaying]
             (new_session Examples.willing Recording.DEFAULT_VIDEO_BITRATE
                Recording.DEFAULT_VIDEO_GOP false true) in
  let s' := snd (setState ElementStateNull s) in
  state (elem s') = ElementStateNull
  /\ submissions s'
     = submissions s
       ++ (if 0 <=? next_input_slot s
           then [queueInputBuffer (m_codec (elem s)) (next_input_slot s) 0 0 0
                   AMEDIACODEC_BUFFER_FLAG_END_OF_STREAM]
           else []).
Proof.
  apply (stop_queues_end_of_stream Examples.willing
           Recording.DEFAULT_VIDEO_BITRATE Recording.DEFAULT_VIDEO_GOP
           false true
           [OpSetInputCaps Examples.caps_4x2; OpSetState ElementStatePlaying]).
  vm_compute. discriminate.
Defined.

End EncoderStateAnswers.

Section AvailabilityCacheBound.

Import State Ak Hw Encoder EncoderSpec EncoderFacts.

(** X28. The static cache of [isAvailable] is never written past its 32
    slots. In every session reachable from the constructor in a fresh
    process, and after the construction of any further element in that
    process, the cache holds exactly the five MIME types of the catalog,
    each once, and no slot past the last one was written. *)
Theorem availability_cache_stays_in_bounds
    (sc : Script) (bitrate gop : Z) (fillGaps fpsControl : bool)
    (ops : list Op) (bitrate' gop' : Z) (fillGaps' fpsControl' : bool)
    (ops' : list Op) :
  let s := run ops (new_session sc bitrate gop fillGaps fpsControl) in
  let s' :=
    run ops'
      (snd (construct (mkSys (members bitrate' gop' fillGaps' fpsControl')
                             (world s)))) in
  map fst (availableCodecs (world s))
  = map NDKMediaCodecs.mimeType NDKMediaCodecs.table
  /\ overrun (world s) = false
  /\ availableCodecs (world s') = availableCodecs (world s)
  /\ overrun (world s') = false
  /\ (List.length (availableCodecs (world s')) < CACHE_SLOTS)%nat.
Proof.
  intros s s'.
  destruct (new_session_catalog sc bitrate gop fillGaps fpsControl)
    as (_ & _ & Hcache & Hover & _).
  pose proof (run_keeps_cache ops
                (new_session sc bitrate gop fillGaps fpsControl)) as K.
  fold s in K. unfold cache_of in K.
  pose proof (f_equal (fun x => fst (fst x)) K) as Kc.
  pose proof (f_equal (fun x => snd (fst x)) K) as Ko.
  cbn [fst snd] in Kc, Ko. rewrite Hcache in Kc. rewrite Hover in Ko.
  destruct (second_construct sc bitrate gop fillGaps
              fpsControl ops bitrate' gop' fillGaps' fpsControl')
    as (Hworld & _).
  fold s in Hworld.
  pose proof (run_keeps_cache ops'
                (snd (construct (mkSys (members bitrate' gop' fillGaps' fpsControl')
                                       (world s))))) as K'.
  fold s' in K'. unfold cache_of in K'.
  pose proof (f_equal (fun x => fst (fst x)) K') as Kc'.
  pose proof (f_equal (fun x => snd (fst x)) K') as Ko'.
  cbn [fst snd] in Kc', Ko'. rewrite Hworld in Kc', Ko'.
  rewrite Kc', Ko', Kc, Ko.
  repeat split. unfold CACHE_SLOTS. cbn. lia.
Qed.

End AvailabilityCacheBound.
